(** * ChatWrapped: the transcript parser and the analytics engine

    A shallow embedding of [utils/parser.ts] (the timestamp pattern,
    [parseDate], [detectDateFormat], the [onload] handler of [parseChatFile]
    and [analyzeMessages]) together with the properties its specification
    states about them; and of what [App.tsx] does with the two (the state
    after an upload, [analyticsData], [canCompare]) and of the sampling of
    [ActivityChart.tsx], with further properties of all of them.

    Conventions of the embedding:
    - a JavaScript string is the list of its UTF-16 code units;
    - a JavaScript number that holds an integer is a [Z]; a number that can
      be [NaN] is an [option Z] with [None] for [NaN];
    - a valid [Date] is its time value, the milliseconds since the epoch
      (UTC); the host's time zone is a fixed offset [tz] in minutes east of
      UTC, so that what is said of local times is said of hosts whose
      offset never changes; the host's clock and locale are explicit
      arguments;
    - a [Map] is an association list in insertion order, which is the order
      [forEach] visits it in. *)

From Stdlib Require Import Ascii String.
From Stdlib Require Import ZArith NArith List Bool Lia Permutation Sorted.
Import ListNotations.

Local Open Scope Z_scope.

(* ===================================================================== *)
(** ** Strings *)
(* ===================================================================== *)

Module JS.

Definition char := N.
Definition jstring := list char.

(** [u "abc"] is the string literal ['abc'] (ASCII literals only). *)
Fixpoint u (s : string) : jstring :=
  match s with
  | EmptyString => []
  | String a s' => N_of_ascii a :: u s'
  end.

Arguments u s%_string.

Definition ch (a : ascii) : char := N_of_ascii a.
Arguments ch a%_char.

Fixpoint str_eqb (a b : jstring) : bool :=
  match a, b with
  | [], [] => true
  | x :: a', y :: b' => N.eqb x y && str_eqb a' b'
  | _, _ => false
  end.

(** Comparison of two strings by code units, the order of the default
    [Array.prototype.sort]. *)
Fixpoint str_compare (a b : jstring) : comparison :=
  match a, b with
  | [], [] => Eq
  | [], _ :: _ => Lt
  | _ :: _, [] => Gt
  | x :: a', y :: b' =>
      match N.compare x y with
      | Eq => str_compare a' b'
      | c => c
      end
  end.

Definition str_leb (a b : jstring) : bool :=
  match str_compare a b with Gt => false | _ => true end.

Definition isChar (a : ascii) (c : char) : bool := N.eqb c (N_of_ascii a).
Arguments isChar a%_char c.

Definition between (lo hi : N) (c : char) : bool := N.leb lo c && N.leb c hi.

(** [\d] *)
Definition isDigit (c : char) : bool := between 48 57 c.

(** [\s]: WhiteSpace and LineTerminator code units. *)
Definition isSpace (c : char) : bool :=
  between 9 13 c || N.eqb c 32 || N.eqb c 160 || N.eqb c 5760
  || between 8192 8202 c || N.eqb c 8232 || N.eqb c 8233 || N.eqb c 8239
  || N.eqb c 8287 || N.eqb c 12288 || N.eqb c 65279.

(** [[a-zA-Z]] *)
Definition isAlpha (c : char) : bool := between 97 122 c || between 65 90 c.

(** [[-./]] *)
Definition isDateSep (c : char) : bool := isChar "-" c || isChar "." c || isChar "/" c.

(** [[,.]] *)
Definition isCommaDot (c : char) : bool := isChar "," c || isChar "." c.

(** [[:.]] *)
Definition isColonDot (c : char) : bool := isChar ":" c || isChar "." c.

(** [[:\s]] *)
Definition isColonSpace (c : char) : bool := isChar ":" c || isSpace c.

(** The class of the two directional marks, U+200E and U+200F. *)
Definition isDirMark (c : char) : bool := N.eqb c 8206 || N.eqb c 8207.

(** [s.split(re)] for a pattern [re] that matches exactly one code unit of
    the class [p]: the pieces between the separators, empty pieces kept. *)
Fixpoint split_on (p : char -> bool) (s : jstring) (cur : jstring) : list jstring :=
  match s with
  | [] => [rev cur]
  | x :: s' => if p x then rev cur :: split_on p s' [] else split_on p s' (x :: cur)
  end.

Definition split (p : char -> bool) (s : jstring) : list jstring := split_on p s [].

(** [text.split(/\r?\n/)] *)
Fixpoint split_lines_from (s : jstring) (cur : jstring) : list jstring :=
  match s with
  | [] => [rev cur]
  | 13%N :: 10%N :: s' => rev cur :: split_lines_from s' []
  | 10%N :: s' => rev cur :: split_lines_from s' []
  | x :: s' => split_lines_from s' (x :: cur)
  end.

Definition split_lines (s : jstring) : list jstring := split_lines_from s [].

(** [s.replace(re, r)] for a global single-code-unit class: every unit of
    the class is replaced. *)
Definition replace_all (p : char -> bool) (r : jstring) (s : jstring) : jstring :=
  flat_map (fun c => if p c then r else [c]) s.

(** [s.replace('.', ':')] with a string pattern: only the first occurrence
    is replaced. *)
Fixpoint replace_first (a : char) (r : jstring) (s : jstring) : jstring :=
  match s with
  | [] => []
  | x :: s' => if N.eqb x a then r ++ s' else x :: replace_first a r s'
  end.

Fixpoint startsWith (p s : jstring) : bool :=
  match p, s with
  | [], _ => true
  | x :: p', y :: s' => N.eqb x y && startsWith p' s'
  | _ :: _, [] => false
  end.

Fixpoint includes (p s : jstring) : bool :=
  startsWith p s || match s with [] => false | _ :: s' => includes p s' end.

(** [s.indexOf(c)] for a one-unit needle; [None] stands for [-1]. *)
Fixpoint indexOf (c : char) (s : jstring) : option nat :=
  match s with
  | [] => None
  | x :: s' => if N.eqb x c then Some O else option_map S (indexOf c s')
  end.

Fixpoint dropWhile (p : char -> bool) (s : jstring) : jstring :=
  match s with
  | [] => []
  | x :: s' => if p x then dropWhile p s' else s
  end.

Definition trim (s : jstring) : jstring :=
  rev (dropWhile isSpace (rev (dropWhile isSpace s))).

(** [toLowerCase] on strings whose letters are ASCII: only [A]-[Z] change.
    It is applied to the time capture of the timestamp pattern, whose
    letters come from [[a-zA-Z]]. *)
Definition toLowerCase (s : jstring) : jstring :=
  map (fun c => if between 65 90 c then (c + 32)%N else c) s.

(** [toLowerCase] on the text of a message, as the tests on that text see
    it. They compare the result with ASCII phrases, and the code units whose
    lower case holds an ASCII letter are [A]-[Z], U+212A (the Kelvin sign,
    which becomes [k]) and U+0130 (which becomes [i] followed by U+0307).
    The lower case of any other unit outside ASCII lies outside ASCII as the
    unit does; the unit itself stands for it here. *)
Definition lowerUnit (c : char) : jstring :=
  if between 65 90 c then [(c + 32)%N]
  else if N.eqb c 8490 then [107%N]
  else if N.eqb c 304 then [105%N; 775%N]
  else [c].

Definition toLowerCaseText (s : jstring) : jstring := flat_map lowerUnit s.

(** [.] in a pattern without the [s] flag: any code unit but a line
    terminator. *)
Definition isAny (c : char) : bool :=
  negb (N.eqb c 10 || N.eqb c 13 || N.eqb c 8232 || N.eqb c 8233).

(** [s.split(/\s+/)]: the pieces between the maximal runs of white space;
    [inRun] says that the unit before was white space. *)
Fixpoint split_runs (s : jstring) (cur : jstring) (inRun : bool) : list jstring :=
  match s with
  | [] => [rev cur]
  | x :: s' =>
      if isSpace x then
        if inRun then split_runs s' [] true else rev cur :: split_runs s' [] true
      else split_runs s' (x :: cur) false
  end.

Definition isEmpty (s : jstring) : bool := match s with [] => true | _ :: _ => false end.

(* ===================================================================== *)
(** ** Regular expressions: a backtracking matcher with greedy quantifiers
       and numbered capture groups *)
(* ===================================================================== *)

Inductive regex : Type :=
| Cls (p : char -> bool)                      (* one code unit of a class *)
| Cat (r1 r2 : regex)                         (* r1 r2 *)
| Rep (lo : nat) (hi : option nat) (r : regex)  (* greedy r{lo,hi}; None: no upper bound *)
| Grp (i : nat) (r : regex).                  (* ( r ), capture group number i *)

Definition captures := list (nat * jstring).

Fixpoint capture (i : nat) (c : captures) : option jstring :=
  match c with
  | [] => None
  | (j, s) :: c' => if Nat.eqb i j then Some s else capture i c'
  end.

Definition cont := jstring -> captures -> option (jstring * captures).

(** Greedy repetition: one more iteration is tried first; on failure of
    everything after it, the repetition stops here if [lo] iterations
    were made. [hi] bounds the iterations left. *)
Fixpoint rep (step : jstring -> captures -> cont -> option (jstring * captures))
    (lo hi : nat) (s : jstring) (c : captures) (k : cont) : option (jstring * captures) :=
  match hi with
  | O => match lo with O => k s c | S _ => None end
  | S hi' =>
      match step s c (fun s' c' => rep step (pred lo) hi' s' c' k) with
      | Some res => Some res
      | None => match lo with O => k s c | S _ => None end
      end
  end.

(** [run r s c k]: match [r] at the front of [s], then continue with [k] on
    what is left; [None] makes the caller backtrack. Every quantified
    sub-pattern here consumes at least one code unit, so the length of the
    input bounds an unbounded repetition. *)
Fixpoint run (r : regex) (s : jstring) (c : captures) (k : cont) : option (jstring * captures) :=
  match r with
  | Cls p =>
      match s with
      | x :: s' => if p x then k s' c else None
      | [] => None
      end
  | Cat r1 r2 => run r1 s c (fun s' c' => run r2 s' c' k)
  | Rep lo hi r0 =>
      rep (run r0) lo (match hi with Some h => h | None => length s end) s c k
  | Grp i r0 =>
      run r0 s c (fun s' c' => k s' ((i, firstn (length s - length s') s) :: c'))
  end.

(** The result of [s.match(re)] for a pattern anchored with [^] and without
    flags: [match[0]], [match[1]] and [match[2]]. *)
Record MatchResult := { m0 : jstring; m1 : jstring; m2 : jstring }.

Definition orEmpty (o : option jstring) : jstring :=
  match o with Some s => s | None => [] end.

Definition match_ (r : regex) (s : jstring) : option MatchResult :=
  match run r s [] (fun s' c' => Some (s', c')) with
  | Some (rest, c) =>
      Some {| m0 := firstn (length s - length rest) s;
              m1 := orEmpty (capture 1 c);
              m2 := orEmpty (capture 2 c) |}
  | None => None
  end.

(** [re.test(s)] for a pattern written between [^] and [$], without
    flags: the match has to use up the string. *)
Definition test_ (r : regex) (s : jstring) : bool :=
  match run r s [] (fun s' c' => match s' with [] => Some (s', c') | _ :: _ => None end) with
  | Some _ => true
  | None => false
  end.

Definition opt (r : regex) : regex := Rep 0 (Some 1%nat) r.
Definition plus (r : regex) : regex := Rep 1 None r.
Definition times (lo hi : nat) (r : regex) : regex := Rep lo (Some hi) r.

Declare Scope regex_scope.
Delimit Scope regex_scope with re.
Infix "··" := Cat (at level 60, right associativity) : regex_scope.

End JS.

Import JS.

Definition TIMESTAMP_PATTERN : regex :=
  (opt (Cls (isChar "[")) ··
   Grp 1 (times 1 4 (Cls isDigit) ·· Cls isDateSep ··
          times 1 2 (Cls isDigit) ·· Cls isDateSep ··
          times 2 4 (Cls isDigit)) ··
   opt (Cls isCommaDot) ··
   plus (Cls isSpace) ··
   Grp 2 (times 1 2 (Cls isDigit) ·· Cls isColonDot ··
          times 2 2 (Cls isDigit) ··
          opt (Cls isColonDot ·· times 2 2 (Cls isDigit)) ··
          opt (opt (Cls isSpace) ·· times 1 2 (Cls isAlpha))) ··
   opt (Cls (isChar "]")) ··
   opt (Cls isSpace ·· Cls (isChar "-") ·· Cls isSpace))%re.

(* ===================================================================== *)
(** ** Numbers and dates of the host *)
(* ===================================================================== *)

Module Host.

Fixpoint digitsValue (s : jstring) (acc : Z) : option Z :=
  match s with
  | [] => Some acc
  | c :: s' =>
      if isDigit c then digitsValue s' (10 * acc + Z.of_N (c - 48)) else None
  end.

(** [Number(s)], truncated to its integer part, for the strings that reach it
    here: the pieces of the two captures of the timestamp pattern, which are
    decimal digits, optionally with a fraction ([30.45] when a time is
    written [10.30.45]) or with letters attached ([30pm], which is [NaN]).
    The one fractional value, the minutes, only feeds the [Date] constructor,
    which truncates it. Signs, exponents, hexadecimal literals, [Infinity] and
    surrounding white space do not occur in those pieces and are [NaN] here. *)
Definition Number_ (s : jstring) : option Z :=
  match s with
  | [] => Some 0
  | _ =>
      match split (isChar ".") s with
      | [a] => digitsValue a 0
      | [a; b] =>
          match a, b with
          | [], [] => None
          | _, _ =>
              match digitsValue a 0, digitsValue b 0 with
              | Some n, Some _ => Some n
              | _, _ => None
              end
          end
      | _ => None
      end
  end.

(** [a[i]] of an array of numbers, converted to a number: [undefined]
    past the end behaves as [NaN] in arithmetic and comparisons. *)
Definition at_ (a : list (option Z)) (i : nat) : option Z :=
  match nth_error a i with
  | Some (Some z) => Some z
  | _ => None
  end.

(** Comparisons with a possibly-[NaN] left operand: [NaN] compares false. *)
Definition gtb_ (a : option Z) (b : Z) : bool :=
  match a with Some x => x >? b | None => false end.
Definition ltb_ (a : option Z) (b : Z) : bool :=
  match a with Some x => x <? b | None => false end.
Definition eqb_ (a : option Z) (b : Z) : bool :=
  match a with Some x => x =? b | None => false end.

Definition msPerDay : Z := 86400000.
Definition msPerHour : Z := 3600000.
Definition msPerMinute : Z := 60000.

(** Day number (days since the epoch) of the civil date [y]-[m]-[d] in the
    proleptic Gregorian calendar, [m] in 1..12. *)
Definition days_from_civil (y m d : Z) : Z :=
  let y' := if m <=? 2 then y - 1 else y in
  let era := y' / 400 in
  let yoe := y' - era * 400 in
  let doy := (153 * (if m >? 2 then m - 3 else m + 9) + 2) / 5 + d - 1 in
  let doe := yoe * 365 + yoe / 4 - yoe / 100 + doy in
  era * 146097 + doe - 719468.

(** The civil date (year, month 1..12, day 1..31) of a day number. *)
Definition civil_from_days (z : Z) : Z * Z * Z :=
  let z' := z + 719468 in
  let era := z' / 146097 in
  let doe := z' - era * 146097 in
  let yoe := (doe - doe / 1460 + doe / 36524 - doe / 146096) / 365 in
  let doy := doe - (365 * yoe + yoe / 4 - yoe / 100) in
  let mp := (5 * doy + 2) / 153 in
  let d := doy - (153 * mp + 2) / 5 + 1 in
  let m := if mp <? 10 then mp + 3 else mp - 9 in
  (yoe + era * 400 + (if m <=? 2 then 1 else 0), m, d).

(** [MakeDay(year, month, date)]: months outside 0..11 carry into the year,
    days outside the month carry into the neighbouring months. *)
Definition MakeDay (year month date : Z) : Z :=
  days_from_civil (year + month / 12) (month mod 12 + 1) 1 + date - 1.

(** [TimeClip] *)
Definition TimeClip (t : Z) : option Z :=
  if Z.abs t <=? 8640000000000000 then Some t else None.

(** The decimal digits of [n mod 10^w], [w] of them. *)
Fixpoint pad (w : nat) (n : Z) : jstring :=
  match w with
  | O => []
  | S w' => pad w' (n / 10) ++ [(48 + Z.to_N (n mod 10))%N]
  end.

(** [String(n)] for an integer [n]. *)
Fixpoint natDigits (fuel : nat) (n : Z) : jstring :=
  match fuel with
  | O => []
  | S f => (if n <? 10 then [] else natDigits f (n / 10)) ++ [(48 + Z.to_N (n mod 10))%N]
  end.

Definition toString (n : Z) : jstring :=
  if n <? 0 then ch "-" :: natDigits (S (Z.to_nat (Z.log2 (- n)))) (- n)
  else natDigits (S (Z.to_nat (Z.log2 n))) n.

(** [Date.prototype.toISOString] of a valid time value. *)
Definition toISOString (t : Z) : jstring :=
  let '(y, m, d) := civil_from_days (t / msPerDay) in
  let r := t mod msPerDay in
  (if (0 <=? y) && (y <=? 9999) then pad 4 y
   else (if y <? 0 then ch "-" else ch "+") :: pad 6 (Z.abs y))
  ++ u "-" ++ pad 2 m ++ u "-" ++ pad 2 d ++ u "T"
  ++ pad 2 (r / msPerHour) ++ u ":" ++ pad 2 (r / msPerMinute mod 60) ++ u ":"
  ++ pad 2 (r / 1000 mod 60) ++ u "." ++ pad 3 (r mod 1000) ++ u "Z".

(** [new Date(s).getTime()] for a date-only ISO string [YYYY-MM-DD] or
    [+YYYYYY-MM-DD] / [-YYYYYY-MM-DD], read as UTC midnight; [None] is the
    time value [NaN] of an invalid date. Only strings cut from
    [toISOString] reach it. *)
Definition parseISODate (s : jstring) : option Z :=
  let body (sign : Z) (w : nat) (t : jstring) : option Z :=
    match digitsValue (firstn w t) 0, skipn w t with
    | Some y, [c1; a1; a2; c2; b1; b2] =>
        match digitsValue [a1; a2] 0, digitsValue [b1; b2] 0 with
        | Some m, Some d =>
            if isChar "-" c1 && isChar "-" c2 && (length (firstn w t) =? w)%nat
               && (1 <=? m) && (m <=? 12) && (1 <=? d) && (d <=? 31)
               && negb ((sign <? 0) && (y =? 0))
            then Some (days_from_civil (sign * y) m d * msPerDay)
            else None
        | _, _ => None
        end
    | _, _ => None
    end in
  match s with
  | c :: t =>
      if isChar "+" c then body 1 6%nat t
      else if isChar "-" c then body (-1) 6%nat t
      else body 1 4%nat s
  | [] => None
  end.

End Host.

Import Host.

(* ===================================================================== *)
(** ** The data model *)
(* ===================================================================== *)

(** A message; [date] is the time value of a valid [Date], which is what
    the parser stores. *)
Record Message := { date : Z; sender : jstring; content : jstring }.

Inductive DateFormat := DMY | MDY | YMD.

Inductive Status := success | error.

Record ParseResult := {
  messages : list Message;
  status : Status;
  error_ : option jstring
}.

Section HostEnvironment.

(** The host's time zone: local time is UTC plus [tz] minutes. *)
Variable tz : Z.

Definition localTime (t : Z) : Z := t + tz * msPerMinute.

(** [new Date(year, month, day, hours, minutes)]: the components are local
    time; a [NaN] component or a time value out of range gives an invalid
    date, [None]. Years 0..99 stand for 1900..1999. *)
Definition newDate (year month day hours minutes : option Z) : option Z :=
  match year, month, day, hours, minutes with
  | Some y, Some m, Some d, Some h, Some mi =>
      let yr := if (0 <=? y) && (y <=? 99) then 1900 + y else y in
      TimeClip (MakeDay yr m d * msPerDay + h * msPerHour + mi * msPerMinute
                - tz * msPerMinute)
  | _, _, _, _, _ => None
  end.

Definition getHours (t : Z) : Z := localTime t / msPerHour mod 24.
Definition getDay (t : Z) : Z := (localTime t / msPerDay + 4) mod 7.
Definition getFullYear (t : Z) : Z := fst (fst (civil_from_days (localTime t / msPerDay))).

(* --------------------------------------------------------------------- *)
(** *** parseDate *)

Definition parseDate (dateStr timeStr : jstring) (dateFormat : DateFormat) : option Z :=
  let parts := map Number_ (split (isChar "/") (replace_all (fun c => isChar "-" c || isChar "." c) (u "/") dateStr)) in
  let '(day, month, year) :=
    match dateFormat with
    | YMD => (at_ parts 2, at_ parts 1, at_ parts 0)
    | MDY => (at_ parts 1, at_ parts 0, at_ parts 2)
    | DMY => (at_ parts 0, at_ parts 1, at_ parts 2)
    end in
  let year := if ltb_ year 100 then option_map (fun y => y + 2000) year else year in
  let timeParts := split isColonSpace (replace_first (ch ".") (u ":") timeStr) in
  let num (i : nat) := match nth_error timeParts i with Some p => Number_ p | None => None end in
  let hours := num 0%nat in
  let minutes := num 1%nat in
  let lowerTime := toLowerCase timeStr in
  let isPM := includes (u "pm") lowerTime || includes (u "p.m") lowerTime in
  let isAM := includes (u "am") lowerTime || includes (u "a.m") lowerTime in
  let hours := if isPM && ltb_ hours 12 then option_map (fun h => h + 12) hours else hours in
  let hours := if isAM && eqb_ hours 12 then Some 0 else hours in
  newDate year (option_map (fun m => m - 1) month) day hours minutes.

(* --------------------------------------------------------------------- *)
(** *** detectDateFormat *)

(** The loop over [lines.slice(0, 50)]: the result is [isYMD] with the two
    maxima; the [break] ends the scan. *)
Fixpoint scanFormat (lines : list jstring) (maxFirst maxSecond : Z) : bool * Z * Z :=
  match lines with
  | [] => (false, maxFirst, maxSecond)
  | line :: rest =>
      match match_ TIMESTAMP_PATTERN line with
      | Some m =>
          let parts := map Number_ (split isDateSep (m1 m)) in
          if gtb_ (at_ parts 0) 1000 then (true, maxFirst, maxSecond)
          else
            scanFormat rest
              (match at_ parts 0 with
               | Some p => if p >? maxFirst then p else maxFirst
               | None => maxFirst
               end)
              (match at_ parts 1 with
               | Some p => if p >? maxSecond then p else maxSecond
               | None => maxSecond
               end)
      | None => scanFormat rest maxFirst maxSecond
      end
  end.

(** [language] is [navigator.language]. *)
Definition detectDateFormat (language : jstring) (lines : list jstring) : DateFormat :=
  let '(isYMD, maxFirst, maxSecond) := scanFormat (firstn 50 lines) 0 0 in
  if isYMD then YMD
  else if maxFirst >? 12 then DMY
  else if maxSecond >? 12 then MDY
  else
    let userLocale := match language with [] => u "en-GB" | _ => language end in
    if startsWith (u "en-US") userLocale then MDY else DMY.

(* --------------------------------------------------------------------- *)
(** *** parseChatFile *)

(** The state of the loop over the lines: the array [messages] and
    [lastMessage], which is [null] or an alias of an element of the array,
    kept here as the index of that element. *)
Record ParserState := {
  parsed : list Message;
  lastMessage : option nat
}.

Fixpoint appendContent (i : nat) (line : jstring) (ms : list Message) : list Message :=
  match ms, i with
  | [], _ => []
  | m :: ms', O =>
      {| date := date m; sender := sender m;
         content := content m ++ 10%N :: line |} :: ms'
  | m :: ms', S i' => m :: appendContent i' line ms'
  end.

Definition parseLine (dateFormat : DateFormat) (st : ParserState) (line : jstring) : ParserState :=
  match match_ TIMESTAMP_PATTERN line with
  | Some m =>
      let dateStr := m1 m in
      let timeStr := m2 m in
      let remainder := skipn (length (m0 m)) line in
      match parseDate dateStr timeStr dateFormat with
      | Some d =>
          match indexOf (ch ":") remainder with
          | Some firstColonIndex =>
              let newMessage :=
                {| date := d;
                   sender := trim (firstn firstColonIndex remainder);
                   content := trim (skipn (firstColonIndex + 1) remainder) |} in
              {| parsed := parsed st ++ [newMessage];
                 lastMessage := Some (length (parsed st)) |}
          | None => {| parsed := parsed st; lastMessage := None |}
          end
      | None => st
      end
  | None =>
      match lastMessage st with
      | Some i => {| parsed := appendContent i line (parsed st); lastMessage := Some i |}
      | None => st
      end
  end.

(** The [onload] handler of [parseChatFile], as a function of the text read
    and of [navigator.language]. *)
Definition parseChatFile (language : jstring) (text : jstring) : ParseResult :=
  match text with
  | [] => {| messages := []; status := error; error_ := Some (u "File is empty") |}
  | _ =>
      let cleanText := replace_all isDirMark [] text in
      let lines := split_lines cleanText in
      let dateFormat := detectDateFormat language lines in
      let final := fold_left (parseLine dateFormat) lines {| parsed := []; lastMessage := None |} in
      {| messages := parsed final; status := success; error_ := None |}
  end.

(* ===================================================================== *)
(** ** The analytics engine *)

(** What is embedded of [analyzeMessages]: the classification of a message
    as media, system or text message and the longest message, burst
    detection, conversation starts and silences, the hour, weekday, day and
    minute tables, the per-day breakdown, and the finalization that derives
    the result from them. The word, emoji and phrase tables, the greetings
    and the length classes, which rest on the Unicode tables of the host,
    and the reply latencies, which are floating-point means, are left out:
    they write to fields of their own ([wordOccurrences],
    [mostRepeatedPhrase] and the lexical fields of a user) and nothing
    embedded here reads them. One of them also writes outside the call:
    [wordGlobalMap] is a plain object, so that for the word [constructor]
    line 353 assigns to a property of the global [Object]. *)

Definition jsmap (V : Type) : Type := list (jstring * V).

Fixpoint get {V : Type} (k : jstring) (m : jsmap V) : option V :=
  match m with
  | [] => None
  | (k', v) :: m' => if str_eqb k k' then Some v else get k m'
  end.

(** [m.set(k, v)]: an existing key keeps its place, a new key goes last. *)
Fixpoint set {V : Type} (k : jstring) (v : V) (m : jsmap V) : jsmap V :=
  match m with
  | [] => [(k, v)]
  | (k', v') :: m' => if str_eqb k k' then (k, v) :: m' else (k', v') :: set k v m'
  end.

Definition has {V : Type} (k : jstring) (m : jsmap V) : bool :=
  match get k m with Some _ => true | None => false end.

Definition keys {V : Type} (m : jsmap V) : list jstring := map fst m.
Definition values {V : Type} (m : jsmap V) : list V := map snd m.

(** [(m.get(k) || 0)] *)
Definition getOr0 (k : jstring) (m : jsmap Z) : Z :=
  match get k m with Some c => c | None => 0 end.

(** [m.set(k, (m.get(k) || 0) + 1)] *)
Definition incr (k : jstring) (m : jsmap Z) : jsmap Z := set k (getOr0 k m + 1) m.

(** [a[i]++] on an array of numbers, for an index inside the array (the
    hour of a date is in 0..23 and its weekday in 0..6). *)
Fixpoint incrAt (i : nat) (a : list Z) : list Z :=
  match a, i with
  | [], _ => []
  | x :: a', O => (x + 1) :: a'
  | x :: a', S i' => x :: incrAt i' a'
  end.

(** A stable sort: [le x y] says that [x] need not come after [y]. With a
    consistent comparator [Array.prototype.sort] is stable, so that its
    result is this one. *)
Fixpoint insert {A : Type} (le : A -> A -> bool) (x : A) (l : list A) : list A :=
  match l with
  | [] => [x]
  | y :: l' => if le x y then x :: l else y :: insert le x l'
  end.

Definition sort {A : Type} (le : A -> A -> bool) (l : list A) : list A :=
  fold_right (insert le) [] l.

(** The entry of [userMap] for one sender. *)
Record UStat := { count : Z; oneSidedCount : Z }.

(** [longestMsg], and the field [longestMessage] of the result. *)
Record LongestMessage := {
  longest_content : jstring;
  longest_sender : jstring;
  longest_date : Z;
  longest_wordCount : Z
}.

Definition MEDIA_PHRASES_BASE : list jstring :=
  [u "image omitted"; u "video omitted"; u "audio omitted"; u "sticker omitted";
   u "gif omitted"; u "media omitted"; u "contact card omitted"; u "document omitted";
   u "null"].

(** [/^<.+>$/] *)
Definition ANGLE_BRACKET_PATTERN : regex :=
  (Cls (isChar "<") ·· plus (Cls isAny) ·· Cls (isChar ">"))%re.

(** The tables and variables the loop over the messages updates.
    [maxSilenceTime] is kept in milliseconds; the source keeps the same
    gap divided by 3600000, which orders gaps the same way. *)
Record Acc := {
  userMap : jsmap UStat;
  hourlyCounts : list Z;
  dayOfWeekCounts : list Z;
  msgsPerMinute : jsmap Z;
  msgsPerHourSpecific : jsmap Z;
  dailyTotalCounts : jsmap Z;
  dailyBreakdown : jsmap (jsmap Z);
  startersMap : jsmap Z;
  lastMsgTime : Z;
  lastSender : jstring;
  dayCount : Z;
  nightCount : Z;
  maxSilenceTime : Z;
  currentBurst : Z;
  maxBurst : Z;
  burstCount : Z;
  longestMsg : LongestMessage
}.

Definition initialAcc : Acc :=
  {| userMap := [];
     hourlyCounts := repeat 0 24;
     dayOfWeekCounts := repeat 0 7;
     msgsPerMinute := [];
     msgsPerHourSpecific := [];
     dailyTotalCounts := [];
     dailyBreakdown := [];
     startersMap := [];
     lastMsgTime := 0;
     lastSender := [];
     dayCount := 0;
     nightCount := 0;
     maxSilenceTime := 0;
     currentBurst := 0;
     maxBurst := 0;
     burstCount := 0;
     longestMsg := {| longest_content := []; longest_sender := [];
                      longest_date := 0; longest_wordCount := 0 |} |}.

Definition dateKeyOf (t : Z) : jstring := hd [] (split (isChar "T") (toISOString t)).
Definition hourKeyOf (t : Z) : jstring := firstn 13 (toISOString t).
Definition minKeyOf (t : Z) : jstring := firstn 16 (toISOString t).

(** The block "Burst Detection"; the result is [currentBurst], [maxBurst]
    and [burstCount] after it. *)
Definition burstDetection (index : nat) (timeDiff : Z) (st : Acc) : Z * Z * Z :=
  if (0 <? index)%nat then
    if timeDiff <? 60000 then (currentBurst st + 1, maxBurst st, burstCount st)
    else if currentBurst st >? 5 then
      (1, (if currentBurst st >? maxBurst st then currentBurst st else maxBurst st),
       burstCount st + 1)
    else (1, maxBurst st, burstCount st)
  else (1, maxBurst st, burstCount st).

(** The block "Initiator / Silence Breaker Logic"; the result is
    [startersMap] and [maxSilenceTime] after it. *)
Definition silenceBreakerLogic (index : nat) (msg : Message) (st : Acc) : jsmap Z * Z :=
  let gap := date msg - lastMsgTime st in
  if (index =? 0)%nat || (gap >? 6 * 60 * 60 * 1000) then
    (incr (sender msg) (startersMap st),
     if (0 <? index)%nat then (if gap >? maxSilenceTime st then gap else maxSilenceTime st)
     else maxSilenceTime st)
  else (startersMap st, maxSilenceTime st).

(** [isMedia]: the text is wrapped in angle brackets or holds a media
    phrase. *)
Definition isMedia (msg : Message) : bool :=
  let contentTrimmed := trim (content msg) in
  let lowerContent := toLowerCaseText contentTrimmed in
  let isAngleBracketMedia := test_ ANGLE_BRACKET_PATTERN contentTrimmed in
  let isStandardMedia :=
    existsb (fun phrase => includes phrase lowerContent) MEDIA_PHRASES_BASE in
  isAngleBracketMedia || isStandardMedia.

Definition isSystemMsg (msg : Message) : bool :=
  let lowerContent := toLowerCaseText (trim (content msg)) in
  includes (u "this message was deleted") lowerContent
  || includes (u "you deleted this message") lowerContent
  || str_eqb lowerContent (u "this message was delete")
  || str_eqb lowerContent (u "this message")
  || includes (u "this message was edited") lowerContent
  || includes (u "was edited") lowerContent.

(** [tokens.length] of the block "Regular Text Analysis". *)
Definition wordCountOf (msg : Message) : Z :=
  let tokens :=
    filter (fun t => negb (isEmpty t)) (split_runs (trim (content msg)) [] false) in
  Z.of_nat (length tokens).

(** What the classification and the block "Longest Message" leave in
    [longestMsg]. *)
Definition longestMessageUpdate (msg : Message) (st : Acc) : LongestMessage :=
  if isMedia msg then longestMsg st
  else if isSystemMsg msg then longestMsg st
  else
    let wordCount := wordCountOf msg in
    if wordCount >? longest_wordCount (longestMsg st) then
      {| longest_content := content msg; longest_sender := sender msg;
         longest_date := date msg; longest_wordCount := wordCount |}
    else longestMsg st.

(** The body of [filteredMessages.forEach((msg, index) => ...)]. *)
Definition step (st : Acc) (index : nat) (msg : Message) : Acc :=
  (* Initialize User *)
  let userMap1 :=
    if has (sender msg) (userMap st) then userMap st
    else set (sender msg) {| count := 0; oneSidedCount := 0 |} (userMap st) in
  let msgTime := date msg in
  (* Basic Stats: uStat.count++ *)
  let userMap2 :=
    match get (sender msg) userMap1 with
    | Some uStat =>
        set (sender msg)
          {| count := count uStat + 1; oneSidedCount := oneSidedCount uStat |} userMap1
    | None => userMap1
    end in
  let burst := burstDetection index (msgTime - lastMsgTime st) st in
  let silence := silenceBreakerLogic index msg st in
  (* Time Stats *)
  let hour := getHours msgTime in
  let isDay := (hour >=? 6) && (hour <? 18) in
  let dateKey := dateKeyOf msgTime in
  let hourKey := hourKeyOf msgTime in
  let minKey := minKeyOf msgTime in
  let breakdown :=
    match get dateKey (dailyBreakdown st) with Some b => b | None => [] end in
  {| userMap := userMap2;
     hourlyCounts := incrAt (Z.to_nat hour) (hourlyCounts st);
     dayOfWeekCounts := incrAt (Z.to_nat (getDay msgTime)) (dayOfWeekCounts st);
     msgsPerMinute := incr minKey (msgsPerMinute st);
     msgsPerHourSpecific := incr hourKey (msgsPerHourSpecific st);
     dailyTotalCounts := incr dateKey (dailyTotalCounts st);
     dailyBreakdown := set dateKey (incr (sender msg) breakdown) (dailyBreakdown st);
     startersMap := fst silence;
     lastMsgTime := msgTime;
     lastSender := sender msg;
     dayCount := if isDay then dayCount st + 1 else dayCount st;
     nightCount := if isDay then nightCount st else nightCount st + 1;
     maxSilenceTime := snd silence;
     currentBurst := fst (fst burst);
     maxBurst := snd (fst burst);
     burstCount := snd burst;
     longestMsg := longestMessageUpdate msg st |}.

(** [forEach] with its index. *)
Fixpoint forEachFrom (index : nat) (msgs : list Message) (st : Acc) : Acc :=
  match msgs with
  | [] => st
  | msg :: rest => forEachFrom (S index) rest (step st index msg)
  end.

(* Calculate One-Sided Days *)

Definition bumpOneSided (user : jstring) (um : jsmap UStat) : jsmap UStat :=
  match get user um with
  | Some s => set user {| count := count s; oneSidedCount := oneSidedCount s + 1 |} um
  | None => um
  end.

Definition sum (l : list Z) : Z := fold_left Z.add l 0.

(** One day of [dailyBreakdown]. [count / totalDay > 0.75] is the exact
    comparison [4 * count > 3 * totalDay] here; the two agree for the counts
    of an array, which are below 2^32. *)
Definition oneSidedDay (um : jsmap UStat) (day : jstring * jsmap Z) : jsmap UStat :=
  let userCounts := snd day in
  let totalDay := sum (values userCounts) in
  if totalDay >? 10 then
    fold_left
      (fun um' (e : jstring * Z) =>
         if 4 * snd e >? 3 * totalDay then bumpOneSided (fst e) um' else um')
      userCounts um
  else um.

Definition oneSidedDays (db : jsmap (jsmap Z)) (um : jsmap UStat) : jsmap UStat :=
  fold_left oneSidedDay db um.

(* Calculate Maxima *)

(** [m.forEach((c, k) => { if (c > max) { max = c; arg = k; } })] *)
Definition argMax {K : Type} (entries : list (K * Z)) (init : K * Z) : K * Z :=
  fold_left (fun best e => if snd e >? snd best then e else best) entries init.

Definition maxOf (m : jsmap Z) : Z := snd (argMax m ([], 0)).

Fixpoint indexed {A : Type} (i : Z) (l : list A) : list (Z * A) :=
  match l with
  | [] => []
  | x :: l' => (i, x) :: indexed (i + 1) l'
  end.

(* Finalize Users *)

Record UserStat := {
  name : jstring;
  messageCount : Z;
  color : jstring;
  oneSidedConversationsCount : Z
}.

Definition COLORS : list jstring :=
  [u "#8b5cf6"; u "#ec4899"; u "#06b6d4"; u "#f59e0b"; u "#10b981"; u "#f43f5e";
   u "#3b82f6"; u "#a855f7"; u "#eab308"; u "#14b8a6"; u "#6366f1"; u "#ef4444"].

Definition countOf (um : jsmap UStat) (k : jstring) : Z :=
  match get k um with Some s => count s | None => 0 end.

(** [Array.from(userMap.keys()).sort((a, b) => count(b) - count(a))] *)
Definition sortedUserNames (um : jsmap UStat) : list jstring :=
  sort (fun a b => countOf um b - countOf um a <=? 0) (keys um).

Definition finalizeUser (um : jsmap UStat) (e : Z * jstring) : UserStat :=
  let stats := match get (snd e) um with
               | Some s => s
               | None => {| count := 0; oneSidedCount := 0 |}
               end in
  {| name := snd e;
     messageCount := count stats;
     color := nth (Z.to_nat (fst e mod 12)) COLORS [];
     oneSidedConversationsCount := oneSidedCount stats |}.

Definition finalizeUsers (um : jsmap UStat) : list UserStat :=
  map (finalizeUser um) (indexed 0 (sortedUserNames um)).

(* Streak *)

(** [Math.ceil(Math.abs(new Date(dateStr) - new Date(prevDateStr)) / 86400000)];
    both dates are UTC midnights, the quotient is exact. *)
Definition dayDiff (dateStr prevDateStr : jstring) : option Z :=
  match parseISODate dateStr, parseISODate prevDateStr with
  | Some a, Some b => Some (- ((- Z.abs (a - b)) / msPerDay))
  | _, _ => None
  end.

Record Streak := { currentStreak : Z; maxStreak : Z; prevDateStr : jstring }.

Definition streakStep (s : Streak) (dateStr : jstring) : Streak :=
  let currentStreak' :=
    match prevDateStr s with
    | [] => 1
    | _ =>
        match dayDiff dateStr (prevDateStr s) with
        | Some diff => if diff <=? 1 then currentStreak s + 1 else 1
        | None => 1
        end
    end in
  {| currentStreak := currentStreak';
     maxStreak := if currentStreak' >? maxStreak s then currentStreak' else maxStreak s;
     prevDateStr := dateStr |}.

Definition streakOf (dailyTotals : jsmap Z) : Z :=
  maxStreak (fold_left streakStep (sort str_leb (keys dailyTotals))
               {| currentStreak := 0; maxStreak := 0; prevDateStr := [] |}).

(** [new Set(l)], in insertion order. *)
Fixpoint dedupInto (seen : list Z) (l : list Z) : list Z :=
  match l with
  | [] => seen
  | x :: l' => dedupInto (if existsb (Z.eqb x) seen then seen else seen ++ [x]) l'
  end.

(* The result. A field whose name is taken elsewhere carries the name of
   its record in front: [burst_count] is [burstStats.count]. Three fields
   of the source are not embedded: [timeline], which is the empty array in
   every result, and [wordOccurrences] and [mostRepeatedPhrase], which are
   the empty object and [null] in the result for an empty list. *)

Record DateRange := { start : Z; end_ : Z }.
Record MostActiveDate := { mostActive_date : jstring; mostActive_count : Z }.
Record HourlyActivity := { hour : Z; hour_count : Z }.
Record RapidFire := { maxInMinute : Z; maxInHour : Z; maxInDay : Z }.
Record DayNightSplit := { day : Z; night : Z }.
Record BurstStats := { burst_count : Z; burst_maxBurst : Z }.
Record SilenceBreaker := { breaker_name : jstring; maxSilenceHours : Z }.

Record AnalysisResult := {
  totalMessages : Z;
  result_messages : list Message;
  dateRange : DateRange;
  users : list UserStat;
  activeUsersCount : Z;
  longestStreak : Z;
  mostActiveDate : MostActiveDate;
  busiestHour : Z;
  topStarter : jstring;
  hourlyHeatmap : list HourlyActivity;
  yearOptions : list Z;
  rapidFire : RapidFire;
  dayNightSplit : DayNightSplit;
  dayOfWeekStats : list Z;
  longestMessage : LongestMessage;
  burstStats : BurstStats;
  silenceBreaker : SilenceBreaker;
  silenceBreakCounts : jsmap Z
}.

(** [yearFilter ? messages.filter(...) : messages]; an absent filter and
    the filter 0 are both falsy. *)
Definition filterMessages (messages : list Message) (yearFilter : option Z) : list Message :=
  match yearFilter with
  | Some y =>
      if y =? 0 then messages
      else filter (fun m => getFullYear (date m) =? y) messages
  | None => messages
  end.

(** [Math.round(ms / 3600000)] *)
Definition roundHours (ms : Z) : Z := (2 * ms + msPerHour) / (2 * msPerHour).

(** [analyzeMessages(messages, yearFilter)]. [clock k] is the time the
    [k]-th [new Date()] of the call reads. *)
Definition analyzeMessages (clock : nat -> Z) (messages : list Message) (yearFilter : option Z)
  : AnalysisResult :=
  let filteredMessages := filterMessages messages yearFilter in
  match filteredMessages with
  | [] =>
      {| totalMessages := 0;
         result_messages := [];
         dateRange := {| start := clock 0%nat; end_ := clock 1%nat |};
         users := [];
         activeUsersCount := 0;
         longestStreak := 0;
         mostActiveDate := {| mostActive_date := []; mostActive_count := 0 |};
         busiestHour := 0;
         topStarter := [];
         hourlyHeatmap := [];
         yearOptions := [];
         rapidFire := {| maxInMinute := 0; maxInHour := 0; maxInDay := 0 |};
         dayNightSplit := {| day := 0; night := 0 |};
         dayOfWeekStats := [0; 0; 0; 0; 0; 0; 0];
         longestMessage := {| longest_content := []; longest_sender := [];
                              longest_date := clock 2%nat; longest_wordCount := 0 |};
         burstStats := {| burst_count := 0; burst_maxBurst := 0 |};
         silenceBreaker := {| breaker_name := []; maxSilenceHours := 0 |};
         silenceBreakCounts := [] |}
  | first :: _ =>
      let st := forEachFrom 0 filteredMessages initialAcc in
      let userMap' := oneSidedDays (dailyBreakdown st) (userMap st) in
      let active := argMax (dailyTotalCounts st) ([], 0) in
      let busiest := argMax (indexed 0 (hourlyCounts st)) (0, 0) in
      let users' := finalizeUsers userMap' in
      let topStarter0 :=
        match users' with
        | us :: _ => match name us with [] => u "-" | n => n end
        | [] => u "-"
        end in
      let topStarter' := fst (argMax (startersMap st) (topStarter0, -1)) in
      let years := dedupInto [] (map (fun m => getFullYear (date m)) messages) in
      {| totalMessages := Z.of_nat (length filteredMessages);
         result_messages := filteredMessages;
         dateRange := {| start := date first; end_ := date (last filteredMessages first) |};
         users := users';
         activeUsersCount := Z.of_nat (length users');
         longestStreak := streakOf (dailyTotalCounts st);
         mostActiveDate := {| mostActive_date := fst active; mostActive_count := snd active |};
         busiestHour := fst busiest;
         topStarter := topStarter';
         hourlyHeatmap :=
           map (fun e => {| hour := fst e; hour_count := snd e |}) (indexed 0 (hourlyCounts st));
         yearOptions :=
           rev (sort (fun a b => str_leb (toString a) (toString b)) years);
         rapidFire := {| maxInMinute := maxOf (msgsPerMinute st);
                         maxInHour := maxOf (msgsPerHourSpecific st);
                         maxInDay := snd active |};
         dayNightSplit := {| day := dayCount st; night := nightCount st |};
         dayOfWeekStats := dayOfWeekCounts st;
         longestMessage := longestMsg st;
         burstStats := {| burst_count := burstCount st; burst_maxBurst := maxBurst st |};
         silenceBreaker := {| breaker_name := topStarter';
                              maxSilenceHours := roundHours (maxSilenceTime st) |};
         silenceBreakCounts := startersMap st |}
  end.

End HostEnvironment.

(* ===================================================================== *)
(** ** Notions the properties are phrased in *)
(* ===================================================================== *)

Definition nl : jstring := [10%N].

Definition jstring_eq_dec : forall a b : jstring, {a = b} + {a <> b} :=
  list_eq_dec N.eq_dec.

(** A message with the given time, sender and text. *)
Definition msg (t : Z) (who what : jstring) : Message :=
  {| date := t; sender := who; content := what |}.

(** *** Bursts *)

(** What burst detection reads and writes. *)
Definition burstView (st : Acc) : Z * Z * Z * Z :=
  (lastMsgTime st, currentBurst st, maxBurst st, burstCount st).

(** Messages ten seconds apart from alternating senders [a] and [b], with
    the given texts; the first is sent at [t0] by [a]. *)
Fixpoint alternating (t0 : Z) (a b : jstring) (texts : list jstring) : list Message :=
  match texts with
  | [] => []
  | c :: texts' => msg t0 a c :: alternating (t0 + 10000) b a texts'
  end.

(** *** Calendar days *)

(** The calendar-day keys with at least one message, each once; the key
    of a message is the date part of its [toISOString], its UTC day. *)
Definition activeDays (msgs : list Message) : list jstring :=
  nodup jstring_eq_dec (map (fun m => dateKeyOf (date m)) msgs).

(** The number of messages of the day [d], and of them those of [who]. *)
Definition dayTotal (msgs : list Message) (d : jstring) : Z :=
  Z.of_nat (length (filter (fun m => str_eqb (dateKeyOf (date m)) d) msgs)).

Definition dayShare (msgs : list Message) (d who : jstring) : Z :=
  Z.of_nat (length (filter (fun m => str_eqb (dateKeyOf (date m)) d && str_eqb (sender m) who) msgs)).

(** The day [d] has more than 10 messages and [who] sent more than 75% of
    them. *)
Definition oneSidedOn (msgs : list Message) (who d : jstring) : bool :=
  (dayTotal msgs d >? 10) && (4 * dayShare msgs d who >? 3 * dayTotal msgs d).

Definition oneSidedDayCount (msgs : list Message) (who : jstring) : Z :=
  Z.of_nat (length (filter (oneSidedOn msgs who) (activeDays msgs))).

(** The one-sided counter of [who] in [userMap], 0 without an entry. *)
Definition oneSidedOf (um : jsmap UStat) (who : jstring) : Z :=
  match get who um with Some s => oneSidedCount s | None => 0 end.

(** The entries of one day's breakdown that are [who]'s and exceed three
    quarters of [total]. *)
Definition dominantEntries (who : jstring) (total : Z) (userCounts : jsmap Z) : Z :=
  Z.of_nat (length (filter (fun e => str_eqb (fst e) who && (4 * snd e >? 3 * total)) userCounts)).

(** What one day of the breakdown adds to [who]'s one-sided counter. *)
Definition dayBump (who : jstring) (day : jstring * jsmap Z) : Z :=
  let total := sum (values (snd day)) in
  if total >? 10 then dominantEntries who total (snd day) else 0.

(** A day with 11 messages a minute apart, 9 of them from Alice and 2
    from Bob. *)
Definition elevenMessages : list Message :=
  map (fun e => msg (1683882000000 + 60000 * fst e) (snd e) (u "hi"))
    (indexed 0 [u "Alice"; u "Alice"; u "Alice"; u "Bob"; u "Alice"; u "Alice";
                u "Alice"; u "Bob"; u "Alice"; u "Alice"; u "Alice"]).

(** Eleven lines of 13 May 2023, a minute apart from 5:25 to 5:35, 9 of
    them from Alice and 2 from Bob. *)
Definition earlyMorningChat : jstring :=
  u "13/05/23, 5:25 - Alice: a" ++ nl ++ u "13/05/23, 5:26 - Alice: b" ++ nl ++
  u "13/05/23, 5:27 - Alice: c" ++ nl ++ u "13/05/23, 5:28 - Bob: d" ++ nl ++
  u "13/05/23, 5:29 - Alice: e" ++ nl ++ u "13/05/23, 5:30 - Alice: f" ++ nl ++
  u "13/05/23, 5:31 - Alice: g" ++ nl ++ u "13/05/23, 5:32 - Bob: h" ++ nl ++
  u "13/05/23, 5:33 - Alice: i" ++ nl ++ u "13/05/23, 5:34 - Alice: j" ++ nl ++
  u "13/05/23, 5:35 - Alice: k".

(** *** Conversation starts *)

(** The messages of [who] that follow the previous message by more than
    six hours; [prev] is the time of the message before the list. *)
Fixpoint afterGapFrom (prev : Z) (msgs : list Message) (who : jstring) : Z :=
  match msgs with
  | [] => 0
  | m :: rest =>
      (if (date m - prev >? 21600000) && str_eqb (sender m) who then 1 else 0)
      + afterGapFrom (date m) rest who
  end.

Definition afterGapCount (msgs : list Message) (who : jstring) : Z :=
  match msgs with
  | [] => 0
  | m :: rest => afterGapFrom (date m) rest who
  end.

(** The conversation starts of [who]: the first message overall, and the
    messages after a gap of more than six hours. *)
Definition startCount (msgs : list Message) (who : jstring) : Z :=
  match msgs with
  | [] => 0
  | m :: rest => (if str_eqb (sender m) who then 1 else 0) + afterGapFrom (date m) rest who
  end.

(** *** Calendar validity *)

Definition isLeapYear (y : Z) : bool :=
  ((y mod 4 =? 0) && negb (y mod 100 =? 0)) || (y mod 400 =? 0).

Definition daysInMonth (y m : Z) : Z :=
  if m =? 2 then (if isLeapYear y then 29 else 28)
  else if (m =? 4) || (m =? 6) || (m =? 9) || (m =? 11) then 30 else 31.

(** [day]/[month]/[year] is a date of the calendar. *)
Definition validCalendarDate (day month year : Z) : bool :=
  (1 <=? month) && (month <=? 12) && (1 <=? day) && (day <=? daysInMonth year month).

(** *** Timestamped lines *)

(** The first numeric component of the date a line starts with. *)
Definition firstComponent (m : MatchResult) : option Z :=
  at_ (map Number_ (split isDateSep (m1 m))) 0.

(** The parts of a line that starts with a timestamp. *)
Record Stamp := {
  bracket : bool;       (* the line opens with [[] *)
  d1 : jstring; s1 : char; d2 : jstring; s2 : char; d3 : jstring;
  comma : jstring;      (* nothing, [,] or [.] after the date *)
  gap : jstring;        (* the white space between date and time *)
  hh : jstring; t1 : char; mm : jstring;
  seconds : jstring;    (* nothing, or a separator and two digits *)
  meridiem : jstring;   (* nothing, or one or two letters after at most one space *)
  dialect : jstring     (* [] ] followed by a space, or [ - ] *)
}.

Definition dateToken (st : Stamp) : jstring :=
  d1 st ++ s1 st :: d2 st ++ s2 st :: d3 st.

Definition timeToken (st : Stamp) : jstring :=
  hh st ++ t1 st :: mm st ++ seconds st ++ meridiem st.

Definition lineOf (st : Stamp) (rest : jstring) : jstring :=
  (if bracket st then u "[" else []) ++ dateToken st ++ comma st ++ gap st
  ++ timeToken st ++ dialect st ++ rest.

Definition digitsb (lo hi : nat) (s : jstring) : bool :=
  forallb isDigit s && (lo <=? length s)%nat && (length s <=? hi)%nat.

Definition lettersb (s : jstring) : bool :=
  forallb isAlpha s && (1 <=? length s)%nat && (length s <=? 2)%nat.

(** Everything about a stamp but the number of digits of its date. *)
Definition stampShape (st : Stamp) : bool :=
  isDateSep (s1 st) && isDateSep (s2 st)
  && match comma st with [] => true | [c] => isCommaDot c | _ => false end
  && forallb isSpace (gap st) && (1 <=? length (gap st))%nat
  && digitsb 1 2 (hh st) && isColonDot (t1 st) && digitsb 2 2 (mm st)
  && match seconds st with
     | [] => true
     | [c; a; b] => isColonDot c && isDigit a && isDigit b
     | _ => false
     end
  && match meridiem st with
     | [] => true
     | w :: l => if isSpace w then lettersb l else lettersb (w :: l)
     end
  && (str_eqb (dialect st) (u "] ") || str_eqb (dialect st) (u " - ")).

(** A stamp as the specification words it: three date components of one
    to four digits each. *)
Definition specStamp (st : Stamp) : bool :=
  digitsb 1 4 (d1 st) && digitsb 1 4 (d2 st) && digitsb 1 4 (d3 st) && stampShape st.

(** A stamp as the pattern has it: one to four, one or two, and two to four
    digits. *)
Definition patternStamp (st : Stamp) : bool :=
  digitsb 1 4 (d1 st) && digitsb 1 2 (d2 st) && digitsb 2 4 (d3 st) && stampShape st.

(** The stamp of [12/05/23, 9:00 - ] with the month written [m]. *)
Definition androidStamp (m : jstring) : Stamp :=
  {| bracket := false;
     d1 := u "12"; s1 := ch "/"; d2 := m; s2 := ch "/"; d3 := u "23";
     comma := u ","; gap := u " ";
     hh := u "9"; t1 := ch ":"; mm := u "00";
     seconds := []; meridiem := [];
     dialect := u " - " |}.

(** [s] does not start with a code unit of the class [p]. *)
Definition headNot (p : char -> bool) (s : jstring) : Prop :=
  match s with
  | [] => True
  | x :: _ => p x = false
  end.

(** [r], tried on [tok ++ rest], takes exactly [tok] in its first
    alternative that lets the rest of the pattern succeed, and leaves the
    captures [f c]: whenever what follows [r] succeeds on [rest], the whole
    succeeds with the same result. *)
Definition eats (r : regex) (tok rest : jstring) (f : captures -> captures) : Prop :=
  forall (c : captures) (k : cont) (res : jstring * captures),
    k rest (f c) = Some res -> run r (tok ++ rest) c k = Some res.

(** The two-line chat of the specification's scenario. *)
Definition twoLineChat : jstring :=
  u "12/05/23, 9:00 - Alice: hello" ++ nl ++ u "12/05/23, 9:01 - Bob: hi there".

(** What the scenario expects of the parsed messages and of their
    analysis. *)
Definition twoLineOutcome (parsedMessages : list Message) (r : AnalysisResult) : Prop :=
  length parsedMessages = 2%nat
  /\ map (fun x => (name x, messageCount x)) (users r) = [(u "Alice", 1); (u "Bob", 1)]
  /\ busiestHour r = 9
  /\ longestStreak r = 1
  /\ maxSilenceHours (silenceBreaker r) = 0.

(** Host time zones: whole quarter hours between UTC-14:00 and UTC+14:00. *)
Definition quarterHourZones : list Z :=
  map (fun k => 15 * (Z.of_nat k - 56)) (seq 0 113).

(** The chats the examples below are run on. *)

(** Alice opens the chat; Bob writes seven hours later. *)
Definition sevenHoursLater : list Message :=
  [msg 1683882000000 (u "Alice") (u "hello");
   msg 1683907200000 (u "Bob") (u "anyone there")].

(** Two messages on two consecutive days. *)
Definition twoDays : list Message :=
  [msg 1683882000000 (u "Alice") (u "hello"); msg 1683968400000 (u "Bob") (u "hi")].

(** The messages of the two-line chat on a host at UTC. *)
Definition twoMessages : list Message :=
  [msg 1683882000000 (u "Alice") (u "hello"); msg 1683882060000 (u "Bob") (u "hi there")].

(** A line whose meridiem is glued to the minutes. *)
Definition gluedMeridiemLine : jstring := u "12/05/23, 9:01pm - Bob: hi there".

Definition emptyParserState : ParserState := {| parsed := []; lastMessage := None |}.

(** Closes an equation between tuples of integers componentwise. *)
Ltac tuple_eq :=
  repeat match goal with |- (_, _) = (_, _) => apply f_equal2 end;
  try reflexivity; try lia.

(* ===================================================================== *)
(** ** Further notions *)
(* ===================================================================== *)

(** *** Counting messages *)

(** The number of messages that satisfy [f]. *)
Definition countWhere (f : Message -> bool) (msgs : list Message) : Z :=
  Z.of_nat (length (filter f msgs)).

(** The number of messages of the sender [who]. *)
Definition sentBy (msgs : list Message) (who : jstring) : Z :=
  countWhere (fun m => str_eqb (sender m) who) msgs.

(** The strings of [l], each once, in the order of their first
    occurrence. *)
Fixpoint firstSeenInto (seen l : list jstring) : list jstring :=
  match l with
  | [] => seen
  | x :: l' => firstSeenInto (if existsb (str_eqb x) seen then seen else seen ++ [x]) l'
  end.

Definition firstSeen (l : list jstring) : list jstring := firstSeenInto [] l.

Definition senders (msgs : list Message) : list jstring := map sender msgs.

(** *** Gaps and runs *)

(** The time from each message to the next; [prev] is the time of the
    message before the list. *)
Fixpoint gapsFrom (prev : Z) (msgs : list Message) : list Z :=
  match msgs with
  | [] => []
  | m :: rest => (date m - prev) :: gapsFrom (date m) rest
  end.

Definition gapsOf (msgs : list Message) : list Z :=
  match msgs with
  | [] => []
  | m :: rest => gapsFrom (date m) rest
  end.

Definition maxOfList (l : list Z) : Z := fold_left Z.max l 0.

(** The longest gap of more than six hours, in milliseconds; 0 without
    one. *)
Definition longestSilence (msgs : list Message) : Z :=
  maxOfList (filter (fun g => g >? 21600000) (gapsOf msgs)).

(** The lengths of the runs of messages that follow each other within a
    minute, in order; the last is the run still open at the end. [len] is
    the length of the run the message before the list belongs to. *)
Fixpoint runsFrom (prev len : Z) (msgs : list Message) : list Z :=
  match msgs with
  | [] => [len]
  | m :: rest =>
      if date m - prev <? 60000 then runsFrom (date m) (len + 1) rest
      else len :: runsFrom (date m) 1 rest
  end.

Definition runsOf (msgs : list Message) : list Z :=
  match msgs with
  | [] => []
  | m :: rest => runsFrom (date m) 1 rest
  end.

(** The runs of more than five messages that a later message closed. *)
Definition closedBursts (msgs : list Message) : list Z :=
  filter (fun n => n >? 5) (removelast (runsOf msgs)).


(** *** Keyed tables *)

(** The number of messages whose time has the key [k]. *)
Definition keyTotal (key : Z -> jstring) (msgs : list Message) (k : jstring) : Z :=
  countWhere (fun m => str_eqb (key (date m)) k) msgs.

(** The date part of [toISOString]. *)
Definition isoDate (t : Z) : jstring :=
  let '(y, m, d) := civil_from_days (t / msPerDay) in
  (if (0 <=? y) && (y <=? 9999) then pad 4 y
   else (if y <? 0 then ch "-" else ch "+") :: pad 6 (Z.abs y))
  ++ u "-" ++ pad 2 m ++ u "-" ++ pad 2 d.


(** *** Years *)

(** The calendar years (local time) of the messages. *)
Definition yearsOf (tz : Z) (msgs : list Message) : list Z :=
  map (fun m => getFullYear tz (date m)) msgs.

(** The order the default [sort] puts numbers in: by their decimal
    strings. *)
Definition yearLeb (a b : Z) : bool := str_leb (toString a) (toString b).


(** *** The loop of the parser *)

(** The state of the parser after the lines [lines]. *)
Definition parseLines (tz : Z) (dateFormat : DateFormat) (lines : list jstring) : ParserState :=
  fold_left (parseLine tz dateFormat) lines emptyParserState.



(** [m] with one more line of text. *)
Definition withLine (m : Message) (line : jstring) : Message :=
  {| date := date m; sender := sender m; content := content m ++ 10%N :: line |}.

(** [lastMessage] is [null] or the last element of [messages]. *)
Definition aliasesLast (st : ParserState) : Prop :=
  match lastMessage st with
  | None => True
  | Some i => length (parsed st) = S i
  end.

Definition noDirMark (s : jstring) : Prop := Forall (fun c => isDirMark c = false) s.

(** Neither end of [s] is white space. *)
Definition trimmed (s : jstring) : Prop := headNot isSpace s /\ headNot isSpace (rev s).


(** *** The dates the format detection reads *)

(** The first and the second numeric component of the date of every line
    that starts with a timestamp. *)
Definition dateComponents (lines : list jstring) : list (option Z * option Z) :=
  flat_map (fun line =>
              match match_ TIMESTAMP_PATTERN line with
              | Some m =>
                  let parts := map Number_ (split isDateSep (m1 m)) in
                  [(at_ parts 0, at_ parts 1)]
              | None => []
              end) lines.

(** The order of the date read off a set of components: a first component
    above 1000 is a year; otherwise a first component above 12 is a day;
    otherwise a second component above 12 is a day; otherwise the locale
    decides. *)
Definition formatOfComponents (language : jstring) (comps : list (option Z * option Z))
  : DateFormat :=
  if existsb (fun c => gtb_ (fst c) 1000) comps then YMD
  else if existsb (fun c => gtb_ (fst c) 12) comps then DMY
  else if existsb (fun c => gtb_ (snd c) 12) comps then MDY
  else if startsWith (u "en-US") (match language with [] => u "en-GB" | _ => language end)
       then MDY else DMY.


(** *** The calendar *)

(** The integers [lo], [lo + 1], ..., of which there are [n]. *)
Fixpoint zrangeFrom (lo : Z) (n : nat) : list Z :=
  match n with
  | O => []
  | S n' => lo :: zrangeFrom (lo + 1) n'
  end.

Definition zrange (lo n : Z) : list Z := zrangeFrom lo (Z.to_nat n).

(** The parts of [days_from_civil] and [civil_from_days] that work inside
    an era of 400 years, whose years start in March: the first day of the
    year [yoe] of the era and the day of the year of a date; the year of a
    day of the era and the month and day of a day of the year. *)
Definition yearStart (yoe : Z) : Z := yoe * 365 + yoe / 4 - yoe / 100.

Definition dayOfYear (m d : Z) : Z :=
  (153 * (if m >? 2 then m - 3 else m + 9) + 2) / 5 + d - 1.

Definition yearOfEra (doe : Z) : Z :=
  (doe - doe / 1460 + doe / 36524 - doe / 146096) / 365.

Definition monthDay (doy : Z) : Z * Z :=
  let mp := (5 * doy + 2) / 153 in
  (if mp <? 10 then mp + 3 else mp - 9, doy - (153 * mp + 2) / 5 + 1).

(** The number of days of the year [yoe] of an era, which ends with the
    February of the calendar year after it. *)
Definition yearLength (yoe : Z) : Z := if isLeapYear (yoe + 1) then 366 else 365.


(** *** Dates and times as they are written *)

(** The number a non-empty string of decimal digits denotes. *)
Definition numeral (s : jstring) : option Z :=
  match s with
  | [] => None
  | _ => digitsValue s 0
  end.

(** A year below 100 is a year of this century. *)
Definition fullYear (y : Z) : Z := if y <? 100 then y + 2000 else y.

(** The hour of the day of the hour [h] before ([pm] false) or after noon. *)
Definition hourOfDay (pm : bool) (h : Z) : Z :=
  if pm then (if h <? 12 then h + 12 else h) else (if h =? 12 then 0 else h).

(** The numbers [parseDate] reads off its date string (year, month and
    day) and off its time string (hours and minutes). *)
Definition dateFields (dateStr : jstring) (dateFormat : DateFormat)
  : option Z * option Z * option Z :=
  let parts := map Number_ (split (isChar "/")
                 (replace_all (fun c => isChar "-" c || isChar "." c) (u "/") dateStr)) in
  let '(day, month, year) :=
    match dateFormat with
    | YMD => (at_ parts 2, at_ parts 1, at_ parts 0)
    | MDY => (at_ parts 1, at_ parts 0, at_ parts 2)
    | DMY => (at_ parts 0, at_ parts 1, at_ parts 2)
    end in
  (if ltb_ year 100 then option_map (fun y => y + 2000) year else year, month, day).

Definition timeFields (timeStr : jstring) : option Z * option Z :=
  let timeParts := split isColonSpace (replace_first (ch ".") (u ":") timeStr) in
  let num (i : nat) := match nth_error timeParts i with Some p => Number_ p | None => None end in
  let hours := num 0%nat in
  let minutes := num 1%nat in
  let lowerTime := toLowerCase timeStr in
  let isPM := includes (u "pm") lowerTime || includes (u "p.m") lowerTime in
  let isAM := includes (u "am") lowerTime || includes (u "a.m") lowerTime in
  let hours := if isPM && ltb_ hours 12 then option_map (fun h => h + 12) hours else hours in
  let hours := if isAM && eqb_ hours 12 then Some 0 else hours in
  (hours, minutes).


(** *** Days *)

(** The number of the UTC day of a time value, and the key of a day: the
    date part of the ISO string of its times. *)
Definition dayNumber (t : Z) : Z := t / msPerDay.

Definition dayKey (z : Z) : jstring := isoDate (z * msPerDay).

(** A date as one number, [y * 10000 + m * 100 + d]. *)
Definition dateCode (date : Z * Z * Z) : Z :=
  let '(y, m, d) := date in y * 10000 + m * 100 + d.

(** The days of the years 0 to 9999, whose keys have the form
    [YYYY-MM-DD]. *)
Definition fourDigitDay (z : Z) : Prop := -719528 <= z <= 2932896.


(** *** Runs of days *)

(** The days [D], [D + 1], ..., of which there are [n], are all in [l]. *)
Definition runIn (l : list Z) (D n : Z) : Prop := forall k, 0 <= k < n -> In (D + k) l.

(** Every element of a front part of [l] is below every element of the
    rest. *)
Definition increasing (l : list Z) : Prop :=
  forall l1 l2, l = l1 ++ l2 -> forall a b, In a l1 -> In b l2 -> a < b.

(** What the streak loop knows after the days [done], the last of which
    is [p]: the current streak is the run of days that ends with [p], and
    the longest streak the longest run among [done]. *)
Definition streakInv (done : list Z) (s : Streak) : Prop :=
  exists p,
    In p done /\ (forall x, In x done -> x <= p)
    /\ prevDateStr s = dayKey p
    /\ 1 <= currentStreak s <= maxStreak s
    /\ runIn done (p - currentStreak s + 1) (currentStreak s)
    /\ ~ In (p - currentStreak s) done
    /\ (exists D, runIn done D (maxStreak s))
    /\ (forall D, ~ runIn done D (maxStreak s + 1)).


(* ===================================================================== *)
(** ** The application: [App.tsx] and [ActivityChart.tsx] *)
(* ===================================================================== *)

Inductive ViewState := viewUpload | viewStory | viewCompare.

(** The state of [App] the analytics depend on; [selectedYear] [null] is
    [None]. *)
Record AppState := {
  app_messages : list Message;
  selectedYear : option Z;
  viewState : ViewState
}.

(** What [handleFileUpload] does to the state once [parseChatFile] has
    returned [result]; the view was set to ['upload'] when the upload
    began. *)
Definition handleParseResult (tz : Z) (st : AppState) (result : ParseResult) : AppState :=
  match status result with
  | success =>
      {| app_messages := messages result;
         selectedYear :=
           match messages result with
           | [] => selectedYear st
           | first :: _ => Some (getFullYear tz (date (last (messages result) first)))
           end;
         viewState := viewStory |}
  | error =>
      {| app_messages := app_messages st;
         selectedYear := selectedYear st;
         viewState := viewUpload |}
  end.

(** [selectedYear || undefined] *)
Definition orUndefined (y : option Z) : option Z :=
  match y with
  | Some v => if v =? 0 then None else Some v
  | None => None
  end.

Definition analyticsData (tz : Z) (clock : nat -> Z) (st : AppState) : AnalysisResult :=
  analyzeMessages tz clock (app_messages st) (orUndefined (selectedYear st)).

Definition canCompare (tz : Z) (st : AppState) : bool :=
  (1 <? length (dedupInto [] (map (fun m => getFullYear tz (date m)) (app_messages st))))%nat
  && match selectedYear st with Some _ => true | None => false end.

(** [data.filter((_, i) => i % step === 0)], from the index [i] on. *)
Fixpoint everyNth {A : Type} (step i : Z) (data : list A) : list A :=
  match data with
  | [] => []
  | x :: rest =>
      if i mod step =? 0 then x :: everyNth step (i + 1) rest
      else everyNth step (i + 1) rest
  end.

(** [chartData] of [ActivityChart]; [Math.ceil(data.length / 200)] is
    [(n + 199) / 200]. *)
Definition chartData {A : Type} (data : list A) : list A :=
  let n := Z.of_nat (length data) in
  if n >? 200 then everyNth ((n + 199) / 200) 0 data else data.


(** *** What follows a timestamp *)

(** What the pattern leaves of a line with the stamp [st]: the rest of the
    line, after the space that ends the dialect [] ]. *)
Definition afterStamp (st : Stamp) (rest : jstring) : jstring :=
  if str_eqb (dialect st) (u "] ") then ch " " :: rest else rest.


(** *** Minutes and hours *)

(** The number of the UTC minute and of the UTC hour of a time value. *)
Definition minuteNumber (t : Z) : Z := t / msPerMinute.
Definition hourNumber (t : Z) : Z := t / msPerHour.

(** The number of messages whose time lies in the unit of time number [k]. *)
Definition unitTotal (unit : Z -> Z) (msgs : list Message) (k : Z) : Z :=
  countWhere (fun m => unit (date m) =? k) msgs.


(** *** Text messages *)

(** A text message is neither a media nor a system message; its words are
    counted, the other messages count for 0 words. *)
Definition isText (m : Message) : bool := negb (isMedia m) && negb (isSystemMsg m).

Definition textWords (m : Message) : Z := if isText m then wordCountOf m else 0.

(** The record [longestMsg] holds for the message [m], and the one it holds
    before any text message. *)
Definition asLongest (m : Message) : LongestMessage :=
  {| longest_content := content m; longest_sender := sender m;
     longest_date := date m; longest_wordCount := wordCountOf m |}.

Definition noLongest : LongestMessage :=
  {| longest_content := []; longest_sender := []; longest_date := 0; longest_wordCount := 0 |}.

(** [lm] is the record of the longest message of [msgs]: no message has
    more words, and either no message has a word and [lm] is the initial
    record, or [lm] is the record of the first text message with as many
    words as any. *)
Definition longestOf (msgs : list Message) (lm : LongestMessage) : Prop :=
  (forall m, In m msgs -> textWords m <= longest_wordCount lm)
  /\ ((lm = noLongest /\ forall m, In m msgs -> textWords m = 0)
      \/ exists l1 m l2,
           msgs = l1 ++ m :: l2 /\ isText m = true /\ lm = asLongest m
           /\ 1 <= longest_wordCount lm
           /\ forall m', In m' l1 -> textWords m' < longest_wordCount lm).

(* ===================================================================== *)
(** ** Properties *)
(* ===================================================================== *)

(** *** The embedding at work *)

Example android_line_matches :
  match_ TIMESTAMP_PATTERN (u "12/05/23, 9:00 - Alice: hello")
  = Some {| m0 := u "12/05/23, 9:00 - "; m1 := u "12/05/23"; m2 := u "9:00" |}.
Proof. reflexivity. Qed.

Example ios_line_matches :
  match_ TIMESTAMP_PATTERN (u "[12/05/23, 9:00:01 PM] Alice: hello")
  = Some {| m0 := u "[12/05/23, 9:00:01 PM]"; m1 := u "12/05/23"; m2 := u "9:00:01 PM" |}.
Proof. reflexivity. Qed.

Example plain_line_does_not_match :
  match_ TIMESTAMP_PATTERN (u "second line") = None.
Proof. reflexivity. Qed.

Example lines_end_with_lf_or_crlf :
  split_lines (u "a" ++ [13; 10]%N ++ u "b" ++ [10]%N ++ u "c" ++ [13]%N ++ u "d")
  = [u "a"; u "b"; u "c" ++ [13]%N ++ u "d"].
Proof. reflexivity. Qed.

Example evening_time_is_read :
  parseDate 0 (u "12/05/23") (u "9:00:01 PM") DMY = Some 1683925200000
  /\ toISOString 1683925200000 = u "2023-05-12T21:00:00.000Z".
Proof. split; reflexivity. Qed.

Example iso_strings_of_early_and_late_years :
  toISOString (-1) = u "1969-12-31T23:59:59.999Z"
  /\ toISOString 253402300800000 = u "+010000-01-01T00:00:00.000Z"
  /\ parseISODate (dateKeyOf 1683925200000) = Some 1683849600000.
Proof. repeat split; reflexivity. Qed.

(** A line without a timestamp continues the current message; a
    timestamped line without a sender ends it. *)
Example continuation_line_is_folded (language : jstring) :
  messages (parseChatFile 0 language
              (u "13/05/23, 9:00 - Alice: first line" ++ nl ++ u "second line"))
  = [msg 1683968400000 (u "Alice") (u "first line" ++ nl ++ u "second line")].
Proof. vm_compute. reflexivity. Qed.

Example system_line_clears_the_current_message :
  messages (parseChatFile 0 (u "en-GB")
              (u "13/05/23, 9:00 - Alice: hello" ++ nl ++ u "13/05/23, 9:05 - Bob joined"
               ++ nl ++ u "stray text"))
  = [msg 1683968400000 (u "Alice") (u "hello")].
Proof. reflexivity. Qed.

(** *** Strings and maps *)

Lemma str_eqb_eq (a b : jstring) : str_eqb a b = true <-> a = b.
Proof.
  revert b; induction a as [|x a IH]; intros [|y b]; simpl; try (split; congruence).
  - rewrite andb_true_iff, N.eqb_eq, IH. split; [intros [-> ->]; reflexivity | intros H; inversion H; auto].
Qed.

Lemma str_eqb_refl (a : jstring) : str_eqb a a = true.
Proof. now apply str_eqb_eq. Qed.

Lemma str_eqb_neq (a b : jstring) : str_eqb a b = false <-> a <> b.
Proof.
  rewrite <- str_eqb_eq. destruct (str_eqb a b); split; congruence.
Qed.

Lemma str_eqb_sym (a b : jstring) : str_eqb a b = str_eqb b a.
Proof.
  destruct (str_eqb a b) eqn:E.
  - apply str_eqb_eq in E. subst. now rewrite str_eqb_refl.
  - destruct (str_eqb b a) eqn:E'; [|reflexivity].
    apply str_eqb_eq in E'. subst. now rewrite str_eqb_refl in E.
Qed.

(** *** The burst counter *)

Section Bursts.

Variable tz : Z.

Lemma burst_step_within (st : Acc) (i : nat) (m : Message) :
  date m - lastMsgTime st < 60000 ->
  burstView (step tz st (S i) m)
  = (date m, currentBurst st + 1, maxBurst st, burstCount st).
Proof.
  intros H. unfold burstView, step, burstDetection; simpl.
  apply Z.ltb_lt in H. now rewrite H.
Qed.

Lemma burst_step_first (st : Acc) (m : Message) :
  burstView (step tz st 0 m) = (date m, 1, maxBurst st, burstCount st).
Proof. reflexivity. Qed.

Lemma burst_step_gap (st : Acc) (i : nat) (m : Message) :
  60000 <= date m - lastMsgTime st -> 5 < currentBurst st -> maxBurst st < currentBurst st ->
  burstView (step tz st (S i) m)
  = (date m, 1, currentBurst st, burstCount st + 1).
Proof.
  intros H H5 Hm. unfold burstView, step, burstDetection; simpl.
  apply Z.ltb_ge in H. rewrite H.
  apply Z.gtb_lt in H5, Hm. now rewrite H5, Hm.
Qed.

Lemma burstView_eq (st : Acc) (a b c d : Z) :
  burstView st = (a, b, c, d) ->
  lastMsgTime st = a /\ currentBurst st = b /\ maxBurst st = c /\ burstCount st = d.
Proof. unfold burstView. intros H; inversion H; auto. Qed.

Lemma alternating_burst_view (texts : list jstring) :
  forall (st : Acc) (i : nat) (t0 : Z) (a b : jstring),
    t0 - lastMsgTime st < 60000 -> texts <> [] ->
    burstView (forEachFrom tz (S i) (alternating t0 a b texts) st)
    = (t0 + 10000 * (Z.of_nat (length texts) - 1),
       currentBurst st + Z.of_nat (length texts), maxBurst st, burstCount st).
Proof.
  induction texts as [|c texts IH]; intros st i t0 a b Hlt Hne; [congruence|].
  cbn [alternating forEachFrom].
  pose proof (burst_step_within st i (msg t0 a c) Hlt) as Hs.
  apply burstView_eq in Hs. cbn [date msg] in Hs. destruct Hs as (H1 & H2 & H3 & H4).
  destruct texts as [|c' texts].
  - cbn [alternating forEachFrom length]. unfold burstView.
    rewrite H1, H2, H3, H4. tuple_eq.
  - rewrite IH by (rewrite ?H1; try lia; discriminate).
    rewrite H2, H3, H4. cbn [length]. tuple_eq.
Qed.

(** A run of [n] such messages from the start of the list, with nothing
    after it, leaves the burst in [currentBurst] and counts nothing. *)
Lemma alternating_from_start (t0 : Z) (a b c : jstring) (texts : list jstring) :
  burstView (forEachFrom tz 0 (alternating t0 a b (c :: texts)) initialAcc)
  = (t0 + 10000 * Z.of_nat (length texts), 1 + Z.of_nat (length texts), 0, 0).
Proof.
  cbn [alternating forEachFrom].
  pose proof (burst_step_first initialAcc (msg t0 a c)) as Hs.
  apply burstView_eq in Hs. cbn [date msg maxBurst burstCount initialAcc] in Hs.
  destruct Hs as (H1 & H2 & H3 & H4).
  destruct texts as [|c' texts].
  - cbn [alternating forEachFrom length]. unfold burstView.
    rewrite H1, H2, H3, H4. tuple_eq.
  - rewrite alternating_burst_view by (rewrite ?H1; try lia; discriminate).
    rewrite H2, H3, H4. tuple_eq.
Qed.

Lemma forEachFrom_app (l1 l2 : list Message) :
  forall (i : nat) (st : Acc),
    forEachFrom tz i (l1 ++ l2) st
    = forEachFrom tz (i + length l1) l2 (forEachFrom tz i l1 st).
Proof.
  induction l1 as [|m l1 IH]; intros i st; cbn [app forEachFrom length].
  - now rewrite Nat.add_0_r.
  - rewrite IH. f_equal. lia.
Qed.

Lemma burstStats_view (clock : nat -> Z) (m : Message) (ms : list Message) (a b c d : Z) :
  burstView (forEachFrom tz 0 (m :: ms) initialAcc) = (a, b, c, d) ->
  burstStats (analyzeMessages tz clock (m :: ms) None)
  = {| burst_count := d; burst_maxBurst := c |}.
Proof.
  intros H. apply burstView_eq in H. destruct H as (_ & _ & H3 & H4).
  unfold analyzeMessages. cbn [filterMessages burstStats]. now rewrite H3, H4.
Qed.

(** The same six messages are counted as one burst of six as soon as one
    more message follows them a minute or more later. *)
Lemma burst_counted_when_followed (clock : nat -> Z) (t0 t : Z) (a b who : jstring)
    (c0 c1 c2 c3 c4 c5 what : jstring) :
  t0 + 50000 + 60000 <= t ->
  burstStats (analyzeMessages tz clock
                (alternating t0 a b [c0; c1; c2; c3; c4; c5] ++ [msg t who what]) None)
  = {| burst_count := 1; burst_maxBurst := 6 |}.
Proof.
  intros Ht.
  pose proof (alternating_from_start t0 a b c0 [c1; c2; c3; c4; c5]) as Hv.
  apply burstView_eq in Hv. cbn [length] in Hv. destruct Hv as (H1 & H2 & H3 & H4).
  apply burstStats_view with (a := t) (b := 1).
  change (msg t0 a c0 :: _)
    with (alternating t0 a b [c0; c1; c2; c3; c4; c5] ++ [msg t who what]).
  rewrite forEachFrom_app.
  set (st := forEachFrom tz 0 (alternating t0 a b _) initialAcc) in *.
  cbn [alternating length Nat.add forEachFrom].
  rewrite burst_step_gap by (rewrite ?H1, ?H2, ?H3; cbn [date msg]; lia).
  rewrite H2, H4. reflexivity.
Qed.

End Bursts.

(** C1, as the code has it: six messages from alternating senders, ten
    seconds apart and with no later message, leave [burstStats.count] and
    [burstStats.maxBurst] at 0, exactly as five such messages do; the run is
    never closed, so that the expected count 1 and maximum 6 are not
    reported. *)
Theorem C1_trailing_burst_is_not_counted (tz : Z) (clock : nat -> Z) (t0 : Z) (a b : jstring)
    (c0 c1 c2 c3 c4 c5 : jstring) :
  burstStats (analyzeMessages tz clock (alternating t0 a b [c0; c1; c2; c3; c4; c5]) None)
  = {| burst_count := 0; burst_maxBurst := 0 |}
  /\ burstStats (analyzeMessages tz clock (alternating t0 a b [c0; c1; c2; c3; c4]) None)
     = {| burst_count := 0; burst_maxBurst := 0 |}.
Proof.
  split.
  - eapply burstStats_view. apply (alternating_from_start tz t0 a b c0 [c1; c2; c3; c4; c5]).
  - eapply burstStats_view. apply (alternating_from_start tz t0 a b c0 [c1; c2; c3; c4]).
Qed.

(** *** Lines whose date cannot be built *)

(** A line that matches the pattern and whose date [parseDate] rejects
    leaves the messages and the current message as they were. *)
Lemma parseLine_unparsable (tz : Z) (fmt : DateFormat) (st : ParserState) (line : jstring)
    (m : MatchResult) :
  match_ TIMESTAMP_PATTERN line = Some m ->
  parseDate tz (m1 m) (m2 m) fmt = None ->
  parseLine tz fmt st line = st.
Proof. intros Hm Hd. unfold parseLine. now rewrite Hm, Hd. Qed.

(** *** Determinism *)

(** Whenever the filtered list is not empty, no [new Date()] is evaluated. *)
Lemma nonempty_result_ignores_the_clock (tz : Z) (clock1 clock2 : nat -> Z)
    (msgs : list Message) (yearFilter : option Z) :
  filterMessages tz msgs yearFilter <> [] ->
  analyzeMessages tz clock1 msgs yearFilter = analyzeMessages tz clock2 msgs yearFilter.
Proof.
  unfold analyzeMessages.
  destruct (filterMessages tz msgs yearFilter) as [|first rest]; [|reflexivity].
  intros H. now contradiction H.
Qed.

(** C3, as the code has it: whenever the filtered list is empty, the result
    holds three readings of the host's clock, in [dateRange.start], in
    [dateRange.end] and in [longestMessage.date], so that two calls with the
    same list and the same filter return equal results only if the clock
    shows them the same three times; the result is no function of the list
    and the filter alone. *)
Theorem C3_empty_result_reads_the_clock (tz : Z) (clock1 clock2 : nat -> Z)
    (msgs : list Message) (yearFilter : option Z) :
  filterMessages tz msgs yearFilter = [] ->
  let r1 := analyzeMessages tz clock1 msgs yearFilter in
  let r2 := analyzeMessages tz clock2 msgs yearFilter in
  start (dateRange r1) = clock1 0%nat
  /\ end_ (dateRange r1) = clock1 1%nat
  /\ longest_date (longestMessage r1) = clock1 2%nat
  /\ (r1 = r2 <-> clock1 0%nat = clock2 0%nat /\ clock1 1%nat = clock2 1%nat
                  /\ clock1 2%nat = clock2 2%nat).
Proof.
  intros Hempty. cbv zeta. unfold analyzeMessages. rewrite Hempty.
  cbn [dateRange start end_ longestMessage longest_date].
  split; [reflexivity|]. split; [reflexivity|]. split; [reflexivity|]. split.
  - intros H. injection H as H0 H1 H2. auto.
  - intros (H0 & H1 & H2). now rewrite H0, H1, H2.
Qed.

(** Two calls a millisecond apart, for a year without messages. *)
Lemma C3_empty_result_witness :
  filterMessages 0 twoMessages (Some 1999) = []
  /\ analyzeMessages 0 (fun _ => 1700000000000) twoMessages (Some 1999)
     <> analyzeMessages 0 (fun _ => 1700000000001) twoMessages (Some 1999).
Proof.
  assert (H : filterMessages 0 twoMessages (Some 1999) = []) by reflexivity.
  split; [exact H|]. intros E.
  apply (C3_empty_result_reads_the_clock 0 (fun _ => 1700000000000) (fun _ => 1700000000001)
           twoMessages (Some 1999) H) in E.
  destruct E as (E & _). discriminate E.
Defined.

(** *** The date-order scan *)

Lemma scanFormat_without_year (lines : list jstring) :
  (forall line m, In line lines -> match_ TIMESTAMP_PATTERN line = Some m ->
                  gtb_ (firstComponent m) 1000 = false) ->
  forall a b : Z,
  exists a' b' : Z,
    scanFormat lines a b = (false, a', b')
    /\ a <= a'
    /\ (forall line m p, In line lines -> match_ TIMESTAMP_PATTERN line = Some m ->
                         firstComponent m = Some p -> p <= a').
Proof.
  induction lines as [|l lines IH]; intros Hy a b.
  - exists a, b. repeat split; [lia | intros ? ? ? []].
  - cbn [scanFormat].
    assert (Hrest : forall line m, In line lines -> match_ TIMESTAMP_PATTERN line = Some m ->
                                   gtb_ (firstComponent m) 1000 = false)
      by (intros; eapply Hy; [right|]; eassumption).
    destruct (match_ TIMESTAMP_PATTERN l) as [m|] eqn:Hm.
    + fold (firstComponent m). rewrite (Hy l m (or_introl eq_refl) Hm).
      set (a1 := match firstComponent m with
                 | Some p => if p >? a then p else a
                 | None => a
                 end).
      assert (Ha1 : a <= a1 /\ forall p, firstComponent m = Some p -> p <= a1).
      { subst a1. destruct (firstComponent m) as [p|].
        - destruct (p >? a) eqn:E; [apply Z.gtb_lt in E | rewrite Z.gtb_ltb in E; apply Z.ltb_ge in E];
            split; try lia; intros q Hq; inversion Hq; lia.
        - split; [lia | discriminate]. }
      destruct Ha1 as [Ha1 Hp1].
      destruct (IH Hrest a1 (match at_ (map Number_ (split isDateSep (m1 m))) 1 with
                             | Some p => if p >? b then p else b
                             | None => b
                             end)) as (a' & b' & Hs & Hle & Hall).
      exists a', b'. split; [exact Hs|]. split; [lia|].
      intros line m' p [<-|Hin] Hm' Hp.
      * rewrite Hm in Hm'. inversion Hm'; subst m'. specialize (Hp1 p Hp). lia.
      * eapply Hall; eassumption.
    + destruct (IH Hrest a b) as (a' & b' & Hs & Hle & Hall).
      exists a', b'. split; [exact Hs|]. split; [lia|].
      intros line m' p [<-|Hin] Hm' Hp.
      * rewrite Hm in Hm'. discriminate.
      * eapply Hall; eassumption.
Qed.

Lemma In_firstn_nth_error {A : Type} (n : nat) (l : list A) (x : A) :
  In x (firstn n l) <-> exists i, (i < n)%nat /\ nth_error l i = Some x.
Proof.
  split.
  - intros H. apply In_nth_error in H. destruct H as [i Hi].
    rewrite nth_error_firstn in Hi. destruct (i <? n)%nat eqn:E; [|discriminate].
    apply Nat.ltb_lt in E. eauto.
  - intros (i & Hi & Hx). apply nth_error_In with i.
    rewrite nth_error_firstn. apply Nat.ltb_lt in Hi. now rewrite Hi.
Qed.

(** C5: when one of the first 50 lines starts with a date whose first
    component exceeds 12, and none of them with one whose first component
    exceeds 1000, [detectDateFormat] answers [DMY], the order in which
    [parseDate] reads the first component as the day. *)
Theorem C5_first_component_above_12_is_the_day (language : jstring) (lines : list jstring) :
  (exists i line m, (i < 50)%nat /\ nth_error lines i = Some line
                    /\ match_ TIMESTAMP_PATTERN line = Some m
                    /\ gtb_ (firstComponent m) 12 = true) ->
  (forall i line m, (i < 50)%nat -> nth_error lines i = Some line ->
                    match_ TIMESTAMP_PATTERN line = Some m ->
                    gtb_ (firstComponent m) 1000 = false) ->
  detectDateFormat language lines = DMY.
Proof.
  intros (i & line & m & Hi & Hline & Hm & H12) Hy.
  assert (Hy' : forall line m, In line (firstn 50 lines) -> match_ TIMESTAMP_PATTERN line = Some m ->
                               gtb_ (firstComponent m) 1000 = false).
  { intros l' m' Hin Hm'. apply In_firstn_nth_error in Hin. destruct Hin as (j & Hj & Hl').
    eapply Hy; eassumption. }
  destruct (scanFormat_without_year _ Hy' 0 0) as (a' & b' & Hs & _ & Hall).
  unfold detectDateFormat. rewrite Hs.
  destruct (firstComponent m) as [p|] eqn:Hp; [|discriminate].
  cbn [gtb_] in H12. apply Z.gtb_lt in H12.
  assert (p <= a').
  { eapply Hall; [|exact Hm|exact Hp]. apply In_firstn_nth_error. eauto. }
  destruct (a' >? 12) eqn:E; [reflexivity|].
  rewrite Z.gtb_ltb in E. apply Z.ltb_ge in E. lia.
Qed.

Lemma C5_day_first_witness :
  detectDateFormat (u "en-US") [u "13/05/23, 9:00 - Alice: hello"] = DMY.
Proof.
  apply C5_first_component_above_12_is_the_day.
  - exists 0%nat, (u "13/05/23, 9:00 - Alice: hello").
    eexists. split; [lia|]. split; [reflexivity|]. split; [vm_compute; reflexivity|reflexivity].
  - intros [|[|i]] line m _ Hl Hm; cbn in Hl; try discriminate.
    inversion Hl; subst line. vm_compute in Hm. inversion Hm. reflexivity.
Defined.

(** *** The two-line chat *)

Lemma quarterHourZones_spec (tz : Z) :
  -840 <= tz <= 840 -> tz mod 15 = 0 -> In tz quarterHourZones.
Proof.
  intros Hr Hm. unfold quarterHourZones. apply in_map_iff.
  exists (Z.to_nat (tz / 15 + 56)). split.
  - pose proof (Z.div_mod tz 15 ltac:(lia)). lia.
  - apply in_seq. pose proof (Z.div_mod tz 15 ltac:(lia)). lia.
Qed.

Lemma twoLineChat_parse (tz : Z) (language : jstring) :
  exists fmt, (fmt = DMY \/ fmt = MDY)
    /\ messages (parseChatFile tz language twoLineChat)
       = parsed (fold_left (parseLine tz fmt)
                   [u "12/05/23, 9:00 - Alice: hello"; u "12/05/23, 9:01 - Bob: hi there"]
                   {| parsed := []; lastMessage := None |}).
Proof.
  exists (detectDateFormat language
            [u "12/05/23, 9:00 - Alice: hello"; u "12/05/23, 9:01 - Bob: hi there"]).
  split; [|reflexivity].
  unfold detectDateFormat.
  replace (scanFormat _ 0 0) with (false, 12, 5) by (vm_compute; reflexivity).
  cbv iota beta. replace (12 >? 12) with false by reflexivity.
  replace (5 >? 12) with false by reflexivity. cbv iota.
  destruct (startsWith _ _); auto.
Qed.

Lemma twoLineChat_all_zones (clock : nat -> Z) (fmt : DateFormat) :
  fmt = DMY \/ fmt = MDY ->
  Forall (fun tz =>
            let ms := parsed (fold_left (parseLine tz fmt)
                        [u "12/05/23, 9:00 - Alice: hello"; u "12/05/23, 9:01 - Bob: hi there"]
                        {| parsed := []; lastMessage := None |}) in
            twoLineOutcome ms (analyzeMessages tz clock ms None))
         quarterHourZones.
Proof.
  intros [-> | ->]; unfold quarterHourZones; cbn [map seq];
    repeat (apply Forall_cons; [vm_compute; repeat split; reflexivity|]); apply Forall_nil.
Qed.

(** C4: on a host whose time zone is a whole number of quarter hours from
    UTC, whatever its locale, the two-line chat parses into 2 messages, and
    their analysis lists Alice and Bob with one message each, the busiest
    hour 9, a longest streak of 1 and a longest silence of 0 hours. *)
Theorem C4_two_line_chat (tz : Z) (language : jstring) (clock : nat -> Z) :
  -840 <= tz <= 840 -> tz mod 15 = 0 ->
  twoLineOutcome (messages (parseChatFile tz language twoLineChat))
    (analyzeMessages tz clock (messages (parseChatFile tz language twoLineChat)) None).
Proof.
  intros Hr Hm.
  destruct (twoLineChat_parse tz language) as (fmt & Hfmt & ->).
  pose proof (twoLineChat_all_zones clock fmt Hfmt) as Hall.
  rewrite Forall_forall in Hall.
  exact (Hall tz (quarterHourZones_spec tz Hr Hm)).
Qed.

Lemma C4_two_line_chat_witness :
  twoLineOutcome (messages (parseChatFile 330 (u "en-IN") twoLineChat))
    (analyzeMessages 330 (fun _ => 0)
       (messages (parseChatFile 330 (u "en-IN") twoLineChat)) None).
Proof.
  apply (C4_two_line_chat 330 (u "en-IN") (fun _ => 0)); [lia | reflexivity].
Defined.

(** *** Maps in insertion order *)

Section MapFacts.

Context {V : Type}.
Implicit Types (m : jsmap V) (k : jstring) (v : V).

Lemma get_set_same k v m : get k (set k v m) = Some v.
Proof.
  induction m as [|[k' v'] m IH]; cbn [set get].
  - now rewrite str_eqb_refl.
  - destruct (str_eqb k k') eqn:E; cbn [get]; rewrite ?str_eqb_refl, ?E; auto.
Qed.

Lemma get_set_other k k' v m : k <> k' -> get k' (set k v m) = get k' m.
Proof.
  intros Hne. induction m as [|[k0 v0] m IH]; cbn [set get].
  - assert (E : str_eqb k' k = false) by (apply str_eqb_neq; congruence). now rewrite E.
  - destruct (str_eqb k k0) eqn:E; cbn [get].
    + apply str_eqb_eq in E. subst k0.
      assert (E' : str_eqb k' k = false) by (apply str_eqb_neq; congruence). now rewrite E'.
    + destruct (str_eqb k' k0); auto.
Qed.

Lemma get_Some_In k v m : get k m = Some v -> In (k, v) m.
Proof.
  induction m as [|[k' v'] m IH]; cbn [get]; [discriminate|].
  destruct (str_eqb k k') eqn:E.
  - apply str_eqb_eq in E. intros H; inversion H; subst. now left.
  - intros H. right. auto.
Qed.

Lemma get_None_keys k m : get k m = None <-> ~ In k (keys m).
Proof.
  induction m as [|[k' v'] m IH]; cbn [get keys map fst].
  - split; auto.
  - destruct (str_eqb k k') eqn:E.
    + apply str_eqb_eq in E. subst. split; [discriminate | intros H; exfalso; apply H; now left].
    + apply str_eqb_neq in E. rewrite IH. unfold keys. cbn [In]. intuition congruence.
Qed.

Lemma In_keys_get k m : In k (keys m) <-> exists v, get k m = Some v.
Proof.
  destruct (get k m) as [v|] eqn:E.
  - split; [eauto|]. intros _. apply get_Some_In in E. apply in_map_iff. now exists (k, v).
  - apply get_None_keys in E. split; [tauto | intros [v Hv]; discriminate].
Qed.

Lemma NoDup_In_get k v m : NoDup (keys m) -> In (k, v) m -> get k m = Some v.
Proof.
  induction m as [|[k' v'] m IH]; cbn [keys map fst get]; [intros _ []|]; intros Hnd [Hin|Hin].
  - inversion Hin; subst. now rewrite str_eqb_refl.
  - destruct (str_eqb k k') eqn:E.
    + apply str_eqb_eq in E. subst. inversion Hnd as [|? ? Hnotin ?]; subst.
      exfalso. apply Hnotin. apply in_map_iff. now exists (k', v).
    + inversion Hnd; auto.
Qed.

Lemma keys_set k v m :
  keys (set k v m) = if has k m then keys m else keys m ++ [k].
Proof.
  unfold has. induction m as [|[k' v'] m IH]; cbn [set get keys map fst app]; [reflexivity|].
  destruct (str_eqb k k') eqn:E; cbn [keys map fst].
  - apply str_eqb_eq in E. now subst.
  - unfold keys in IH. rewrite IH. destruct (get k m); reflexivity.
Qed.

Lemma In_keys_set k v m x : In x (keys (set k v m)) <-> x = k \/ In x (keys m).
Proof.
  rewrite keys_set. unfold has. destruct (get k m) as [v0|] eqn:E.
  - split; [auto|]. intros [->|H]; [|exact H]. apply In_keys_get. eauto.
  - rewrite in_app_iff. cbn [In]. intuition.
Qed.

Lemma NoDup_keys_set k v m : NoDup (keys m) -> NoDup (keys (set k v m)).
Proof.
  intros Hnd. rewrite keys_set. unfold has. destruct (get k m) eqn:E; [exact Hnd|].
  apply get_None_keys in E.
  apply NoDup_rev in Hnd. rewrite <- (rev_involutive (keys m ++ [k])).
  apply NoDup_rev. rewrite rev_app_distr. cbn [rev app].
  constructor; [now rewrite <- in_rev | exact Hnd].
Qed.

End MapFacts.

Lemma getOr0_incr (k who : jstring) (m : jsmap Z) :
  getOr0 who (incr k m) = getOr0 who m + (if str_eqb k who then 1 else 0).
Proof.
  unfold incr, getOr0 at 1. destruct (str_eqb k who) eqn:E.
  - apply str_eqb_eq in E. subst. now rewrite get_set_same.
  - apply str_eqb_neq in E. rewrite get_set_other by exact E. fold (getOr0 who m). lia.
Qed.

(** *** Sums *)

Lemma fold_add_acc (l : list Z) (a : Z) : fold_left Z.add l a = a + fold_left Z.add l 0.
Proof.
  revert a. induction l as [|x l IH]; intros a; cbn [fold_left]; [lia|].
  rewrite IH, (IH (0 + x)). lia.
Qed.

Lemma sum_cons (x : Z) (l : list Z) : sum (x :: l) = x + sum l.
Proof. unfold sum. cbn [fold_left]. rewrite fold_add_acc. lia. Qed.

Lemma sum_nil : sum [] = 0.
Proof. reflexivity. Qed.

Lemma sum_app (l1 l2 : list Z) : sum (l1 ++ l2) = sum l1 + sum l2.
Proof.
  induction l1 as [|x l1 IH]; cbn [app]; rewrite ?sum_nil, ?sum_cons; lia.
Qed.

Lemma sum_incrAt (i : nat) (a : list Z) :
  (i < length a)%nat -> sum (incrAt i a) = sum a + 1.
Proof.
  revert i. induction a as [|x a IH]; intros i Hi; cbn [length] in Hi; [lia|].
  destruct i; cbn [incrAt]; rewrite !sum_cons; [lia|]. rewrite IH by lia. lia.
Qed.

Lemma length_incrAt (i : nat) (a : list Z) : length (incrAt i a) = length a.
Proof.
  revert i. induction a as [|x a IH]; intros [|i]; cbn [incrAt length]; auto.
Qed.

Lemma sum_Permutation (l1 l2 : list Z) : Permutation l1 l2 -> sum l1 = sum l2.
Proof.
  induction 1; rewrite ?sum_cons in *; lia.
Qed.

Lemma insert_Permutation {A : Type} (le : A -> A -> bool) (x : A) (l : list A) :
  Permutation (insert le x l) (x :: l).
Proof.
  induction l as [|y l IH]; cbn [insert]; [reflexivity|].
  destruct (le x y); [reflexivity|].
  rewrite IH. apply perm_swap.
Qed.

Lemma sort_Permutation {A : Type} (le : A -> A -> bool) (l : list A) :
  Permutation (sort le l) l.
Proof.
  induction l as [|x l IH]; cbn [sort fold_right]; [reflexivity|].
  rewrite insert_Permutation. now constructor.
Qed.

Lemma sum_values_set {V : Type} (f : V -> Z) (k : jstring) (v : V) (m : jsmap V) :
  sum (map f (values (set k v m)))
  = sum (map f (values m)) + f v - match get k m with Some v0 => f v0 | None => 0 end.
Proof.
  induction m as [|[k' v'] m IH]; cbn [set get values map snd].
  - rewrite sum_cons, sum_nil. lia.
  - destruct (str_eqb k k'); cbn [values map snd]; rewrite !sum_cons.
    + lia.
    + unfold values in IH. rewrite IH. lia.
Qed.

Lemma map_indexed_snd {A B : Type} (f : A -> B) (l : list A) :
  forall i : Z, map (fun e => f (snd e)) (indexed i l) = map f l.
Proof.
  induction l as [|x l IH]; intros i; cbn [indexed map snd]; [reflexivity|].
  now rewrite IH.
Qed.

(** *** Message counts are conserved *)

Section Counting.

Variable tz : Z.

Lemma forEachFrom_snoc (msgs : list Message) (m : Message) :
  forEachFrom tz 0 (msgs ++ [m]) initialAcc
  = step tz (forEachFrom tz 0 msgs initialAcc) (length msgs) m.
Proof. now rewrite forEachFrom_app. Qed.

Lemma getHours_range (t : Z) : 0 <= getHours tz t < 24.
Proof. unfold getHours. apply Z.mod_pos_bound. lia. Qed.

(** One step adds the sender to [userMap] if need be and counts its
    message; the one-sided counters stay at 0 during the loop. *)
Lemma step_userMap (st : Acc) (i : nat) (m : Message) :
  NoDup (keys (userMap st)) ->
  (forall k s, In (k, s) (userMap st) -> oneSidedCount s = 0) ->
  NoDup (keys (userMap (step tz st i m)))
  /\ (forall x, In x (keys (userMap (step tz st i m))) <-> x = sender m \/ In x (keys (userMap st)))
  /\ sum (map count (values (userMap (step tz st i m))))
     = sum (map count (values (userMap st))) + 1
  /\ (forall k s, In (k, s) (userMap (step tz st i m)) -> oneSidedCount s = 0).
Proof.
  intros Hnd Hz. unfold step; cbn [userMap].
  set (um1 := if has (sender m) (userMap st) then userMap st
              else set (sender m) {| count := 0; oneSidedCount := 0 |} (userMap st)).
  assert (H1 : NoDup (keys um1)
               /\ (forall x, In x (keys um1) <-> x = sender m \/ In x (keys (userMap st)))
               /\ sum (map count (values um1)) = sum (map count (values (userMap st)))
               /\ (forall k s, In (k, s) um1 -> oneSidedCount s = 0)
               /\ exists s0, get (sender m) um1 = Some s0).
  { subst um1. unfold has. destruct (get (sender m) (userMap st)) as [s0|] eqn:E.
    - repeat split; auto.
      + intros [->|H]; [|exact H]. apply In_keys_get. eauto.
      + eauto.
    - split; [now apply NoDup_keys_set|]. split; [intros x; apply In_keys_set|].
      split; [rewrite sum_values_set, E; cbn [count]; lia|].
      split; [|rewrite get_set_same; eauto].
      intros k s Hin.
      assert (Hg : get k (set (sender m) {| count := 0; oneSidedCount := 0 |} (userMap st)) = Some s).
      { apply NoDup_In_get; [now apply NoDup_keys_set | exact Hin]. }
      destruct (jstring_eq_dec (sender m) k) as [<-|Hne].
      + rewrite get_set_same in Hg. now inversion Hg.
      + rewrite get_set_other in Hg by exact Hne. apply get_Some_In in Hg. eauto. }
  destruct H1 as (Hnd1 & Hk1 & Hs1 & Hz1 & s0 & Hg1).
  rewrite Hg1.
  split; [now apply NoDup_keys_set|].
  split.
  { intros x. rewrite In_keys_set, Hk1. tauto. }
  split.
  { rewrite sum_values_set, Hg1. cbn [count]. lia. }
  intros k s Hin.
  match type of Hin with In _ (set _ ?v _) =>
    assert (Hg : get k (set (sender m) v um1) = Some s)
      by (apply NoDup_In_get; [now apply NoDup_keys_set | exact Hin])
  end.
  destruct (jstring_eq_dec (sender m) k) as [<-|Hne].
  - rewrite get_set_same in Hg. inversion Hg. cbn [oneSidedCount].
    apply get_Some_In in Hg1. eauto.
  - rewrite get_set_other in Hg by exact Hne. apply get_Some_In in Hg. eauto.
Qed.

Lemma loop_userMap (msgs : list Message) :
  let st := forEachFrom tz 0 msgs initialAcc in
  NoDup (keys (userMap st))
  /\ (forall x, In x (keys (userMap st)) <-> In x (map sender msgs))
  /\ sum (map count (values (userMap st))) = Z.of_nat (length msgs)
  /\ (forall k s, In (k, s) (userMap st) -> oneSidedCount s = 0).
Proof.
  induction msgs as [|m msgs IH] using rev_ind; cbv zeta.
  - cbn. repeat split; try tauto; constructor.
  - rewrite forEachFrom_snoc. cbv zeta in IH. destruct IH as (Hnd & Hk & Hs & Hz).
    destruct (step_userMap (forEachFrom tz 0 msgs initialAcc) (length msgs) m Hnd Hz)
      as (Hnd' & Hk' & Hs' & Hz').
    split; [exact Hnd'|]. split.
    { intros x. rewrite Hk', Hk, map_app, in_app_iff. cbn [map In]. intuition. }
    split; [|exact Hz'].
    rewrite Hs', Hs, length_app. cbn [length]. lia.
Qed.

Lemma loop_hourlyCounts (msgs : list Message) :
  let st := forEachFrom tz 0 msgs initialAcc in
  length (hourlyCounts st) = 24%nat
  /\ sum (hourlyCounts st) = Z.of_nat (length msgs).
Proof.
  induction msgs as [|m msgs IH] using rev_ind; cbv zeta.
  - split; reflexivity.
  - rewrite forEachFrom_snoc. cbv zeta in IH. destruct IH as (Hl & Hs).
    unfold step; cbn [hourlyCounts].
    split; [now rewrite length_incrAt|].
    pose proof (getHours_range (date m)).
    rewrite sum_incrAt by lia. rewrite Hs, length_app. cbn [length]. lia.
Qed.

End Counting.

(** *** The one-sided pass keeps names and message counts *)

Lemma bumpOneSided_keys (user : jstring) (um : jsmap UStat) :
  keys (bumpOneSided user um) = keys um.
Proof.
  unfold bumpOneSided. destruct (get user um) eqn:E; [|reflexivity].
  rewrite keys_set. unfold has. now rewrite E.
Qed.

Lemma bumpOneSided_countOf (user k : jstring) (um : jsmap UStat) :
  countOf (bumpOneSided user um) k = countOf um k.
Proof.
  unfold bumpOneSided, countOf. destruct (get user um) as [s|] eqn:E; [|reflexivity].
  destruct (jstring_eq_dec user k) as [<-|Hne].
  - now rewrite get_set_same, E.
  - now rewrite get_set_other.
Qed.

Lemma bumpOneSided_oneSidedOf (user who : jstring) (um : jsmap UStat) :
  In who (keys um) ->
  oneSidedOf (bumpOneSided user um) who
  = oneSidedOf um who + (if str_eqb user who then 1 else 0).
Proof.
  intros Hin. unfold bumpOneSided, oneSidedOf.
  destruct (str_eqb user who) eqn:E.
  - apply str_eqb_eq in E. subst user. apply In_keys_get in Hin. destruct Hin as [s Hs].
    rewrite Hs, get_set_same. reflexivity.
  - apply str_eqb_neq in E. destruct (get user um) as [s|]; [|lia].
    rewrite get_set_other by exact E. lia.
Qed.

(** Whatever is kept by one increment is kept by the whole pass. *)
Lemma oneSidedDays_preserves (P : jsmap UStat -> Prop) :
  (forall user um, P um -> P (bumpOneSided user um)) ->
  forall db um, P um -> P (oneSidedDays db um).
Proof.
  intros Hb. unfold oneSidedDays.
  induction db as [|d db IH]; intros um HP; cbn [fold_left]; [exact HP|].
  apply IH. unfold oneSidedDay.
  generalize (sum (values (snd d))) as total. intros total.
  destruct (total >? 10); [|exact HP].
  generalize dependent um. induction (snd d) as [|e l IHl]; intros um HP; cbn [fold_left]; [exact HP|].
  apply IHl. destruct (4 * snd e >? 3 * total); auto.
Qed.

Lemma oneSidedDays_keys (db : jsmap (jsmap Z)) (um : jsmap UStat) :
  keys (oneSidedDays db um) = keys um.
Proof.
  apply (oneSidedDays_preserves (fun um' => keys um' = keys um)); [|reflexivity].
  intros user um' H. now rewrite bumpOneSided_keys.
Qed.

Lemma oneSidedDays_countOf (db : jsmap (jsmap Z)) (um : jsmap UStat) (k : jstring) :
  countOf (oneSidedDays db um) k = countOf um k.
Proof.
  apply (oneSidedDays_preserves (fun um' => countOf um' k = countOf um k)); [|reflexivity].
  intros user um' H. now rewrite bumpOneSided_countOf.
Qed.

Lemma counts_by_key (um : jsmap UStat) :
  NoDup (keys um) -> map count (values um) = map (countOf um) (keys um).
Proof.
  induction um as [|[k v] um IH]; cbn [keys values map fst snd]; intros Hnd; [reflexivity|].
  inversion Hnd as [|? ? Hnotin Hnd']; subst.
  unfold countOf at 1. cbn [get]. rewrite str_eqb_refl. f_equal.
  unfold keys, values in IH. rewrite IH by exact Hnd'.
  apply map_ext_in. intros k' Hk'. unfold countOf. cbn [get].
  destruct (str_eqb k' k) eqn:E; [|reflexivity].
  apply str_eqb_eq in E. subst. contradiction.
Qed.

Lemma finalizeUsers_messageCount (um : jsmap UStat) :
  map messageCount (finalizeUsers um) = map (countOf um) (sortedUserNames um).
Proof.
  unfold finalizeUsers. rewrite map_map.
  rewrite <- (map_indexed_snd (countOf um) (sortedUserNames um) 0).
  apply map_ext. intros [i n]. unfold finalizeUser, countOf. cbn [snd messageCount].
  destruct (get n um); reflexivity.
Qed.

(** C10: when the filtered list is not empty, the [messageCount]s of
    [users] add up to [totalMessages], and so do the counts of the
    [hourlyHeatmap] buckets. *)
Theorem C10_message_counts_are_conserved (tz : Z) (clock : nat -> Z) (msgs : list Message)
    (yearFilter : option Z) :
  filterMessages tz msgs yearFilter <> [] ->
  let r := analyzeMessages tz clock msgs yearFilter in
  sum (map messageCount (users r)) = totalMessages r
  /\ sum (map hour_count (hourlyHeatmap r)) = totalMessages r
  /\ length (hourlyHeatmap r) = 24%nat.
Proof.
  intros Hne r. subst r. unfold analyzeMessages.
  destruct (filterMessages tz msgs yearFilter) as [|first rest] eqn:Hf; [congruence|].
  cbn [users totalMessages hourlyHeatmap].
  set (st := forEachFrom tz 0 (first :: rest) initialAcc).
  destruct (loop_userMap tz (first :: rest)) as (Hnd & _ & Hsum & _). fold st in Hnd, Hsum.
  destruct (loop_hourlyCounts tz (first :: rest)) as (Hlen & Hh). fold st in Hlen, Hh.
  split; [|split].
  - rewrite finalizeUsers_messageCount. unfold sortedUserNames.
    rewrite (sum_Permutation _ _ (Permutation_map _ (sort_Permutation _ _))).
    rewrite oneSidedDays_keys.
    rewrite (map_ext _ _ (oneSidedDays_countOf (dailyBreakdown st) (userMap st))).
    now rewrite <- counts_by_key.
  - rewrite map_map. cbn [hour_count]. now rewrite (map_indexed_snd (fun x => x)), map_id.
  - rewrite length_map. clear -Hlen. generalize 0 at 1.
    induction (hourlyCounts st) as [|x l IH] in Hlen |- *; intros i; [discriminate|].
    rewrite <- Hlen. clear. revert i.
    induction (x :: l) as [|y l' IH']; intros i; cbn [indexed length]; auto.
Qed.

Lemma C10_message_counts_witness :
  sum (map messageCount (users (analyzeMessages 0 (fun _ => 0) twoMessages (Some 2023))))
  = totalMessages (analyzeMessages 0 (fun _ => 0) twoMessages (Some 2023))
  /\ sum (map hour_count (hourlyHeatmap (analyzeMessages 0 (fun _ => 0) twoMessages (Some 2023))))
     = totalMessages (analyzeMessages 0 (fun _ => 0) twoMessages (Some 2023))
  /\ length (hourlyHeatmap (analyzeMessages 0 (fun _ => 0) twoMessages (Some 2023))) = 24%nat.
Proof.
  apply (C10_message_counts_are_conserved 0 (fun _ => 0) twoMessages (Some 2023)).
  vm_compute. discriminate.
Defined.

(** *** Active days and the longest streak *)

Lemma NoDup_keys_incr (k : jstring) (m : jsmap Z) : NoDup (keys m) -> NoDup (keys (incr k m)).
Proof. apply NoDup_keys_set. Qed.

Lemma In_keys_incr (k x : jstring) (m : jsmap Z) :
  In x (keys (incr k m)) <-> x = k \/ In x (keys m).
Proof. apply In_keys_set. Qed.

Lemma loop_dailyTotalCounts (tz : Z) (msgs : list Message) :
  let st := forEachFrom tz 0 msgs initialAcc in
  NoDup (keys (dailyTotalCounts st))
  /\ (forall d, In d (keys (dailyTotalCounts st))
                <-> In d (map (fun m => dateKeyOf (date m)) msgs)).
Proof.
  induction msgs as [|m msgs IH] using rev_ind; cbv zeta.
  - cbn. split; [constructor | tauto].
  - rewrite forEachFrom_snoc. cbv zeta in IH. destruct IH as (Hnd & Hk).
    unfold step; cbn [dailyTotalCounts]. split; [now apply NoDup_keys_incr|].
    intros d. rewrite In_keys_incr, Hk, map_app, in_app_iff. cbn [map In]. intuition.
Qed.

Lemma activeDays_keys (tz : Z) (msgs : list Message) :
  Permutation (keys (dailyTotalCounts (forEachFrom tz 0 msgs initialAcc))) (activeDays msgs).
Proof.
  destruct (loop_dailyTotalCounts tz msgs) as (Hnd & Hk).
  apply NoDup_Permutation; [exact Hnd | apply NoDup_nodup |].
  intros d. unfold activeDays. now rewrite nodup_In, Hk.
Qed.

Lemma streakStep_bounds (s : Streak) (d : jstring) (n : Z) :
  0 <= currentStreak s <= n -> maxStreak s <= n ->
  1 <= currentStreak (streakStep s d) <= n + 1
  /\ 1 <= maxStreak (streakStep s d) <= n + 1
  /\ maxStreak s <= maxStreak (streakStep s d).
Proof.
  intros Hc Hm. unfold streakStep. cbn [currentStreak maxStreak].
  set (c := match prevDateStr s with
            | [] => 1
            | _ :: _ => match dayDiff d (prevDateStr s) with
                        | Some diff => if diff <=? 1 then currentStreak s + 1 else 1
                        | None => 1
                        end
            end).
  assert (Hc' : 1 <= c <= n + 1).
  { subst c. destruct (prevDateStr s); [lia|].
    destruct (dayDiff d _) as [diff|]; [destruct (diff <=? 1)|]; lia. }
  destruct (c >? maxStreak s) eqn:E;
    [apply Z.gtb_lt in E | rewrite Z.gtb_ltb in E; apply Z.ltb_ge in E]; lia.
Qed.

Lemma streak_fold_bounds (days : list jstring) :
  forall (s : Streak) (n : Z),
    0 <= currentStreak s <= n -> maxStreak s <= n ->
    let s' := fold_left streakStep days s in
    0 <= currentStreak s' <= n + Z.of_nat (length days)
    /\ maxStreak s' <= n + Z.of_nat (length days)
    /\ maxStreak s <= maxStreak s'
    /\ (days <> [] -> 1 <= maxStreak s').
Proof.
  induction days as [|d days IH]; intros s n Hc Hm; cbn [fold_left length]; cbv zeta.
  - repeat split; try lia. congruence.
  - destruct (streakStep_bounds s d n Hc Hm) as (Hc1 & Hm1 & Hmono).
    destruct (IH (streakStep s d) (n + 1) ltac:(lia) ltac:(lia)) as (Hc2 & Hm2 & Hmono2 & _).
    cbv zeta in *. repeat split; try lia.
Qed.

(** C6: when the filtered list is not empty, [longestStreak] is at least 1
    and at most the number of distinct calendar-day keys with a message. *)
Theorem C6_longest_streak_bounds (tz : Z) (clock : nat -> Z) (msgs : list Message)
    (yearFilter : option Z) :
  filterMessages tz msgs yearFilter <> [] ->
  1 <= longestStreak (analyzeMessages tz clock msgs yearFilter)
    <= Z.of_nat (length (activeDays (filterMessages tz msgs yearFilter))).
Proof.
  intros Hne. unfold analyzeMessages.
  destruct (filterMessages tz msgs yearFilter) as [|first rest] eqn:Hf; [congruence|].
  cbn [longestStreak]. unfold streakOf.
  set (st := forEachFrom tz 0 (first :: rest) initialAcc).
  pose proof (activeDays_keys tz (first :: rest)) as Hperm. fold st in Hperm.
  assert (Hlen : length (sort str_leb (keys (dailyTotalCounts st)))
                 = length (activeDays (first :: rest))).
  { rewrite (Permutation_length (sort_Permutation _ _)). now apply Permutation_length. }
  destruct (streak_fold_bounds (sort str_leb (keys (dailyTotalCounts st)))
              {| currentStreak := 0; maxStreak := 0; prevDateStr := [] |} 0)
    as (_ & Hup & _ & Hlow); cbn [currentStreak maxStreak]; try lia.
  cbv zeta in Hup, Hlow. rewrite Hlen in Hup. split; [|lia].
  apply Hlow. intros Hnil. rewrite Hnil in Hlen. cbn [length] in Hlen.
  assert (Hin : In (dateKeyOf (date first)) (activeDays (first :: rest)))
    by (unfold activeDays; apply nodup_In; now left).
  destruct (activeDays (first :: rest)); [contradiction | discriminate].
Qed.

Lemma C6_longest_streak_witness :
  1 <= longestStreak (analyzeMessages 0 (fun _ => 0) twoDays None)
    <= Z.of_nat (length (activeDays (filterMessages 0 twoDays None))).
Proof.
  apply C6_longest_streak_bounds. vm_compute. discriminate.
Defined.

(** *** Conversation starts and the silence breaker *)

Lemma argMax_spec {K : Type} (entries : list (K * Z)) :
  forall init : K * Z,
    let r := argMax entries init in
    (r = init \/ In r entries)
    /\ snd init <= snd r
    /\ (forall e, In e entries -> snd e <= snd r)
    /\ ((exists e, In e entries /\ snd init < snd e) -> In r entries).
Proof.
  unfold argMax.
  induction entries as [|e entries IH]; intros init; cbn [fold_left]; cbv zeta.
  - repeat split; auto; try lia; [intros ? [] | intros (? & [] & _)].
  - specialize (IH (if snd e >? snd init then e else init)). cbv zeta in IH.
    destruct IH as (Hr & Hle & Hall & Hex).
    destruct (snd e >? snd init) eqn:E;
      [apply Z.gtb_lt in E | rewrite Z.gtb_ltb in E; apply Z.ltb_ge in E].
    + repeat split.
      * destruct Hr as [->|Hr]; right; [now left | now right].
      * lia.
      * intros e' [<-|Hin]; [lia | auto].
      * intros _. destruct Hr as [->|Hr]; [now left | now right].
    + repeat split.
      * destruct Hr as [Hr|Hr]; [now left | right; now right].
      * exact Hle.
      * intros e' [<-|Hin]; [lia | auto].
      * intros (e' & [<-|Hin] & Hlt); [lia|]. right. apply Hex. eauto.
Qed.

Lemma afterGapFrom_nonneg (msgs : list Message) (who : jstring) :
  forall prev, 0 <= afterGapFrom prev msgs who.
Proof.
  induction msgs as [|m msgs IH]; intros prev; cbn [afterGapFrom]; [lia|].
  specialize (IH (date m)). destruct (_ && _); lia.
Qed.

Lemma startCount_nonneg (msgs : list Message) (who : jstring) : 0 <= startCount msgs who.
Proof.
  destruct msgs as [|m msgs]; cbn [startCount]; [lia|].
  pose proof (afterGapFrom_nonneg msgs who (date m)). destruct (str_eqb _ _); lia.
Qed.

Section Starters.

Variable tz : Z.

Lemma step_startersMap_later (st : Acc) (i : nat) (m : Message) (who : jstring) :
  getOr0 who (startersMap (step tz st (S i) m))
  = getOr0 who (startersMap st)
    + (if (date m - lastMsgTime st >? 21600000) && str_eqb (sender m) who then 1 else 0)
  /\ (NoDup (keys (startersMap st)) -> NoDup (keys (startersMap (step tz st (S i) m))))
  /\ lastMsgTime (step tz st (S i) m) = date m.
Proof.
  unfold step, silenceBreakerLogic; cbn [startersMap lastMsgTime Nat.eqb orb].
  change (6 * 60 * 60 * 1000) with 21600000.
  destruct (date m - lastMsgTime st >? 21600000); cbn [fst andb].
  - rewrite getOr0_incr. repeat split. apply NoDup_keys_incr.
  - repeat split; auto. lia.
Qed.

Lemma loop_startersMap_later (msgs : list Message) (who : jstring) :
  forall (st : Acc) (i : nat),
    getOr0 who (startersMap (forEachFrom tz (S i) msgs st))
    = getOr0 who (startersMap st) + afterGapFrom (lastMsgTime st) msgs who
    /\ (NoDup (keys (startersMap st)) ->
        NoDup (keys (startersMap (forEachFrom tz (S i) msgs st)))).
Proof.
  induction msgs as [|m msgs IH]; intros st i; cbn [forEachFrom afterGapFrom].
  - split; [lia | auto].
  - destruct (step_startersMap_later st i m who) as (Hg & Hnd & Hl).
    destruct (IH (step tz st (S i) m) (S i)) as (Hg' & Hnd').
    rewrite Hg', Hg, Hl. split; [lia | auto].
Qed.

Lemma loop_startersMap (msgs : list Message) (who : jstring) :
  getOr0 who (startersMap (forEachFrom tz 0 msgs initialAcc)) = startCount msgs who
  /\ NoDup (keys (startersMap (forEachFrom tz 0 msgs initialAcc))).
Proof.
  destruct msgs as [|m msgs]; [split; [reflexivity | constructor]|].
  cbn [forEachFrom startCount].
  destruct (loop_startersMap_later msgs who (step tz initialAcc 0 m) 0) as (Hg & Hnd).
  rewrite Hg. split.
  - unfold step at 1 2, silenceBreakerLogic; cbn [startersMap lastMsgTime Nat.eqb orb fst initialAcc].
    rewrite getOr0_incr. reflexivity.
  - apply Hnd. unfold step, silenceBreakerLogic; cbn [startersMap Nat.eqb orb fst initialAcc].
    apply NoDup_keys_incr. constructor.
Qed.

End Starters.

(** C9 fails as worded: the first message of the list is credited as a
    conversation start although no gap precedes it. Alice opens the chat and
    Bob writes seven hours later: Bob is the only sender of a message after
    a gap of more than six hours, and the silence breaker reported is
    Alice. *)
Lemma C9_opening_message_is_credited :
  breaker_name (silenceBreaker (analyzeMessages 0 (fun _ => 0) sevenHoursLater None)) = u "Alice"
  /\ afterGapCount sevenHoursLater (u "Alice") = 0
  /\ afterGapCount sevenHoursLater (u "Bob") = 1
  /\ ~ afterGapCount sevenHoursLater (u "Bob")
        <= afterGapCount sevenHoursLater
             (breaker_name (silenceBreaker (analyzeMessages 0 (fun _ => 0) sevenHoursLater None))).
Proof.
  repeat split; try (vm_compute; reflexivity).
  vm_compute. intros H. apply H. reflexivity.
Qed.

(** C9, amended: the [silenceBreaker.name] that [analyzeMessages] reports
    has at least as many conversation starts as every sender, where a
    conversation start is the first message of the filtered list or a
    message more than six hours after the one before it. *)
Theorem C9_silence_breaker_has_most_starts (tz : Z) (clock : nat -> Z) (msgs : list Message)
    (yearFilter : option Z) (who : jstring) :
  let filtered := filterMessages tz msgs yearFilter in
  let r := analyzeMessages tz clock msgs yearFilter in
  startCount filtered who <= startCount filtered (breaker_name (silenceBreaker r)).
Proof.
  cbv zeta. unfold analyzeMessages.
  destruct (filterMessages tz msgs yearFilter) as [|first rest] eqn:Hf; [cbn; lia|].
  cbn [silenceBreaker breaker_name].
  set (st := forEachFrom tz 0 (first :: rest) initialAcc).
  set (init := (_, -1)).
  assert (Hcount : forall w, getOr0 w (startersMap st) = startCount (first :: rest) w)
    by (intros w; apply loop_startersMap).
  assert (Hnd : NoDup (keys (startersMap st))) by (apply (loop_startersMap tz _ who)).
  destruct (argMax_spec (startersMap st) init) as (_ & _ & Hall & Hin).
  cbv zeta in Hall, Hin.
  set (best := argMax (startersMap st) init) in *.
  assert (Hfirst : 1 <= getOr0 (sender first) (startersMap st)).
  { rewrite Hcount. cbn [startCount]. rewrite str_eqb_refl.
    pose proof (afterGapFrom_nonneg rest (sender first) (date first)). lia. }
  assert (Hbest : In best (startersMap st)).
  { apply Hin. unfold getOr0 in Hfirst.
    destruct (get (sender first) (startersMap st)) as [c|] eqn:E; [|lia].
    exists (sender first, c). split; [now apply get_Some_In | subst init; cbn [snd]; lia]. }
  destruct best as [k v] eqn:Ebest. cbn [fst].
  apply (NoDup_In_get _ _ _ Hnd) in Hbest.
  rewrite <- (Hcount k). unfold getOr0 at 1. rewrite Hbest.
  rewrite <- (Hcount who). unfold getOr0.
  destruct (get who (startersMap st)) as [c|] eqn:E.
  - apply get_Some_In in E. apply Hall in E. cbn [snd] in E. exact E.
  - pose proof (startCount_nonneg (first :: rest) k) as Hk.
    rewrite <- Hcount in Hk. unfold getOr0 in Hk. rewrite Hbest in Hk. exact Hk.
Qed.

(** *** One-sided days *)

Lemma dayTotal_snoc (msgs : list Message) (m : Message) (d : jstring) :
  dayTotal (msgs ++ [m]) d
  = dayTotal msgs d + (if str_eqb (dateKeyOf (date m)) d then 1 else 0).
Proof.
  unfold dayTotal. rewrite filter_app, length_app. cbn [filter].
  destruct (str_eqb _ d); cbn [length]; lia.
Qed.

Lemma dayShare_snoc (msgs : list Message) (m : Message) (d who : jstring) :
  dayShare (msgs ++ [m]) d who
  = dayShare msgs d who
    + (if str_eqb (dateKeyOf (date m)) d && str_eqb (sender m) who then 1 else 0).
Proof.
  unfold dayShare. rewrite filter_app, length_app. cbn [filter].
  destruct (_ && _); cbn [length]; lia.
Qed.

Lemma day_without_messages (msgs : list Message) (d who : jstring) :
  ~ In d (map (fun m => dateKeyOf (date m)) msgs) ->
  dayTotal msgs d = 0 /\ dayShare msgs d who = 0.
Proof.
  unfold dayTotal, dayShare. induction msgs as [|m msgs IH]; cbn [map In filter]; intros Hn.
  - split; reflexivity.
  - assert (E : str_eqb (dateKeyOf (date m)) d = false) by (apply str_eqb_neq; tauto).
    rewrite E. cbn [andb]. apply IH. tauto.
Qed.

Lemma sum_values_incr (k : jstring) (m : jsmap Z) : sum (values (incr k m)) = sum (values m) + 1.
Proof.
  unfold incr. pose proof (sum_values_set (fun x => x) k (getOr0 k m + 1) m) as H.
  rewrite !map_id in H. rewrite H. unfold getOr0. destruct (get k m); lia.
Qed.

(** After the loop, [dailyBreakdown] has one entry per active day, and the
    entry of a day holds, for each sender, the number of its messages of
    that day. *)
Lemma loop_dailyBreakdown (tz : Z) (msgs : list Message) :
  let db := dailyBreakdown (forEachFrom tz 0 msgs initialAcc) in
  NoDup (keys db)
  /\ (forall d, In d (keys db) <-> In d (map (fun m => dateKeyOf (date m)) msgs))
  /\ (forall d userCounts, get d db = Some userCounts ->
        NoDup (keys userCounts)
        /\ (forall who, getOr0 who userCounts = dayShare msgs d who)
        /\ sum (values userCounts) = dayTotal msgs d).
Proof.
  induction msgs as [|m msgs IH] using rev_ind; cbv zeta.
  - cbn. split; [constructor|]. split; [tauto | discriminate].
  - rewrite forEachFrom_snoc. cbv zeta in IH. destruct IH as (Hnd & Hk & Hday).
    unfold step; cbn [dailyBreakdown].
    set (db := dailyBreakdown (forEachFrom tz 0 msgs initialAcc)) in *.
    set (dk := dateKeyOf (date m)).
    split; [now apply NoDup_keys_set|]. split.
    { intros d. rewrite In_keys_set, Hk, map_app, in_app_iff. cbn [map In]. fold dk. intuition. }
    intros d userCounts Hget.
    destruct (jstring_eq_dec dk d) as [<-|Hne].
    + rewrite get_set_same in Hget. inversion Hget; subst userCounts; clear Hget.
      assert (H0 : NoDup (keys (match get dk db with Some b => b | None => [] end))
                   /\ (forall who, getOr0 who (match get dk db with Some b => b | None => [] end)
                                   = dayShare msgs dk who)
                   /\ sum (values (match get dk db with Some b => b | None => [] end))
                      = dayTotal msgs dk).
      { destruct (get dk db) as [b|] eqn:E; [now apply Hday|].
        apply get_None_keys in E. rewrite Hk in E.
        split; [constructor|]. split.
        - intros who. destruct (day_without_messages msgs dk who E) as [_ ->]. reflexivity.
        - destruct (day_without_messages msgs dk [] E) as [-> _]. reflexivity. }
      destruct H0 as (Hnd0 & Hs0 & Ht0).
      split; [now apply NoDup_keys_incr|]. split.
      * intros who. rewrite getOr0_incr, Hs0, dayShare_snoc. fold dk.
        rewrite str_eqb_refl. reflexivity.
      * rewrite sum_values_incr, Ht0, dayTotal_snoc. fold dk. now rewrite str_eqb_refl.
    + rewrite get_set_other in Hget by exact Hne.
      destruct (Hday d userCounts Hget) as (Hnd0 & Hs0 & Ht0).
      assert (E : str_eqb dk d = false) by now apply str_eqb_neq.
      split; [exact Hnd0|]. split.
      * intros who. rewrite Hs0, dayShare_snoc. fold dk. rewrite E. cbn [andb]. lia.
      * rewrite Ht0, dayTotal_snoc. fold dk. rewrite E. lia.
Qed.

Lemma dominantEntries_absent (who : jstring) (total : Z) (userCounts : jsmap Z) :
  ~ In who (keys userCounts) -> dominantEntries who total userCounts = 0.
Proof.
  unfold dominantEntries. induction userCounts as [|[k v] l IH]; cbn [keys map fst filter In]; intros Hn.
  - reflexivity.
  - assert (E : str_eqb k who = false) by (apply str_eqb_neq; tauto).
    cbn [fst snd]. rewrite E. cbn [andb]. apply IH. tauto.
Qed.

Lemma dominantEntries_NoDup (who : jstring) (total : Z) (userCounts : jsmap Z) :
  NoDup (keys userCounts) -> 0 < total ->
  dominantEntries who total userCounts
  = if 4 * getOr0 who userCounts >? 3 * total then 1 else 0.
Proof.
  intros Hnd Ht. induction userCounts as [|[k v] l IH].
  - unfold dominantEntries, getOr0. cbn [filter length get]. change (4 * 0) with 0.
    destruct (0 >? 3 * total) eqn:E; [apply Z.gtb_lt in E; lia | reflexivity].
  - cbn [keys map fst] in Hnd. inversion Hnd as [|? ? Hnotin Hnd']; subst.
    unfold getOr0. cbn [get]. rewrite (str_eqb_sym who k).
    unfold dominantEntries in *. cbn [filter fst snd].
    destruct (str_eqb k who) eqn:E; cbn [andb].
    + apply str_eqb_eq in E. subst k.
      pose proof (dominantEntries_absent who total l Hnotin) as H0.
      unfold dominantEntries in H0.
      destruct (4 * v >? 3 * total); cbn [length]; lia.
    + apply IH. exact Hnd'.
Qed.

Lemma oneSidedDay_oneSidedOf (um : jsmap UStat) (day : jstring * jsmap Z) (who : jstring) :
  In who (keys um) ->
  oneSidedOf (oneSidedDay um day) who = oneSidedOf um who + dayBump who day
  /\ keys (oneSidedDay um day) = keys um.
Proof.
  unfold oneSidedDay, dayBump. cbv zeta.
  generalize (sum (values (snd day))) as total. intros total.
  destruct (total >? 10); [|split; [lia | reflexivity]].
  unfold dominantEntries. generalize dependent um.
  induction (snd day) as [|e l IH]; intros um Hin; cbn [fold_left filter].
  - split; [cbn; lia | reflexivity].
  - destruct (4 * snd e >? 3 * total) eqn:E.
    + destruct (IH (bumpOneSided (fst e) um)) as (Ho & Hk);
        [now rewrite bumpOneSided_keys|].
      rewrite Ho, Hk, bumpOneSided_keys, bumpOneSided_oneSidedOf by exact Hin.
      split; [|reflexivity].
      destruct (str_eqb (fst e) who); cbn [andb length]; lia.
    + destruct (IH um Hin) as (Ho & Hk). rewrite Ho, Hk. split; [|reflexivity].
      rewrite andb_false_r. lia.
Qed.

Lemma oneSidedDays_oneSidedOf (db : jsmap (jsmap Z)) :
  forall (um : jsmap UStat) (who : jstring),
    In who (keys um) ->
    oneSidedOf (oneSidedDays db um) who = oneSidedOf um who + sum (map (dayBump who) db).
Proof.
  unfold oneSidedDays. induction db as [|day db IH]; intros um who Hin; cbn [fold_left map].
  - rewrite sum_nil. lia.
  - destruct (oneSidedDay_oneSidedOf um day who Hin) as (Ho & Hk).
    rewrite IH by now rewrite Hk. rewrite Ho, sum_cons. lia.
Qed.

Lemma sum_indicator {A : Type} (f : A -> bool) (l : list A) :
  sum (map (fun x => if f x then 1 else 0) l) = Z.of_nat (length (filter f l)).
Proof.
  induction l as [|x l IH]; cbn [map filter]; [reflexivity|].
  rewrite sum_cons, IH. destruct (f x); cbn [length]; lia.
Qed.

Lemma In_indexed {A : Type} (l : list A) :
  forall (i j : Z) (x : A), In (j, x) (indexed i l) -> In x l.
Proof.
  induction l as [|y l IH]; intros i j x; cbn [indexed In]; [tauto|].
  intros [H|H]; [inversion H; now left | right; eauto].
Qed.

Lemma In_indexed_inv {A : Type} (l : list A) (x : A) :
  In x l -> forall i, exists j, In (j, x) (indexed i l).
Proof.
  induction l as [|y l IH]; cbn [In indexed]; [tauto|].
  intros [->|H] i; [exists i; now left|].
  destruct (IH H (i + 1)) as [j Hj]. exists j. now right.
Qed.

(** The one-sided counter reported for a user is the number of active days
    that are one-sided for it. *)
Lemma one_sided_counter (tz : Z) (msgs : list Message) (who : jstring) :
  let st := forEachFrom tz 0 msgs initialAcc in
  In who (keys (userMap st)) ->
  oneSidedOf (oneSidedDays (dailyBreakdown st) (userMap st)) who = oneSidedDayCount msgs who.
Proof.
  cbv zeta. intros Hin.
  set (st := forEachFrom tz 0 msgs initialAcc) in *.
  destruct (loop_userMap tz msgs) as (Hndu & _ & _ & Hzero). fold st in Hndu, Hzero.
  destruct (loop_dailyBreakdown tz msgs) as (Hnd & Hk & Hday). fold st in Hnd, Hk, Hday.
  rewrite oneSidedDays_oneSidedOf by exact Hin.
  assert (H0 : oneSidedOf (userMap st) who = 0).
  { unfold oneSidedOf. destruct (get who (userMap st)) as [s|] eqn:E; [|reflexivity].
    apply get_Some_In in E. eauto. }
  rewrite H0.
  assert (Hmap : map (dayBump who) (dailyBreakdown st)
                 = map (fun d => if oneSidedOn msgs who d then 1 else 0) (keys (dailyBreakdown st))).
  { unfold keys. rewrite map_map. apply map_ext_in. intros [d userCounts] Hin'. cbn [fst].
    apply (NoDup_In_get _ _ _ Hnd) in Hin'.
    destruct (Hday d userCounts Hin') as (Hndi & Hshare & Htotal).
    unfold dayBump, oneSidedOn. cbn [snd]. rewrite Htotal.
    destruct (dayTotal msgs d >? 10) eqn:E; cbn [andb]; [|reflexivity].
    apply Z.gtb_lt in E. rewrite dominantEntries_NoDup by (auto; lia). now rewrite Hshare. }
  rewrite Hmap. unfold oneSidedDayCount. rewrite <- sum_indicator.
  rewrite Z.add_0_l. apply sum_Permutation, Permutation_map.
  apply NoDup_Permutation; [exact Hnd | apply NoDup_nodup |].
  intros d. unfold activeDays. now rewrite nodup_In, Hk.
Qed.

(** C7, as the code has it: the days of the one-sided counter are days of
    UTC, not days of the transcript. On a host at UTC+05:30 the eleven
    messages of 13 May 2023 from 5:25 to 5:35, 9 of them Alice's, lie on one
    local calendar day, yet the code files the first five under 2023-05-12
    and the other six under 2023-05-13, neither key has more than 10
    messages, and Alice's counter stays 0; the same transcript read on a
    host at UTC gives Alice's counter 1. *)
Theorem C7_local_day_is_split_over_two_keys (clock : nat -> Z) (language : jstring) :
  let msgs := messages (parseChatFile 330 language earlyMorningChat) in
  let r := analyzeMessages 330 clock msgs None in
  map (fun m => localTime 330 (date m) / msPerDay) msgs
  = repeat (days_from_civil 2023 5 13) 11
  /\ sentBy msgs (u "Alice") = 9
  /\ map (fun m => dateKeyOf (date m)) msgs
     = repeat (u "2023-05-12") 5 ++ repeat (u "2023-05-13") 6
  /\ map (fun us => (name us, oneSidedConversationsCount us)) (users r)
     = [(u "Alice", 0); (u "Bob", 0)]
  /\ map (fun us => (name us, oneSidedConversationsCount us))
       (users (analyzeMessages 0 clock
                 (messages (parseChatFile 0 language earlyMorningChat)) None))
     = [(u "Alice", 1); (u "Bob", 0)].
Proof.
  cbv zeta. repeat split; vm_compute; reflexivity.
Qed.

(** X28: the one-sided counter of every user of the result is the number of
    UTC days (date keys of [toISOString]) with more than 10 filtered
    messages of which that user sent more than 75%, every sender of the
    filtered list being such a user. *)
Theorem X28_one_sided_counter (tz : Z) (clock : nat -> Z) (msgs : list Message)
    (yearFilter : option Z) :
  let filtered := filterMessages tz msgs yearFilter in
  let r := analyzeMessages tz clock msgs yearFilter in
  (forall us, In us (users r) ->
              oneSidedConversationsCount us = oneSidedDayCount filtered (name us))
  /\ (forall m, In m filtered -> exists us, In us (users r) /\ name us = sender m).
Proof.
  cbv zeta. split.
  - unfold analyzeMessages.
    destruct (filterMessages tz msgs yearFilter) as [|first rest] eqn:Hf; [intros us []|].
    cbn [users]. set (st := forEachFrom tz 0 (first :: rest) initialAcc).
    intros us Hus. unfold finalizeUsers in Hus. apply in_map_iff in Hus.
    destruct Hus as ([i n] & <- & Hin). apply In_indexed in Hin.
    unfold sortedUserNames in Hin.
    apply (Permutation_in _ (sort_Permutation _ _)) in Hin.
    pose proof Hin as Hin0. rewrite oneSidedDays_keys in Hin0.
    unfold finalizeUser. cbn [snd name oneSidedConversationsCount].
    rewrite <- (one_sided_counter tz (first :: rest) n Hin0). fold st.
    unfold oneSidedOf.
    apply In_keys_get in Hin. destruct Hin as [s ->]. reflexivity.
  - unfold analyzeMessages.
    destruct (filterMessages tz msgs yearFilter) as [|first rest] eqn:Hf; [intros m []|].
    cbn [users]. set (st := forEachFrom tz 0 (first :: rest) initialAcc).
    intros m Hm.
    destruct (loop_userMap tz (first :: rest)) as (_ & Hk & _). fold st in Hk.
    assert (Hin : In (sender m) (sortedUserNames (oneSidedDays (dailyBreakdown st) (userMap st)))).
    { unfold sortedUserNames. apply (Permutation_in _ (Permutation_sym (sort_Permutation _ _))).
      rewrite oneSidedDays_keys. apply Hk. now apply in_map. }
    destruct (In_indexed_inv _ _ Hin 0) as [j Hj].
    exists (finalizeUser (oneSidedDays (dailyBreakdown st) (userMap st)) (j, sender m)).
    split; [|reflexivity]. unfold finalizeUsers. now apply in_map.
Qed.

(** A day of 11 messages, 9 of them Alice's, on a host at UTC. *)
Lemma X28_one_sided_counter_witness :
  exists us, In us (users (analyzeMessages 0 (fun _ => 0) elevenMessages (Some 2023)))
             /\ oneSidedConversationsCount us
                = oneSidedDayCount (filterMessages 0 elevenMessages (Some 2023)) (name us)
             /\ name us = u "Alice".
Proof.
  destruct (proj2 (X28_one_sided_counter 0 (fun _ => 0) elevenMessages (Some 2023))
              (msg 1683882000000 (u "Alice") (u "hi")))
    as (us & Hin & Hname); [vm_compute; auto|].
  exists us. split; [exact Hin|]. split; [|exact Hname].
  exact (proj1 (X28_one_sided_counter 0 (fun _ => 0) elevenMessages (Some 2023)) us Hin).
Defined.

(** *** The timestamp pattern *)

Section CharacterClasses.

Implicit Type x : char.

Lemma isChar_iff (a : ascii) x : isChar a x = true <-> x = N_of_ascii a.
Proof. unfold isChar. apply N.eqb_eq. Qed.

Lemma between_iff (lo hi : N) x : between lo hi x = true <-> (lo <= x <= hi)%N.
Proof. unfold between. now rewrite andb_true_iff, !N.leb_le. Qed.

Lemma isDigit_iff x : isDigit x = true <-> (48 <= x <= 57)%N.
Proof. apply between_iff. Qed.

Lemma isAlpha_iff x : isAlpha x = true <-> ((97 <= x <= 122) \/ (65 <= x <= 90))%N.
Proof. unfold isAlpha. now rewrite orb_true_iff, !between_iff. Qed.

Lemma isDateSep_iff x : isDateSep x = true <-> (x = 45 \/ x = 46 \/ x = 47)%N.
Proof. unfold isDateSep. rewrite !orb_true_iff, !isChar_iff. cbn. tauto. Qed.

Lemma isCommaDot_iff x : isCommaDot x = true <-> (x = 44 \/ x = 46)%N.
Proof. unfold isCommaDot. rewrite !orb_true_iff, !isChar_iff. cbn. tauto. Qed.

Lemma isColonDot_iff x : isColonDot x = true <-> (x = 58 \/ x = 46)%N.
Proof. unfold isColonDot. rewrite !orb_true_iff, !isChar_iff. cbn. tauto. Qed.

Lemma isSpace_bound x : isSpace x = true -> (9 <= x <= 13 \/ x = 32 \/ 160 <= x)%N.
Proof.
  unfold isSpace. rewrite !orb_true_iff, !between_iff, !N.eqb_eq. lia.
Qed.

Lemma digit_not_space x : isDigit x = true -> isSpace x = false.
Proof.
  rewrite isDigit_iff. intros H. apply not_true_iff_false. intros E.
  apply isSpace_bound in E. lia.
Qed.

Lemma digit_not_dateSep x : isDigit x = true -> isDateSep x = false.
Proof.
  rewrite isDigit_iff. intros H. apply not_true_iff_false. rewrite isDateSep_iff. lia.
Qed.

Lemma digit_not_bracket x : isDigit x = true -> isChar "[" x = false.
Proof.
  rewrite isDigit_iff. intros H. apply not_true_iff_false. rewrite isChar_iff. cbn. lia.
Qed.

Lemma dateSep_not_digit x : isDateSep x = true -> isDigit x = false.
Proof.
  rewrite isDateSep_iff. intros H. apply not_true_iff_false. rewrite isDigit_iff. lia.
Qed.

Lemma colonDot_not_digit x : isColonDot x = true -> isDigit x = false.
Proof.
  rewrite isColonDot_iff. intros H. apply not_true_iff_false. rewrite isDigit_iff. lia.
Qed.

Lemma commaDot_not_digit x : isCommaDot x = true -> isDigit x = false.
Proof.
  rewrite isCommaDot_iff. intros H. apply not_true_iff_false. rewrite isDigit_iff. lia.
Qed.

Lemma space_not_digit x : isSpace x = true -> isDigit x = false.
Proof.
  intros H. apply not_true_iff_false. rewrite isDigit_iff. apply isSpace_bound in H. lia.
Qed.

Lemma space_not_commaDot x : isSpace x = true -> isCommaDot x = false.
Proof.
  intros H. apply not_true_iff_false. rewrite isCommaDot_iff. apply isSpace_bound in H. lia.
Qed.

Lemma space_not_colonDot x : isSpace x = true -> isColonDot x = false.
Proof.
  intros H. apply not_true_iff_false. rewrite isColonDot_iff. apply isSpace_bound in H. lia.
Qed.

Lemma alpha_not_colonDot x : isAlpha x = true -> isColonDot x = false.
Proof.
  rewrite isAlpha_iff. intros H. apply not_true_iff_false. rewrite isColonDot_iff. lia.
Qed.

Lemma alpha_not_space x : isAlpha x = true -> isSpace x = false.
Proof.
  rewrite isAlpha_iff. intros H. apply not_true_iff_false. intros E.
  apply isSpace_bound in E. lia.
Qed.

End CharacterClasses.

Section Matching.

Lemma firstn_token (tok rest : jstring) :
  firstn (length (tok ++ rest) - length rest) (tok ++ rest) = tok.
Proof.
  rewrite length_app, Nat.add_sub. rewrite firstn_app, Nat.sub_diag, firstn_all.
  cbn [firstn]. apply app_nil_r.
Qed.

Lemma run_cls_cons (p : char -> bool) (x : char) (s : jstring) (c : captures) (k : cont) :
  run (Cls p) (x :: s) c k = if p x then k s c else None.
Proof. reflexivity. Qed.

Lemma rep_cls (p : char -> bool) (tok : jstring) :
  forall (rest : jstring) (lo hi : nat) (c : captures) (k : cont) (res : jstring * captures),
    forallb p tok = true ->
    (lo <= length tok)%nat -> (length tok <= hi)%nat ->
    length tok = hi \/ headNot p rest ->
    k rest c = Some res ->
    rep (run (Cls p)) lo hi (tok ++ rest) c k = Some res.
Proof.
  induction tok as [|x tok IH]; intros rest lo hi c k res Hall Hlo Hhi Hstop Hk.
  - cbn [length] in Hlo. assert (lo = 0%nat) by lia. subst lo. cbn [app].
    destruct hi; cbn [rep]; [exact Hk|].
    destruct Hstop as [Hstop|Hstop]; [discriminate|].
    destruct rest as [|y rest]; [exact Hk|].
    rewrite run_cls_cons. cbn [headNot] in Hstop. rewrite Hstop. exact Hk.
  - cbn [length] in Hlo, Hhi. destruct hi as [|hi]; [lia|].
    cbn [forallb] in Hall. apply andb_true_iff in Hall. destruct Hall as [Hx Hall].
    cbn [app rep]. rewrite run_cls_cons, Hx.
    rewrite (IH rest (pred lo) hi c k res); auto; try lia.
    destruct Hstop as [Hstop|Hstop]; [left; cbn [length] in Hstop; lia | now right].
Qed.

Lemma run_opt (r : regex) (s : jstring) (c : captures) (k : cont) :
  run (opt r) s c k = match run r s c k with Some res => Some res | None => k s c end.
Proof. reflexivity. Qed.

Lemma eats_cls (p : char -> bool) (x : char) (rest : jstring) :
  p x = true -> eats (Cls p) [x] rest (fun c => c).
Proof. intros Hx c k res Hk. cbn [app run]. now rewrite Hx. Qed.

Lemma eats_times (p : char -> bool) (lo hi : nat) (tok rest : jstring) :
  forallb p tok = true -> (lo <= length tok)%nat -> (length tok <= hi)%nat ->
  length tok = hi \/ headNot p rest ->
  eats (times lo hi (Cls p)) tok rest (fun c => c).
Proof.
  intros Hall Hlo Hhi Hstop c k res Hk. unfold times. cbn [run].
  now apply rep_cls.
Qed.

Lemma eats_plus (p : char -> bool) (tok rest : jstring) :
  forallb p tok = true -> (1 <= length tok)%nat -> headNot p rest ->
  eats (plus (Cls p)) tok rest (fun c => c).
Proof.
  intros Hall Hlo Hstop c k res Hk. unfold plus. cbn [run].
  apply rep_cls; auto. rewrite length_app. lia.
Qed.

Lemma eats_cat (r1 r2 : regex) (t1 t2 rest : jstring) (f1 f2 : captures -> captures) :
  eats r1 t1 (t2 ++ rest) f1 -> eats r2 t2 rest f2 ->
  eats (Cat r1 r2) (t1 ++ t2) rest (fun c => f2 (f1 c)).
Proof.
  intros H1 H2 c k res Hk. cbn [run]. rewrite <- app_assoc.
  apply H1. apply H2. exact Hk.
Qed.

Lemma eats_opt_present (r : regex) (tok rest : jstring) (f : captures -> captures) :
  eats r tok rest f -> eats (opt r) tok rest f.
Proof.
  intros H c k res Hk. rewrite run_opt. now rewrite (H c k res Hk).
Qed.

Lemma eats_opt_absent (r : regex) (rest : jstring) :
  (forall c k, run r rest c k = None) -> eats (opt r) [] rest (fun c => c).
Proof.
  intros H c k res Hk. cbn [app]. rewrite run_opt, H. exact Hk.
Qed.

Lemma eats_grp (i : nat) (r : regex) (tok rest : jstring) :
  eats r tok rest (fun c => c) -> eats (Grp i r) tok rest (fun c => (i, tok) :: c).
Proof.
  intros H c k res Hk. cbn [run]. apply H. now rewrite firstn_token.
Qed.

Lemma run_cat_eats (r1 r2 : regex) (tok rest : jstring) (f : captures -> captures)
    (c : captures) (k : cont) (res : jstring * captures) :
  eats r1 tok rest f -> run r2 rest (f c) k = Some res ->
  run (Cat r1 r2) (tok ++ rest) c k = Some res.
Proof. intros H Hk. cbn [run]. now apply H. Qed.

Lemma cls_fails (p : char -> bool) (r : regex) (s : jstring) :
  headNot p s -> forall c k, run (Cat (Cls p) r) s c k = None.
Proof.
  intros H c k. cbn [run]. destruct s as [|x s]; [reflexivity|].
  cbn [headNot] in H. now rewrite H.
Qed.

Lemma cls_alone_fails (p : char -> bool) (s : jstring) :
  headNot p s -> forall c k, run (Cls p) s c k = None.
Proof.
  intros H c k. cbn [run]. destruct s as [|x s]; [reflexivity|].
  cbn [headNot] in H. now rewrite H.
Qed.

End Matching.

Section TimestampPattern.

Lemma eats_cat_id (r1 r2 : regex) (t1 t2 rest : jstring) :
  eats r1 t1 (t2 ++ rest) (fun c => c) -> eats r2 t2 rest (fun c => c) ->
  eats (Cat r1 r2) (t1 ++ t2) rest (fun c => c).
Proof. intros H1 H2. exact (eats_cat _ _ _ _ _ _ _ H1 H2). Qed.

Lemma digitsb_inv (lo hi : nat) (s : jstring) :
  digitsb lo hi s = true ->
  forallb isDigit s = true /\ (lo <= length s)%nat /\ (length s <= hi)%nat.
Proof.
  unfold digitsb. rewrite !andb_true_iff, !Nat.leb_le. tauto.
Qed.

Lemma lettersb_inv (s : jstring) :
  lettersb s = true ->
  forallb isAlpha s = true /\ (1 <= length s)%nat /\ (length s <= 2)%nat.
Proof.
  unfold lettersb. rewrite !andb_true_iff, !Nat.leb_le. tauto.
Qed.

Lemma headNot_app (p q : char -> bool) (s rest : jstring) :
  (forall x, q x = true -> p x = false) ->
  forallb q s = true -> (1 <= length s)%nat -> headNot p (s ++ rest).
Proof.
  intros Hpq Hall Hlen. destruct s as [|x s]; [cbn in Hlen; lia|].
  cbn [forallb] in Hall. apply andb_true_iff in Hall. cbn [app headNot]. apply Hpq, Hall.
Qed.

(** The date group takes the three components and their separators. *)
Lemma date_group_eats (st : Stamp) (rest : jstring) :
  digitsb 1 4 (d1 st) = true -> digitsb 1 2 (d2 st) = true -> digitsb 2 4 (d3 st) = true ->
  isDateSep (s1 st) = true -> isDateSep (s2 st) = true ->
  headNot isDigit rest ->
  eats (Grp 1 (times 1 4 (Cls isDigit) ·· Cls isDateSep ··
               times 1 2 (Cls isDigit) ·· Cls isDateSep ··
               times 2 4 (Cls isDigit))%re)
       (dateToken st) rest (fun c => (1%nat, dateToken st) :: c).
Proof.
  intros H1 H2 H3 Hs1 Hs2 Hrest.
  apply digitsb_inv in H1, H2, H3.
  destruct H1 as (A1 & L1 & U1), H2 as (A2 & L2 & U2), H3 as (A3 & L3 & U3).
  apply eats_grp. unfold dateToken.
  change (d1 st ++ s1 st :: d2 st ++ s2 st :: d3 st)
    with (d1 st ++ ([s1 st] ++ (d2 st ++ ([s2 st] ++ d3 st)))).
  apply eats_cat_id.
  { apply eats_times; auto. right. cbn [app headNot]. now apply dateSep_not_digit. }
  apply eats_cat_id; [now apply eats_cls|].
  apply eats_cat_id.
  { apply eats_times; auto. right. cbn [app headNot]. now apply dateSep_not_digit. }
  apply eats_cat_id; [now apply eats_cls|].
  apply eats_times; auto.
Qed.

(** What follows the time: one of the two dialect separators. *)
Lemma dialect_cases (st : Stamp) :
  str_eqb (dialect st) (u "] ") || str_eqb (dialect st) (u " - ") = true ->
  dialect st = [93; 32]%N \/ dialect st = [32; 45; 32]%N.
Proof.
  rewrite orb_true_iff, !str_eqb_eq. intros [->| ->]; [left | right]; reflexivity.
Qed.

Lemma meridiem_eats (mer after : jstring) :
  match mer with
  | [] => true
  | w :: l => if isSpace w then lettersb l else lettersb (w :: l)
  end = true ->
  (exists rest, after = [93; 32]%N ++ rest \/ after = [32; 45; 32]%N ++ rest) ->
  eats (opt (opt (Cls isSpace) ·· times 1 2 (Cls isAlpha)))%re mer after (fun c => c).
Proof.
  intros Hmer (rest & Hafter).
  assert (Hhead : headNot isAlpha after) by (destruct Hafter as [-> | ->]; reflexivity).
  destruct mer as [|w l].
  - apply eats_opt_absent. intros c k. destruct Hafter as [-> | ->]; reflexivity.
  - destruct (isSpace w) eqn:Hw.
    + apply lettersb_inv in Hmer. destruct Hmer as (Ha & Hl & Hu).
      apply eats_opt_present. change (w :: l) with ([w] ++ l).
      apply eats_cat_id; [apply eats_opt_present; now apply eats_cls|].
      apply eats_times; auto.
    + apply lettersb_inv in Hmer. destruct Hmer as (Ha & Hl & Hu).
      apply eats_opt_present. change (w :: l) with ([] ++ (w :: l)).
      apply eats_cat_id.
      * apply eats_opt_absent. apply cls_alone_fails. cbn [app headNot]. exact Hw.
      * apply eats_times; auto.
Qed.

Lemma seconds_eats (secs after : jstring) :
  match secs with
  | [] => true
  | [c; a; b] => isColonDot c && isDigit a && isDigit b
  | _ => false
  end = true ->
  headNot isColonDot after ->
  eats (opt (Cls isColonDot ·· times 2 2 (Cls isDigit)))%re secs after (fun c => c).
Proof.
  intros Hs Hhead. destruct secs as [|c [|a [|b [|? ?]]]]; try discriminate.
  - apply eats_opt_absent. now apply cls_fails.
  - rewrite !andb_true_iff in Hs. destruct Hs as ((Hc & Ha) & Hb).
    apply eats_opt_present. change [c; a; b] with ([c] ++ [a; b]).
    apply eats_cat_id; [now apply eats_cls|].
    apply eats_times; cbn [forallb length]; auto. now rewrite Ha, Hb.
Qed.

Lemma meridiem_head (mer after : jstring) :
  match mer with
  | [] => true
  | w :: l => if isSpace w then lettersb l else lettersb (w :: l)
  end = true ->
  headNot isColonDot after -> headNot isColonDot (mer ++ after).
Proof.
  intros Hmer Hafter. destruct mer as [|w l]; [exact Hafter|].
  cbn [app headNot]. destruct (isSpace w) eqn:Hw; [now apply space_not_colonDot|].
  apply lettersb_inv in Hmer. destruct Hmer as (Ha & _).
  cbn [forallb] in Ha. apply andb_true_iff in Ha. now apply alpha_not_colonDot.
Qed.

(** The time group takes hours, minutes, seconds and meridiem. *)
Lemma time_group_eats (st : Stamp) (rest : jstring) :
  stampShape st = true ->
  eats (Grp 2 (times 1 2 (Cls isDigit) ·· Cls isColonDot ··
               times 2 2 (Cls isDigit) ··
               opt (Cls isColonDot ·· times 2 2 (Cls isDigit)) ··
               opt (opt (Cls isSpace) ·· times 1 2 (Cls isAlpha)))%re)
       (timeToken st) (dialect st ++ rest) (fun c => (2%nat, timeToken st) :: c).
Proof.
  unfold stampShape. rewrite !andb_true_iff.
  intros ((((((((((_ & _) & _) & _) & _) & Hhh) & Ht1) & Hmm) & Hsec) & Hmer) & Hdia).
  apply digitsb_inv in Hhh, Hmm.
  destruct Hhh as (Ah & Lh & Uh), Hmm as (Am & Lm & Um).
  apply dialect_cases in Hdia.
  assert (Hafter : exists r, dialect st ++ rest = [93; 32]%N ++ r
                             \/ dialect st ++ rest = [32; 45; 32]%N ++ r)
    by (exists rest; destruct Hdia as [-> | ->]; auto).
  assert (Hcd : headNot isColonDot (dialect st ++ rest))
    by (destruct Hdia as [-> | ->]; reflexivity).
  apply eats_grp. unfold timeToken.
  change (hh st ++ t1 st :: mm st ++ seconds st ++ meridiem st)
    with (hh st ++ ([t1 st] ++ (mm st ++ (seconds st ++ meridiem st)))).
  apply eats_cat_id.
  { apply eats_times; auto. right. cbn [app headNot]. now apply colonDot_not_digit. }
  apply eats_cat_id; [now apply eats_cls|].
  apply eats_cat_id; [apply eats_times; auto; left; lia|].
  apply eats_cat_id.
  - apply seconds_eats; [exact Hsec|]. now apply meridiem_head.
  - now apply meridiem_eats.
Qed.

(** The end of the pattern never fails and captures nothing. *)
Lemma pattern_tail (s : jstring) (c : captures) :
  exists s',
    run (opt (Cls (isChar "]")) ·· opt (Cls isSpace ·· Cls (isChar "-") ·· Cls isSpace))%re
        s c (fun s' c' => Some (s', c'))
    = Some (s', c).
Proof.
  cbn [run]. rewrite run_opt.
  assert (Hsecond : forall t, exists s',
            run (opt (Cls isSpace ·· Cls (isChar "-") ·· Cls isSpace))%re t c
                (fun s' c' => Some (s', c')) = Some (s', c)).
  { intros t. rewrite run_opt.
    destruct (run (Cls isSpace ·· Cls (isChar "-") ·· Cls isSpace)%re t c _) as [[s' c']|] eqn:E;
      [|eauto].
    exists s'. f_equal. f_equal.
    cbn [run] in E.
    destruct t as [|x [|y [|z t]]]; try discriminate;
      repeat match type of E with
             | (if ?b then _ else _) = _ => destruct b; try discriminate
             end.
    now inversion E. }
  destruct s as [|x s]; [apply Hsecond|].
  rewrite run_cls_cons. destruct (isChar "]" x).
  - destruct (Hsecond s) as [s' Hs']. rewrite Hs'. eauto.
  - apply Hsecond.
Qed.

(** C8, amended: every line that begins with a date token of one to four,
    one or two, and two to four digits between separators [/], [.] or [-],
    followed by a time token and one of the two dialect separators, matches
    the pattern, and the two groups are exactly the date token and the time
    token. *)
Theorem C8_pattern_matches_stamped_lines (st : Stamp) (rest : jstring) :
  patternStamp st = true ->
  exists m, match_ TIMESTAMP_PATTERN (lineOf st rest) = Some m
            /\ m1 m = dateToken st /\ m2 m = timeToken st.
Proof.
  intros Hst. unfold patternStamp in Hst. rewrite !andb_true_iff in Hst.
  destruct Hst as (((Hd1 & Hd2) & Hd3) & Hshape).
  pose proof (time_group_eats st rest Hshape) as Htime.
  pose proof Hshape as Hshape'. unfold stampShape in Hshape'. rewrite !andb_true_iff in Hshape'.
  destruct Hshape' as ((((((((((Hs1 & Hs2) & Hcomma) & Hgap) & Hgaplen) & Hhh) & _) & _) & _) & _) & _).
  apply Nat.leb_le in Hgaplen.
  destruct (digitsb_inv _ _ _ Hhh) as (Ah & Lh & _).
  destruct (digitsb_inv _ _ _ Hd1) as (A1 & L1 & _).
  destruct (pattern_tail (dialect st ++ rest) [(2%nat, timeToken st); (1%nat, dateToken st)])
    as [s' Htail].
  assert (Hrun : run TIMESTAMP_PATTERN (lineOf st rest) [] (fun s' c' => Some (s', c'))
                 = Some (s', [(2%nat, timeToken st); (1%nat, dateToken st)])).
  { unfold TIMESTAMP_PATTERN, lineOf.
    apply run_cat_eats with (f := fun c => c).
    { destruct (bracket st).
      - apply eats_opt_present. now apply eats_cls.
      - apply eats_opt_absent. apply cls_alone_fails.
        unfold dateToken. rewrite <- app_assoc.
        apply headNot_app with (q := isDigit); auto. apply digit_not_bracket. }
    apply run_cat_eats with (f := fun c => (1%nat, dateToken st) :: c).
    { apply date_group_eats; auto.
      destruct (comma st) as [|x [|? ?]]; try discriminate.
      - cbn [app]. apply headNot_app with (q := isSpace); auto. apply space_not_digit.
      - cbn [app headNot]. now apply commaDot_not_digit. }
    apply run_cat_eats with (f := fun c => c).
    { destruct (comma st) as [|x [|? ?]]; try discriminate.
      - apply eats_opt_absent. apply cls_alone_fails.
        apply headNot_app with (q := isSpace); auto. apply space_not_commaDot.
      - apply eats_opt_present. now apply eats_cls. }
    apply run_cat_eats with (f := fun c => c).
    { apply eats_plus; auto. unfold timeToken. rewrite <- app_assoc.
      apply headNot_app with (q := isDigit); auto. apply digit_not_space. }
    apply run_cat_eats with (f := fun c => (2%nat, timeToken st) :: c); [exact Htime|].
    exact Htail. }
  unfold match_. rewrite Hrun. eexists. split; [reflexivity|]. split; reflexivity.
Qed.

End TimestampPattern.

(** C8 fails as worded: a month of three digits is within "1-4 digits", and
    the line does not match. *)
Lemma C8_three_digit_month_does_not_match :
  specStamp (androidStamp (u "005")) = true
  /\ lineOf (androidStamp (u "005")) (u "Alice: hello") = u "12/005/23, 9:00 - Alice: hello"
  /\ match_ TIMESTAMP_PATTERN (lineOf (androidStamp (u "005")) (u "Alice: hello")) = None.
Proof. repeat split. Qed.

Lemma C8_pattern_witness :
  exists m, match_ TIMESTAMP_PATTERN (u "12/05/23, 9:00 - Alice: hello") = Some m
            /\ m1 m = u "12/05/23" /\ m2 m = u "9:00".
Proof.
  exact (C8_pattern_matches_stamped_lines (androidStamp (u "05")) (u "Alice: hello") eq_refl).
Defined.

(* ===================================================================== *)
(** ** Further properties of the engine *)
(* ===================================================================== *)

(** *** Who the users are *)

Lemma firstSeenInto_snoc (l : list jstring) :
  forall (seen : list jstring) (x : jstring),
    firstSeenInto seen (l ++ [x])
    = if existsb (str_eqb x) (firstSeenInto seen l)
      then firstSeenInto seen l
      else firstSeenInto seen l ++ [x].
Proof.
  induction l as [|y l IH]; intros seen x; cbn [app firstSeenInto]; [reflexivity|].
  apply IH.
Qed.

Lemma has_existsb {V : Type} (k : jstring) (m : jsmap V) :
  has k m = existsb (str_eqb k) (keys m).
Proof.
  unfold has. induction m as [|[k' v] m IH]; cbn [get keys map fst existsb]; [reflexivity|].
  destruct (str_eqb k k'); [reflexivity | exact IH].
Qed.

Lemma existsb_str_In (x : jstring) (l : list jstring) :
  existsb (str_eqb x) l = true <-> In x l.
Proof.
  rewrite existsb_exists. split.
  - intros (y & Hy & E). apply str_eqb_eq in E. now subst.
  - intros H. exists x. split; [exact H | apply str_eqb_refl].
Qed.

Lemma step_userMap_keys (tz : Z) (st : Acc) (i : nat) (m : Message) :
  keys (userMap (step tz st i m))
  = if existsb (str_eqb (sender m)) (keys (userMap st))
    then keys (userMap st) else keys (userMap st) ++ [sender m].
Proof.
  unfold step; cbn [userMap]. rewrite <- has_existsb.
  unfold has. destruct (get (sender m) (userMap st)) as [s0|] eqn:E.
  - rewrite E. rewrite keys_set. unfold has. now rewrite E.
  - rewrite get_set_same. rewrite !keys_set.
    unfold has. now rewrite get_set_same, E.
Qed.

Lemma step_userMap_countOf (tz : Z) (st : Acc) (i : nat) (m : Message) (who : jstring) :
  countOf (userMap (step tz st i m)) who
  = countOf (userMap st) who + (if str_eqb (sender m) who then 1 else 0).
Proof.
  unfold step; cbn [userMap]. unfold has, countOf.
  destruct (get (sender m) (userMap st)) as [s0|] eqn:E.
  - rewrite E. destruct (str_eqb (sender m) who) eqn:Ew.
    + apply str_eqb_eq in Ew. subst who. now rewrite get_set_same, E.
    + apply str_eqb_neq in Ew. rewrite get_set_other by exact Ew. lia.
  - rewrite get_set_same. destruct (str_eqb (sender m) who) eqn:Ew.
    + apply str_eqb_eq in Ew. subst who. now rewrite get_set_same, E.
    + apply str_eqb_neq in Ew. rewrite !get_set_other by exact Ew. lia.
Qed.

Lemma countWhere_snoc (f : Message -> bool) (msgs : list Message) (m : Message) :
  countWhere f (msgs ++ [m]) = countWhere f msgs + (if f m then 1 else 0).
Proof.
  unfold countWhere. rewrite filter_app, length_app. cbn [filter].
  destruct (f m); cbn [length]; lia.
Qed.

Lemma countWhere_bounds (f : Message -> bool) (msgs : list Message) :
  0 <= countWhere f msgs <= Z.of_nat (length msgs).
Proof.
  unfold countWhere. pose proof (filter_length_le f msgs). lia.
Qed.

Lemma countWhere_positive (f : Message -> bool) (msgs : list Message) (m : Message) :
  In m msgs -> f m = true -> 1 <= countWhere f msgs.
Proof.
  intros Hin Hf. unfold countWhere.
  assert (H : In m (filter f msgs)) by (apply filter_In; auto).
  destruct (filter f msgs); [contradiction | cbn [length]; lia].
Qed.

(** After the loop [userMap] lists the senders in the order of their first
    message, each with the number of its messages. *)
Lemma loop_userMap_exact (tz : Z) (msgs : list Message) :
  let st := forEachFrom tz 0 msgs initialAcc in
  keys (userMap st) = firstSeen (senders msgs)
  /\ forall who, countOf (userMap st) who = sentBy msgs who.
Proof.
  induction msgs as [|m msgs IH] using rev_ind; cbv zeta.
  - split; reflexivity.
  - rewrite forEachFrom_snoc. cbv zeta in IH. destruct IH as (Hk & Hc). split.
    + rewrite step_userMap_keys, Hk. unfold firstSeen, senders.
      rewrite map_app. cbn [map]. now rewrite firstSeenInto_snoc.
    + intros who. rewrite step_userMap_countOf, Hc. unfold sentBy.
      now rewrite countWhere_snoc.
Qed.

Lemma map_name_finalizeUsers (um : jsmap UStat) :
  map name (finalizeUsers um) = sortedUserNames um.
Proof.
  unfold finalizeUsers. rewrite map_map.
  transitivity (map (fun e : Z * jstring => (fun n : jstring => n) (snd e))
                  (indexed 0 (sortedUserNames um))).
  - apply map_ext. intros [i n]. reflexivity.
  - rewrite (map_indexed_snd (fun n : jstring => n)). apply map_id.
Qed.

(** The users of a result: the map after the one-sided pass. *)
Lemma users_of_result (tz : Z) (clock : nat -> Z) (msgs : list Message) (yearFilter : option Z) :
  exists um,
    users (analyzeMessages tz clock msgs yearFilter) = finalizeUsers um
    /\ keys um = firstSeen (senders (filterMessages tz msgs yearFilter))
    /\ (forall who, countOf um who = sentBy (filterMessages tz msgs yearFilter) who)
    /\ NoDup (keys um).
Proof.
  unfold analyzeMessages.
  destruct (filterMessages tz msgs yearFilter) as [|first rest] eqn:Hf.
  - exists []. repeat split; constructor.
  - cbn [users]. set (st := forEachFrom tz 0 (first :: rest) initialAcc).
    destruct (loop_userMap_exact tz (first :: rest)) as (Hk & Hc). fold st in Hk, Hc.
    destruct (loop_userMap tz (first :: rest)) as (Hnd & _). fold st in Hnd.
    exists (oneSidedDays (dailyBreakdown st) (userMap st)).
    split; [reflexivity|]. rewrite oneSidedDays_keys. split; [exact Hk|]. split; [|exact Hnd].
    intros who. now rewrite oneSidedDays_countOf.
Qed.

Lemma firstSeen_spec (l : list jstring) :
  NoDup (firstSeen l) /\ forall x, In x (firstSeen l) <-> In x l.
Proof.
  unfold firstSeen. induction l as [|y l IH] using rev_ind.
  - split; [constructor | reflexivity].
  - rewrite firstSeenInto_snoc. destruct IH as (Hnd & Hin).
    destruct (existsb (str_eqb y) (firstSeenInto [] l)) eqn:E.
    + split; [exact Hnd|]. intros x. rewrite Hin, in_app_iff. cbn [In].
      apply existsb_str_In in E. apply Hin in E. intuition (subst; auto).
    + split.
      * apply NoDup_rev in Hnd. rewrite <- (rev_involutive (_ ++ [y])).
        apply NoDup_rev. rewrite rev_app_distr. cbn [rev app]. constructor; [|exact Hnd].
        rewrite <- in_rev. intros H. apply existsb_str_In in H. congruence.
      * intros x. rewrite !in_app_iff, Hin. cbn [In]. tauto.
Qed.

(** X1: the users of a result are the senders of the filtered messages,
    each exactly once, and [activeUsersCount] is the number of distinct
    senders. *)
Theorem X1_users_are_the_distinct_senders (tz : Z) (clock : nat -> Z) (msgs : list Message)
    (yearFilter : option Z) :
  let filtered := filterMessages tz msgs yearFilter in
  let r := analyzeMessages tz clock msgs yearFilter in
  NoDup (map name (users r))
  /\ (forall who, In who (map name (users r)) <-> In who (senders filtered))
  /\ activeUsersCount r = Z.of_nat (length (nodup jstring_eq_dec (senders filtered))).
Proof.
  cbv zeta.
  destruct (users_of_result tz clock msgs yearFilter) as (um & Hu & Hk & _ & Hnd).
  destruct (firstSeen_spec (senders (filterMessages tz msgs yearFilter))) as (Hnd' & Hin).
  assert (Hperm : Permutation (map name (users (analyzeMessages tz clock msgs yearFilter)))
                    (firstSeen (senders (filterMessages tz msgs yearFilter)))).
  { rewrite Hu, map_name_finalizeUsers. unfold sortedUserNames. rewrite <- Hk.
    apply sort_Permutation. }
  split; [|split].
  - eapply Permutation_NoDup; [apply Permutation_sym, Hperm | exact Hnd'].
  - intros who. rewrite <- Hin. split; apply Permutation_in;
      [exact Hperm | apply Permutation_sym, Hperm].
  - assert (Hlen : activeUsersCount (analyzeMessages tz clock msgs yearFilter)
                   = Z.of_nat (length (users (analyzeMessages tz clock msgs yearFilter)))).
    { unfold analyzeMessages.
      destruct (filterMessages tz msgs yearFilter); reflexivity. }
    rewrite Hlen. f_equal. rewrite <- (length_map name).
    rewrite (Permutation_length Hperm). apply Permutation_length.
    apply NoDup_Permutation; [exact Hnd' | apply NoDup_nodup |].
    intros x. now rewrite Hin, nodup_In.
Qed.

(** X2: the [messageCount] of every user of a result is the number of
    filtered messages of that sender, which is at least one. *)
Theorem X2_message_count_of_a_user (tz : Z) (clock : nat -> Z) (msgs : list Message)
    (yearFilter : option Z) (us : UserStat) :
  In us (users (analyzeMessages tz clock msgs yearFilter)) ->
  messageCount us = sentBy (filterMessages tz msgs yearFilter) (name us)
  /\ 1 <= messageCount us.
Proof.
  intros Hus.
  destruct (users_of_result tz clock msgs yearFilter) as (um & Hu & Hk & Hc & Hnd).
  destruct (firstSeen_spec (senders (filterMessages tz msgs yearFilter))) as (_ & Hin).
  rewrite Hu in Hus. unfold finalizeUsers in Hus. apply in_map_iff in Hus.
  destruct Hus as ([i n] & <- & Hi). apply In_indexed in Hi.
  unfold sortedUserNames in Hi. apply (Permutation_in _ (sort_Permutation _ _)) in Hi.
  assert (Hcount : messageCount (finalizeUser um (i, n)) = countOf um n).
  { unfold finalizeUser, countOf. cbn [snd messageCount]. destruct (get n um); reflexivity. }
  cbn [finalizeUser name snd]. rewrite Hcount, Hc. split; [reflexivity|].
  rewrite Hk in Hi. apply Hin in Hi. unfold senders in Hi. apply in_map_iff in Hi.
  destruct Hi as (m & Hm & Hmin). unfold sentBy.
  apply countWhere_positive with m; [exact Hmin|]. rewrite Hm. apply str_eqb_refl.
Qed.

Lemma X2_message_count_witness :
  exists us, In us (users (analyzeMessages 0 (fun _ => 0) elevenMessages (Some 2023)))
             /\ messageCount us = sentBy (filterMessages 0 elevenMessages (Some 2023)) (name us)
             /\ messageCount us = 9.
Proof.
  exists {| name := u "Alice"; messageCount := 9; color := u "#8b5cf6";
            oneSidedConversationsCount := 1 |}.
  assert (Hin : In {| name := u "Alice"; messageCount := 9; color := u "#8b5cf6";
                      oneSidedConversationsCount := 1 |}
                   (users (analyzeMessages 0 (fun _ => 0) elevenMessages (Some 2023))))
    by (vm_compute; auto).
  split; [exact Hin|]. split; [|reflexivity].
  exact (proj1 (X2_message_count_of_a_user 0 (fun _ => 0) elevenMessages (Some 2023) _ Hin)).
Defined.

(** *** The order of the users *)

Section SortFacts.

Context {A : Type} (le : A -> A -> bool).

Hypothesis le_total : forall x y, le x y = false -> le y x = true.
Hypothesis le_trans : forall x y z, le x y = true -> le y z = true -> le x z = true.

Lemma insert_StronglySorted (x : A) (l : list A) :
  StronglySorted (fun a b => le a b = true) l ->
  StronglySorted (fun a b => le a b = true) (insert le x l).
Proof.
  induction 1 as [|y l Hs IH Hall]; cbn [insert].
  - repeat constructor.
  - destruct (le x y) eqn:E.
    + constructor; [now constructor|]. constructor; [exact E|].
      eapply Forall_impl; [|exact Hall]. intros z Hz. cbv beta in *. eauto.
    + constructor; [exact IH|].
      apply (Permutation_Forall (Permutation_sym (insert_Permutation le x l))).
      constructor; [now apply le_total | exact Hall].
Qed.

Lemma sort_StronglySorted (l : list A) :
  StronglySorted (fun a b => le a b = true) (sort le l).
Proof.
  induction l as [|x l IH]; cbn [sort fold_right]; [constructor|].
  now apply insert_StronglySorted.
Qed.

End SortFacts.

(** Insertion keeps the elements of one rank in their order. *)
Lemma insert_filter_rank {A : Type} (le : A -> A -> bool) (rank : A -> Z) (c : Z) (x : A) :
  (forall a b, le a b = true <-> rank b <= rank a) ->
  forall l,
    filter (fun a => rank a =? c) (insert le x l)
    = if rank x =? c then x :: filter (fun a => rank a =? c) l
      else filter (fun a => rank a =? c) l.
Proof.
  intros Hle. induction l as [|y l IH]; cbn [insert filter].
  - destruct (rank x =? c); reflexivity.
  - destruct (le x y) eqn:E; cbn [filter].
    + destruct (rank x =? c); reflexivity.
    + rewrite IH. destruct (rank x =? c) eqn:Ex; [|reflexivity].
      assert (Hgt : ~ rank y <= rank x).
      { intros H. apply Hle in H. congruence. }
      apply Z.eqb_eq in Ex.
      assert (Ey : (rank y =? c) = false) by (apply Z.eqb_neq; lia).
      now rewrite Ey.
Qed.

Lemma sort_filter_rank {A : Type} (le : A -> A -> bool) (rank : A -> Z) (c : Z) :
  (forall a b, le a b = true <-> rank b <= rank a) ->
  forall l, filter (fun a => rank a =? c) (sort le l) = filter (fun a => rank a =? c) l.
Proof.
  intros Hle. induction l as [|x l IH]; cbn [sort fold_right filter]; [reflexivity|].
  fold (sort le l). rewrite (insert_filter_rank le rank c x Hle), IH. reflexivity.
Qed.

Lemma StronglySorted_weaken {A : Type} (R R' : A -> A -> Prop) (l : list A) :
  (forall a b, R a b -> R' a b) -> StronglySorted R l -> StronglySorted R' l.
Proof.
  intros H. induction 1 as [|x l Hs IH Hall]; constructor; [exact IH|].
  eapply Forall_impl; [|exact Hall]. auto.
Qed.

Lemma Forall_indexed {A : Type} (P : A -> Prop) (l : list A) :
  Forall P l -> forall i, Forall (fun e : Z * A => P (snd e)) (indexed i l).
Proof.
  induction 1 as [|y l Hy Hall IH]; intros i; cbn [indexed]; constructor; auto.
Qed.

Lemma StronglySorted_indexed {A : Type} (R : A -> A -> Prop) (l : list A) :
  StronglySorted R l ->
  forall i, StronglySorted (fun a b : Z * A => R (snd a) (snd b)) (indexed i l).
Proof.
  induction 1 as [|x l Hs IH Hall]; intros i; cbn [indexed]; constructor; [apply IH|].
  apply (Forall_indexed (R x) l Hall).
Qed.

Lemma StronglySorted_map {A B : Type} (R : B -> B -> Prop) (f : A -> B) (l : list A) :
  StronglySorted (fun a b => R (f a) (f b)) l -> StronglySorted R (map f l).
Proof.
  induction 1 as [|x l Hs IH Hall]; cbn [map]; constructor; [exact IH|].
  apply Forall_map. exact Hall.
Qed.

(** X3: the users of a result are in descending order of [messageCount],
    and users with equal counts stay in the order in which they first
    wrote. *)
Theorem X3_users_by_descending_count (tz : Z) (clock : nat -> Z) (msgs : list Message)
    (yearFilter : option Z) :
  let filtered := filterMessages tz msgs yearFilter in
  let r := analyzeMessages tz clock msgs yearFilter in
  StronglySorted (fun a b => messageCount b <= messageCount a) (users r)
  /\ forall c : Z,
       filter (fun who => sentBy filtered who =? c) (map name (users r))
       = filter (fun who => sentBy filtered who =? c) (firstSeen (senders filtered)).
Proof.
  cbv zeta.
  destruct (users_of_result tz clock msgs yearFilter) as (um & Hu & Hk & Hc & Hnd).
  rewrite Hu. split.
  - unfold finalizeUsers. apply StronglySorted_map.
    assert (Hs : StronglySorted (fun a b => countOf um b <= countOf um a) (sortedUserNames um)).
    { unfold sortedUserNames.
      eapply StronglySorted_weaken;
        [|apply (sort_StronglySorted (fun a b => countOf um b - countOf um a <=? 0))].
      - intros a b H. cbv beta in H. apply Z.leb_le in H. lia.
      - intros x y H. apply Z.leb_gt in H. apply Z.leb_le. lia.
      - intros x y z H1 H2. apply Z.leb_le in H1, H2. apply Z.leb_le. lia. }
    eapply StronglySorted_weaken; [|apply (StronglySorted_indexed _ _ Hs 0)].
    intros [i a] [j b] H. cbn [snd] in H. unfold finalizeUser, countOf in *.
    cbn [snd messageCount]. destruct (get a um), (get b um); exact H.
  - intros c. rewrite map_name_finalizeUsers. unfold sortedUserNames. rewrite <- Hk.
    rewrite (filter_ext _ (fun who => countOf um who =? c))
      by (intros who; now rewrite Hc).
    rewrite (filter_ext (fun who => sentBy _ who =? c) (fun who => countOf um who =? c))
      by (intros who; now rewrite Hc).
    apply sort_filter_rank. intros a b. rewrite Z.leb_le. lia.
Qed.

(** *** Hours and weekdays *)

Lemma nth_incrAt (i j : nat) (a : list Z) :
  (i < length a)%nat ->
  nth j (incrAt i a) 0 = nth j a 0 + (if (i =? j)%nat then 1 else 0).
Proof.
  revert i j. induction a as [|x a IH]; intros i j Hi; cbn [length] in Hi; [lia|].
  destruct i as [|i], j as [|j]; cbn [incrAt nth Nat.eqb]; try lia.
  apply IH. lia.
Qed.

Lemma nth_repeat_0 (n k : nat) : nth k (repeat 0 n) 0 = 0.
Proof.
  revert k. induction n as [|n IH]; intros [|k]; cbn [repeat nth]; auto.
Qed.

(** An array that the loop increments at [idx msg] holds, at [k], the
    number of messages with [idx msg = k]. *)
Lemma loop_array (tz : Z) (proj : Acc -> list Z) (idx : Message -> Z) (n : nat) :
  proj initialAcc = repeat 0 n ->
  (forall st i m, proj (step tz st i m) = incrAt (Z.to_nat (idx m)) (proj st)) ->
  (forall m, 0 <= idx m < Z.of_nat n) ->
  forall msgs,
    let st := forEachFrom tz 0 msgs initialAcc in
    length (proj st) = n
    /\ forall k, nth k (proj st) 0 = countWhere (fun m => idx m =? Z.of_nat k) msgs.
Proof.
  intros Hinit Hstep Hidx msgs.
  induction msgs as [|m msgs IH] using rev_ind; cbv zeta.
  - cbn [forEachFrom]. rewrite Hinit. split; [apply repeat_length|].
    intros k. now rewrite nth_repeat_0.
  - rewrite forEachFrom_snoc. cbv zeta in IH. destruct IH as (Hl & Hn).
    rewrite Hstep. split; [now rewrite length_incrAt|].
    intros k. pose proof (Hidx m).
    rewrite nth_incrAt by lia. rewrite Hn, countWhere_snoc.
    destruct (Z.to_nat (idx m) =? k)%nat eqn:E.
    + apply Nat.eqb_eq in E. replace (idx m =? Z.of_nat k) with true; [reflexivity|].
      symmetry. apply Z.eqb_eq. lia.
    + apply Nat.eqb_neq in E. replace (idx m =? Z.of_nat k) with false; [reflexivity|].
      symmetry. apply Z.eqb_neq. lia.
Qed.

Lemma getDay_range (tz t : Z) : 0 <= getDay tz t < 7.
Proof. unfold getDay. apply Z.mod_pos_bound. lia. Qed.

Lemma loop_hourlyCounts_exact (tz : Z) (msgs : list Message) :
  let st := forEachFrom tz 0 msgs initialAcc in
  length (hourlyCounts st) = 24%nat
  /\ forall k, nth k (hourlyCounts st) 0
               = countWhere (fun m => getHours tz (date m) =? Z.of_nat k) msgs.
Proof.
  apply (loop_array tz hourlyCounts (fun m => getHours tz (date m)) 24); try reflexivity.
  intros m. apply getHours_range.
Qed.

Lemma loop_dayOfWeekCounts_exact (tz : Z) (msgs : list Message) :
  let st := forEachFrom tz 0 msgs initialAcc in
  length (dayOfWeekCounts st) = 7%nat
  /\ forall k, nth k (dayOfWeekCounts st) 0
               = countWhere (fun m => getDay tz (date m) =? Z.of_nat k) msgs.
Proof.
  apply (loop_array tz dayOfWeekCounts (fun m => getDay tz (date m)) 7); try reflexivity.
  intros m. apply getDay_range.
Qed.

Lemma nth_error_indexed {A : Type} (l : list A) :
  forall (i : Z) (k : nat) (d : A),
    (k < length l)%nat -> nth_error (indexed i l) k = Some (i + Z.of_nat k, nth k l d).
Proof.
  induction l as [|x l IH]; intros i k d Hk; cbn [length] in Hk; [lia|].
  destruct k as [|k]; cbn [indexed nth_error nth].
  - f_equal. f_equal. lia.
  - rewrite (IH (i + 1) k d) by lia. f_equal. f_equal. lia.
Qed.

(** X4: for a non-empty filtered list, bucket [h] of [hourlyHeatmap] is
    labelled [h] and counts the filtered messages sent in the local hour
    [h]. *)
Theorem X4_hourly_heatmap_buckets (tz : Z) (clock : nat -> Z) (msgs : list Message)
    (yearFilter : option Z) (h : Z) :
  filterMessages tz msgs yearFilter <> [] -> 0 <= h < 24 ->
  nth_error (hourlyHeatmap (analyzeMessages tz clock msgs yearFilter)) (Z.to_nat h)
  = Some {| hour := h;
            hour_count := countWhere (fun m => getHours tz (date m) =? h)
                            (filterMessages tz msgs yearFilter) |}.
Proof.
  intros Hne Hh. unfold analyzeMessages.
  destruct (filterMessages tz msgs yearFilter) as [|first rest] eqn:Hf; [congruence|].
  cbn [hourlyHeatmap]. set (st := forEachFrom tz 0 (first :: rest) initialAcc).
  destruct (loop_hourlyCounts_exact tz (first :: rest)) as (Hl & Hn). fold st in Hl, Hn.
  rewrite nth_error_map, (nth_error_indexed _ 0 (Z.to_nat h) 0) by lia.
  cbn [option_map fst snd]. rewrite Hn. rewrite Z2Nat.id by lia. reflexivity.
Qed.

Lemma X4_hourly_heatmap_witness :
  nth_error (hourlyHeatmap (analyzeMessages 330 (fun _ => 0) twoMessages None)) (Z.to_nat 14)
  = Some {| hour := 14;
            hour_count := countWhere (fun m => getHours 330 (date m) =? 14)
                            (filterMessages 330 twoMessages None) |}.
Proof.
  apply (X4_hourly_heatmap_buckets 330 (fun _ => 0) twoMessages None 14);
    [vm_compute; discriminate | lia].
Defined.

(** X5: for a non-empty filtered list, entry [k] of [dayOfWeekStats] (0 is
    Sunday) counts the filtered messages sent on that local weekday; there
    are 7 entries. *)
Theorem X5_weekday_buckets (tz : Z) (clock : nat -> Z) (msgs : list Message)
    (yearFilter : option Z) (k : nat) :
  filterMessages tz msgs yearFilter <> [] ->
  length (dayOfWeekStats (analyzeMessages tz clock msgs yearFilter)) = 7%nat
  /\ nth k (dayOfWeekStats (analyzeMessages tz clock msgs yearFilter)) 0
     = countWhere (fun m => getDay tz (date m) =? Z.of_nat k)
         (filterMessages tz msgs yearFilter).
Proof.
  intros Hne. unfold analyzeMessages.
  destruct (filterMessages tz msgs yearFilter) as [|first rest] eqn:Hf; [congruence|].
  cbn [dayOfWeekStats].
  destruct (loop_dayOfWeekCounts_exact tz (first :: rest)) as (Hl & Hn). auto.
Qed.

Lemma X5_weekday_buckets_witness :
  length (dayOfWeekStats (analyzeMessages 0 (fun _ => 0) twoMessages None)) = 7%nat
  /\ nth 5 (dayOfWeekStats (analyzeMessages 0 (fun _ => 0) twoMessages None)) 0
     = countWhere (fun m => getDay 0 (date m) =? Z.of_nat 5) (filterMessages 0 twoMessages None).
Proof.
  apply (X5_weekday_buckets 0 (fun _ => 0) twoMessages None 5). vm_compute. discriminate.
Defined.

(** *** The busiest hour *)

Lemma argMax_indexed (l : list Z) :
  forall (i j0 v0 : Z),
    let r := argMax (indexed i l) (j0, v0) in
    (r = (j0, v0) /\ forall k, (k < length l)%nat -> nth k l 0 <= v0)
    \/ exists k, (k < length l)%nat
         /\ r = (i + Z.of_nat k, nth k l 0)
         /\ v0 < nth k l 0
         /\ (forall k', (k' < length l)%nat -> nth k' l 0 <= nth k l 0)
         /\ (forall k', (k' < k)%nat -> nth k' l 0 < nth k l 0).
Proof.
  unfold argMax. induction l as [|x l IH]; intros i j0 v0; cbv zeta; cbn [indexed fold_left length].
  - left. split; [reflexivity | intros k Hk; lia].
  - cbn [snd]. destruct (x >? v0) eqn:E;
      [apply Z.gtb_lt in E | rewrite Z.gtb_ltb in E; apply Z.ltb_ge in E].
    + destruct (IH (i + 1) i x) as [(Hr & Hall) | (k & Hk & Hr & Hv & Hall & Hbefore)]; cbv zeta in *.
      * right. exists 0%nat. cbn [nth]. repeat split; try lia.
        -- rewrite Hr. f_equal. lia.
        -- intros [|k'] Hk'; cbn [nth]; [lia | apply Hall; lia].
      * right. exists (S k). cbn [nth]. repeat split; try lia.
        -- rewrite Hr. f_equal. lia.
        -- intros [|k'] Hk'; cbn [nth]; [lia | apply Hall; lia].
        -- intros [|k'] Hk'; cbn [nth]; [lia | apply Hbefore; lia].
    + destruct (IH (i + 1) j0 v0) as [(Hr & Hall) | (k & Hk & Hr & Hv & Hall & Hbefore)]; cbv zeta in *.
      * left. split; [exact Hr|]. intros [|k'] Hk'; cbn [nth]; [lia | apply Hall; lia].
      * right. exists (S k). cbn [nth]. repeat split; try lia.
        -- rewrite Hr. f_equal. lia.
        -- intros [|k'] Hk'; cbn [nth]; [lia | apply Hall; lia].
        -- intros [|k'] Hk'; cbn [nth]; [lia | apply Hbefore; lia].
Qed.

(** X6: [busiestHour] is an hour of the day in which at least as many
    filtered messages were sent as in any other, and the earliest such
    hour. *)
Theorem X6_busiest_hour (tz : Z) (clock : nat -> Z) (msgs : list Message)
    (yearFilter : option Z) :
  let sentIn h := countWhere (fun m => getHours tz (date m) =? h)
                    (filterMessages tz msgs yearFilter) in
  let b := busiestHour (analyzeMessages tz clock msgs yearFilter) in
  0 <= b < 24
  /\ (forall h, sentIn h <= sentIn b)
  /\ (forall h, 0 <= h < b -> sentIn h < sentIn b).
Proof.
  cbv zeta. unfold analyzeMessages.
  destruct (filterMessages tz msgs yearFilter) as [|first rest] eqn:Hf.
  - cbn [busiestHour]. split; [lia|]. split; [intros h; reflexivity | intros h Hh; lia].
  - cbn [busiestHour]. set (l := first :: rest).
    set (st := forEachFrom tz 0 l initialAcc).
    destruct (loop_hourlyCounts_exact tz l) as (Hl & Hn). fold st in Hl, Hn.
    assert (Hout : forall h, ~ 0 <= h < 24 ->
                             countWhere (fun m => getHours tz (date m) =? h) l = 0).
    { intros h Hh. unfold countWhere.
      rewrite (filter_ext _ (fun _ => false)).
      - now rewrite filter_false.
      - intros m. apply Z.eqb_neq. pose proof (getHours_range tz (date m)). lia. }
    assert (Hcnt : forall h, 0 <= h < 24 ->
                             countWhere (fun m => getHours tz (date m) =? h) l
                             = nth (Z.to_nat h) (hourlyCounts st) 0).
    { intros h Hh. rewrite Hn. now rewrite Z2Nat.id by lia. }
    assert (Hnn : forall h, 0 <= countWhere (fun m => getHours tz (date m) =? h) l)
      by (intros h; apply countWhere_bounds).
    destruct (argMax_indexed (hourlyCounts st) 0 0 0)
      as [(Hr & Hall) | (k & Hk & Hr & Hv & Hall & Hbefore)]; cbv zeta in *; rewrite Hr; cbn [fst].
    + split; [lia|]. split.
      * intros h. destruct (Z_le_dec 0 h) as [H0|H0];
          [destruct (Z_lt_dec h 24) as [H1|H1]|]; try (rewrite (Hout h) by lia; apply Hnn).
        rewrite (Hcnt h) by lia. specialize (Hall (Z.to_nat h) ltac:(lia)).
        pose proof (Hnn 0). lia.
      * intros h Hh. lia.
    + rewrite Hl in *. split; [lia|]. rewrite (Hcnt (0 + Z.of_nat k)) by lia.
      replace (Z.to_nat (0 + Z.of_nat k)) with k by lia. split.
      * intros h. destruct (Z_le_dec 0 h) as [H0|H0];
          [destruct (Z_lt_dec h 24) as [H1|H1]|]; try (rewrite (Hout h) by lia; lia).
        rewrite (Hcnt h) by lia. apply Hall. lia.
      * intros h Hh. rewrite (Hcnt h) by lia. apply Hbefore. lia.
Qed.

(** *** Day and night *)

Lemma loop_dayNight (tz : Z) (msgs : list Message) :
  let st := forEachFrom tz 0 msgs initialAcc in
  dayCount st = countWhere (fun m => (getHours tz (date m) >=? 6) && (getHours tz (date m) <? 18)) msgs
  /\ dayCount st + nightCount st = Z.of_nat (length msgs).
Proof.
  induction msgs as [|m msgs IH] using rev_ind; cbv zeta.
  - split; reflexivity.
  - rewrite forEachFrom_snoc. cbv zeta in IH. destruct IH as (Hd & Hs).
    unfold step; cbn [dayCount nightCount]. rewrite countWhere_snoc, length_app. cbn [length].
    destruct ((getHours tz (date m) >=? 6) && (getHours tz (date m) <? 18)); split; lia.
Qed.

(** X7: [dayNightSplit.day] counts the filtered messages sent from 6:00 to
    17:59 local time, and [day] and [night] together are all of them. *)
Theorem X7_day_and_night (tz : Z) (clock : nat -> Z) (msgs : list Message)
    (yearFilter : option Z) :
  let r := analyzeMessages tz clock msgs yearFilter in
  day (dayNightSplit r)
  = countWhere (fun m => (getHours tz (date m) >=? 6) && (getHours tz (date m) <? 18))
      (filterMessages tz msgs yearFilter)
  /\ day (dayNightSplit r) + night (dayNightSplit r) = totalMessages r.
Proof.
  cbv zeta. unfold analyzeMessages.
  destruct (filterMessages tz msgs yearFilter) as [|first rest] eqn:Hf; [split; reflexivity|].
  cbn [dayNightSplit day night totalMessages].
  apply (loop_dayNight tz (first :: rest)).
Qed.

(** *** Bursts *)

Lemma runsFrom_nonempty (msgs : list Message) :
  forall prev len, runsFrom prev len msgs <> [].
Proof.
  induction msgs as [|m msgs IH]; intros prev len; cbn [runsFrom]; [discriminate|].
  destruct (date m - prev <? 60000); [apply IH | discriminate].
Qed.

Lemma removelast_cons {A : Type} (x : A) (l : list A) :
  l <> [] -> removelast (x :: l) = x :: removelast l.
Proof. destruct l; [congruence | reflexivity]. Qed.

Lemma fold_max_filter_cons (x m0 : Z) (l : list Z) :
  fold_left Z.max (filter (fun n => n >? 5) (x :: l)) m0
  = fold_left Z.max (filter (fun n => n >? 5) l) (if x >? 5 then Z.max m0 x else m0).
Proof. cbn [filter]. destruct (x >? 5); reflexivity. Qed.

(** From the second message on: the counters after the loop, in terms of
    the runs that the remaining messages close. *)
Lemma loop_bursts_later (tz : Z) (msgs : list Message) :
  forall (st : Acc) (i : nat),
    let closed := removelast (runsFrom (lastMsgTime st) (currentBurst st) msgs) in
    let st' := forEachFrom tz (S i) msgs st in
    burstCount st' = burstCount st + Z.of_nat (length (filter (fun n => n >? 5) closed))
    /\ maxBurst st' = fold_left Z.max (filter (fun n => n >? 5) closed) (maxBurst st).
Proof.
  induction msgs as [|m msgs IH]; intros st i; cbv zeta; cbn [forEachFrom runsFrom].
  - cbn. split; [lia | reflexivity].
  - specialize (IH (step tz st (S i) m) (S i)). cbv zeta in IH. destruct IH as (Hc & Hm).
    rewrite Hc, Hm.
    assert (Hlast : lastMsgTime (step tz st (S i) m) = date m) by reflexivity.
    rewrite Hlast.
    unfold step at 1 2 3 4, burstDetection; cbn [currentBurst maxBurst burstCount Nat.ltb Nat.leb].
    destruct (date m - lastMsgTime st <? 60000) eqn:E; cbn [fst snd].
    + split; reflexivity.
    + rewrite removelast_cons by apply runsFrom_nonempty.
      rewrite fold_max_filter_cons. cbn [filter].
      destruct (currentBurst st >? 5) eqn:E5; cbn [fst snd length].
      * split; [lia|]. f_equal.
        destruct (currentBurst st >? maxBurst st) eqn:Em;
          [apply Z.gtb_lt in Em | rewrite Z.gtb_ltb in Em; apply Z.ltb_ge in Em]; lia.
      * split; reflexivity.
Qed.

(** X8: [burstStats.count] is the number of runs of more than five
    messages, each within a minute of the one before, that a later message
    closes, and [burstStats.maxBurst] is the length of the longest of them
    (0 without one); the run that is still open at the last message is not
    among them. *)
Theorem X8_bursts_are_the_closed_runs (tz : Z) (clock : nat -> Z) (msgs : list Message)
    (yearFilter : option Z) :
  burstStats (analyzeMessages tz clock msgs yearFilter)
  = {| burst_count := Z.of_nat (length (closedBursts (filterMessages tz msgs yearFilter)));
       burst_maxBurst := maxOfList (closedBursts (filterMessages tz msgs yearFilter)) |}.
Proof.
  unfold analyzeMessages.
  destruct (filterMessages tz msgs yearFilter) as [|first rest] eqn:Hf; [reflexivity|].
  cbn [burstStats forEachFrom]. unfold closedBursts, runsOf, maxOfList.
  destruct (loop_bursts_later tz rest (step tz initialAcc 0 first) 0) as (Hc & Hm).
  cbv zeta in Hc, Hm. rewrite Hc, Hm. reflexivity.
Qed.

Lemma closed_runs_bounds (msgs : list Message) :
  forall prev len, 1 <= len ->
    Forall (fun n => 1 <= n) (runsFrom prev len msgs)
    /\ sum (runsFrom prev len msgs) = len + Z.of_nat (length msgs).
Proof.
  induction msgs as [|m msgs IH]; intros prev len Hlen; cbn [runsFrom].
  - split; [repeat constructor; lia | rewrite sum_cons, sum_nil; cbn [length]; lia].
  - destruct (date m - prev <? 60000).
    + destruct (IH (date m) (len + 1) ltac:(lia)) as (Ha & Hs). split; [exact Ha|].
      rewrite Hs. cbn [length]. lia.
    + destruct (IH (date m) 1 ltac:(lia)) as (Ha & Hs). split; [now constructor|].
      rewrite sum_cons, Hs. cbn [length]. lia.
Qed.

Lemma sum_removelast_filter (l : list Z) :
  Forall (fun n => 1 <= n) l -> l <> [] ->
  6 * Z.of_nat (length (filter (fun n => n >? 5) (removelast l))) + 1 <= sum l
  /\ (forall n, In n (filter (fun n => n >? 5) (removelast l)) -> 6 <= n /\ n + 1 <= sum l).
Proof.
  induction 1 as [|x l Hx Hall IH]; intros Hne; [congruence|].
  destruct l as [|y l].
  - cbn [removelast filter length In]. rewrite sum_cons, sum_nil. split; [lia | intros n []].
  - rewrite removelast_cons by discriminate. rewrite sum_cons.
    destruct (IH ltac:(discriminate)) as (Hcount & Hin).
    cbn [filter]. destruct (x >? 5) eqn:E;
      [apply Z.gtb_lt in E | rewrite Z.gtb_ltb in E; apply Z.ltb_ge in E]; cbn [length].
    + split; [lia|]. intros n [<-|Hn]; [lia|]. specialize (Hin n Hn). lia.
    + split; [lia|]. intros n Hn. specialize (Hin n Hn). lia.
Qed.

Lemma maxOfList_spec (l : list Z) :
  (forall n, In n l -> 0 <= n) ->
  (l = [] /\ maxOfList l = 0) \/ (In (maxOfList l) l /\ forall n, In n l -> n <= maxOfList l).
Proof.
  unfold maxOfList. intros Hnn.
  assert (H : forall a, 0 <= a ->
            (fold_left Z.max l a = a \/ In (fold_left Z.max l a) l)
            /\ a <= fold_left Z.max l a
            /\ forall n, In n l -> n <= fold_left Z.max l a).
  { clear Hnn. induction l as [|x l IH]; intros a Ha; cbn [fold_left].
    - repeat split; [now left | lia | intros n []].
    - destruct (IH (Z.max a x) ltac:(lia)) as (Hr & Hle & Hall). repeat split.
      + destruct Hr as [Hr|Hr]; [|right; now right].
        destruct (Z.max_spec a x) as [(_ & Hm)|(_ & Hm)]; rewrite Hm in Hr |- *.
        * right. left. congruence.
        * now left.
      + lia.
      + intros n [<-|Hn]; [lia | auto]. }
  destruct l as [|x l]; [left; split; reflexivity|]. right.
  destruct (H 0 ltac:(lia)) as ([Hr|Hr] & Hle & Hall); split; auto.
  rewrite Hr. left. specialize (Hall x (or_introl eq_refl)). specialize (Hnn x (or_introl eq_refl)).
  rewrite Hr in Hall. lia.
Qed.

(** X9: six times [burstStats.count] never exceeds [totalMessages];
    [burstStats.maxBurst] is 0 exactly when no burst was counted, and
    otherwise lies between 6 and [totalMessages]. *)
Theorem X9_burst_statistics_are_consistent (tz : Z) (clock : nat -> Z) (msgs : list Message)
    (yearFilter : option Z) :
  let r := analyzeMessages tz clock msgs yearFilter in
  0 <= burst_count (burstStats r)
  /\ 6 * burst_count (burstStats r) <= totalMessages r
  /\ (burst_count (burstStats r) = 0 <-> burst_maxBurst (burstStats r) = 0)
  /\ (burst_maxBurst (burstStats r) = 0
      \/ 6 <= burst_maxBurst (burstStats r) < totalMessages r).
Proof.
  cbv zeta.
  assert (Ht : totalMessages (analyzeMessages tz clock msgs yearFilter)
               = Z.of_nat (length (filterMessages tz msgs yearFilter))).
  { unfold analyzeMessages. destruct (filterMessages tz msgs yearFilter); reflexivity. }
  assert (Hb : burstStats (analyzeMessages tz clock msgs yearFilter)
               = {| burst_count := Z.of_nat (length (closedBursts (filterMessages tz msgs yearFilter)));
                    burst_maxBurst := maxOfList (closedBursts (filterMessages tz msgs yearFilter)) |}).
  { unfold analyzeMessages.
    destruct (filterMessages tz msgs yearFilter) as [|first rest] eqn:Hf; [reflexivity|].
    cbn [burstStats forEachFrom]. unfold closedBursts, runsOf, maxOfList.
    destruct (loop_bursts_later tz rest (step tz initialAcc 0 first) 0) as (Hc & Hm).
    cbv zeta in Hc, Hm. rewrite Hc, Hm. reflexivity. }
  rewrite Ht, Hb. cbn [burst_count burst_maxBurst].
  destruct (filterMessages tz msgs yearFilter) as [|first rest].
  - cbn. repeat split; lia.
  - unfold closedBursts.
    change (runsOf (first :: rest)) with (runsFrom (date first) 1 rest).
    destruct (closed_runs_bounds rest (date first) 1 ltac:(lia)) as (Hall & Hsum).
    destruct (sum_removelast_filter _ Hall (runsFrom_nonempty rest _ _)) as (Hcount & Hin).
    rewrite Hsum in Hcount, Hin. cbn [length].
    set (closed := filter (fun n => n >? 5) (removelast (runsFrom (date first) 1 rest))) in *.
    destruct (maxOfList_spec closed) as [(Hnil & Hmax) | (Hmem & Hmax)].
    { intros n Hn. specialize (Hin n Hn). lia. }
    + rewrite Hmax, Hnil. cbn [length]. repeat split; lia.
    + specialize (Hin _ Hmem).
      assert (Hpos : (0 < length closed)%nat).
      { destruct closed; [contradiction | cbn [length]; lia]. }
      repeat split; lia.
Qed.

(** *** Silences *)

Lemma loop_silence_later (tz : Z) (msgs : list Message) :
  forall (st : Acc) (i : nat),
    maxSilenceTime (forEachFrom tz (S i) msgs st)
    = fold_left Z.max (filter (fun g => g >? 21600000) (gapsFrom (lastMsgTime st) msgs))
        (maxSilenceTime st).
Proof.
  induction msgs as [|m msgs IH]; intros st i; cbn [forEachFrom gapsFrom]; [reflexivity|].
  rewrite IH.
  assert (Hlast : lastMsgTime (step tz st (S i) m) = date m) by reflexivity.
  rewrite Hlast. cbn [filter].
  unfold step, silenceBreakerLogic; cbn [maxSilenceTime Nat.eqb Nat.ltb Nat.leb orb].
  change (6 * 60 * 60 * 1000) with 21600000.
  destruct (date m - lastMsgTime st >? 21600000); cbn [snd fold_left]; [|reflexivity].
  f_equal.
  destruct (date m - lastMsgTime st >? maxSilenceTime st) eqn:E;
    [apply Z.gtb_lt in E | rewrite Z.gtb_ltb in E; apply Z.ltb_ge in E]; lia.
Qed.

Lemma roundHours_long (ms : Z) : 21600000 < ms -> 6 <= roundHours ms.
Proof.
  intros H. unfold roundHours, msPerHour.
  apply Z.div_le_lower_bound; lia.
Qed.

(** X10: [silenceBreaker.maxSilenceHours] is the longest gap of more than
    six hours between two consecutive filtered messages, rounded to hours,
    and 0 when no gap is that long; it is never between 1 and 5. (The
    source divides each gap by 3600000 before it compares and rounds; in
    double precision that is exact enough to order and round as here for
    every gap below 2^31 hours.) *)
Theorem X10_longest_silence (tz : Z) (clock : nat -> Z) (msgs : list Message)
    (yearFilter : option Z) :
  let r := analyzeMessages tz clock msgs yearFilter in
  maxSilenceHours (silenceBreaker r) = roundHours (longestSilence (filterMessages tz msgs yearFilter))
  /\ (maxSilenceHours (silenceBreaker r) = 0 \/ 6 <= maxSilenceHours (silenceBreaker r)).
Proof.
  cbv zeta.
  assert (Heq : maxSilenceHours (silenceBreaker (analyzeMessages tz clock msgs yearFilter))
                = roundHours (longestSilence (filterMessages tz msgs yearFilter))).
  { unfold analyzeMessages.
    destruct (filterMessages tz msgs yearFilter) as [|first rest] eqn:Hf; [reflexivity|].
    cbn [silenceBreaker maxSilenceHours forEachFrom]. f_equal.
    rewrite loop_silence_later. reflexivity. }
  split; [exact Heq|]. rewrite Heq. unfold longestSilence.
  destruct (maxOfList_spec (filter (fun g => g >? 21600000)
                              (gapsOf (filterMessages tz msgs yearFilter))))
    as [(_ & H0) | (Hmem & _)].
  - intros n Hn. apply filter_In in Hn. destruct Hn as (_ & Hn). apply Z.gtb_lt in Hn. lia.
  - left. rewrite H0. reflexivity.
  - right. apply filter_In in Hmem. destruct Hmem as (_ & Hn). apply Z.gtb_lt in Hn.
    now apply roundHours_long.
Qed.

(** *** Conversation starts per sender *)

Lemma get_incr_positive (k who : jstring) (m : jsmap Z) (v : Z) :
  (forall k' v', get k' m = Some v' -> 1 <= v') ->
  get who (incr k m) = Some v -> 1 <= v.
Proof.
  intros Hpos Hget. unfold incr in Hget.
  destruct (jstring_eq_dec k who) as [<-|Hne].
  - rewrite get_set_same in Hget. inversion Hget. unfold getOr0.
    destruct (get k m) as [v0|] eqn:E; [specialize (Hpos k v0 E)|]; lia.
  - rewrite get_set_other in Hget by exact Hne. eauto.
Qed.

Lemma loop_starters_later (tz : Z) (msgs : list Message) :
  forall (st : Acc) (i : nat),
    (forall k v, get k (startersMap st) = Some v -> 1 <= v) ->
    let st' := forEachFrom tz (S i) msgs st in
    (forall k v, get k (startersMap st') = Some v -> 1 <= v)
    /\ sum (values (startersMap st'))
       = sum (values (startersMap st))
         + Z.of_nat (length (filter (fun g => g >? 21600000) (gapsFrom (lastMsgTime st) msgs))).
Proof.
  induction msgs as [|m msgs IH]; intros st i Hpos; cbv zeta; cbn [forEachFrom gapsFrom].
  - split; [exact Hpos | cbn [filter length]; lia].
  - assert (Hlast : lastMsgTime (step tz st (S i) m) = date m) by reflexivity.
    assert (Hstep : startersMap (step tz st (S i) m)
                    = if date m - lastMsgTime st >? 21600000
                      then incr (sender m) (startersMap st) else startersMap st).
    { unfold step, silenceBreakerLogic; cbn [startersMap Nat.eqb orb].
      change (6 * 60 * 60 * 1000) with 21600000.
      destruct (date m - lastMsgTime st >? 21600000); reflexivity. }
    assert (Hpos' : forall k v, get k (startersMap (step tz st (S i) m)) = Some v -> 1 <= v).
    { rewrite Hstep. destruct (date m - lastMsgTime st >? 21600000); [|exact Hpos].
      intros k v. now apply get_incr_positive. }
    destruct (IH (step tz st (S i) m) (S i) Hpos') as (Hp & Hs). cbv zeta in Hp, Hs.
    split; [exact Hp|]. rewrite Hs, Hlast, Hstep. cbn [filter].
    destruct (date m - lastMsgTime st >? 21600000); cbn [length]; [|lia].
    rewrite sum_values_incr. lia.
Qed.

(** X11: [silenceBreakCounts] holds, for every sender with at least one
    conversation start, the number of its starts, and no entry for the
    other senders; for a non-empty filtered list the counts add up to one
    more than the number of gaps of more than six hours. *)
Theorem X11_silence_break_counts (tz : Z) (clock : nat -> Z) (msgs : list Message)
    (yearFilter : option Z) :
  let filtered := filterMessages tz msgs yearFilter in
  let counts := silenceBreakCounts (analyzeMessages tz clock msgs yearFilter) in
  NoDup (keys counts)
  /\ (forall who, get who counts
                  = if 1 <=? startCount filtered who then Some (startCount filtered who) else None)
  /\ (filtered <> [] ->
      sum (values counts)
      = 1 + Z.of_nat (length (filter (fun g => g >? 21600000) (gapsOf filtered)))).
Proof.
  cbv zeta. unfold analyzeMessages.
  destruct (filterMessages tz msgs yearFilter) as [|first rest] eqn:Hf.
  - cbn [silenceBreakCounts]. split; [constructor|]. split; [reflexivity | congruence].
  - cbn [silenceBreakCounts]. set (st := forEachFrom tz 0 (first :: rest) initialAcc).
    assert (Hcount : forall w, getOr0 w (startersMap st) = startCount (first :: rest) w)
      by (intros w; apply loop_startersMap).
    assert (Hnd : NoDup (keys (startersMap st))) by (apply (loop_startersMap tz _ [])).
    assert (Hfirst : startersMap (step tz initialAcc 0 first) = [(sender first, 1)]) by reflexivity.
    destruct (loop_starters_later tz rest (step tz initialAcc 0 first) 0) as (Hpos & Hsum).
    { rewrite Hfirst. intros k v. cbn [get]. destruct (str_eqb k (sender first)); [|discriminate].
      intros H; inversion H; lia. }
    cbv zeta in Hpos, Hsum. change (forEachFrom tz 1 rest (step tz initialAcc 0 first)) with st in *.
    split; [exact Hnd|]. split.
    + intros who. specialize (Hcount who). unfold getOr0 in Hcount.
      destruct (get who (startersMap st)) as [v|] eqn:E.
      * specialize (Hpos who v E). subst v.
        destruct (1 <=? startCount (first :: rest) who) eqn:E1; [reflexivity|].
        apply Z.leb_gt in E1. lia.
      * destruct (1 <=? startCount (first :: rest) who) eqn:E1; [|reflexivity].
        apply Z.leb_le in E1. lia.
    + intros _. rewrite Hsum, Hfirst. cbn [values map snd gapsOf].
      rewrite sum_cons, sum_nil. reflexivity.
Qed.

Lemma X11_silence_break_counts_witness :
  sum (values (silenceBreakCounts (analyzeMessages 0 (fun _ => 0) sevenHoursLater None)))
  = 1 + Z.of_nat (length (filter (fun g => g >? 21600000)
                            (gapsOf (filterMessages 0 sevenHoursLater None)))).
Proof.
  apply (X11_silence_break_counts 0 (fun _ => 0) sevenHoursLater None).
  vm_compute. discriminate.
Defined.


(** *** The tables keyed by day, hour and minute *)

Lemma loop_keyed (tz : Z) (proj : Acc -> jsmap Z) (key : Z -> jstring) :
  proj initialAcc = [] ->
  (forall st i m, proj (step tz st i m) = incr (key (date m)) (proj st)) ->
  forall msgs,
    let st := forEachFrom tz 0 msgs initialAcc in
    NoDup (keys (proj st)) /\ forall k, getOr0 k (proj st) = keyTotal key msgs k.
Proof.
  intros Hinit Hstep msgs. induction msgs as [|m msgs IH] using rev_ind; cbv zeta.
  - cbn [forEachFrom]. rewrite Hinit. split; [constructor | reflexivity].
  - rewrite forEachFrom_snoc, Hstep. cbv zeta in IH. destruct IH as (Hnd & Hc).
    split; [now apply NoDup_keys_incr|].
    intros k. rewrite getOr0_incr, Hc. unfold keyTotal. now rewrite countWhere_snoc.
Qed.

Lemma keyTotal_refines (key : Z -> jstring) (g : jstring -> jstring) (msgs : list Message)
    (k : jstring) :
  keyTotal key msgs k <= keyTotal (fun t => g (key t)) msgs (g k).
Proof.
  unfold keyTotal, countWhere. induction msgs as [|m msgs IH]; cbn [filter]; [lia|].
  destruct (str_eqb (key (date m)) k) eqn:E.
  - apply str_eqb_eq in E. rewrite E, str_eqb_refl. cbn [length]. lia.
  - destruct (str_eqb (g (key (date m))) (g k)); cbn [length]; lia.
Qed.

Lemma keyTotal_ext (key key' : Z -> jstring) (msgs : list Message) (k : jstring) :
  (forall t, key t = key' t) -> keyTotal key msgs k = keyTotal key' msgs k.
Proof.
  intros H. unfold keyTotal, countWhere. f_equal. f_equal. apply filter_ext.
  intros m. now rewrite H.
Qed.

Lemma maxOf_nonneg (m : jsmap Z) : 0 <= maxOf m.
Proof. unfold maxOf. now destruct (argMax_spec m ([], 0)) as (_ & H & _). Qed.

Lemma maxOf_upper (m : jsmap Z) (k : jstring) : getOr0 k m <= maxOf m.
Proof.
  unfold getOr0. destruct (get k m) as [v|] eqn:E; [|apply maxOf_nonneg].
  apply get_Some_In in E. unfold maxOf.
  destruct (argMax_spec m ([], 0)) as (_ & _ & H & _). now apply (H (k, v)).
Qed.

Lemma maxOf_attained (m : jsmap Z) :
  NoDup (keys m) -> maxOf m = 0 \/ exists k, In k (keys m) /\ getOr0 k m = maxOf m.
Proof.
  intros Hnd. unfold maxOf. destruct (argMax_spec m ([], 0)) as ([Hr|Hr] & _).
  - left. now rewrite Hr.
  - right. destruct (argMax m ([], 0)) as [k v] eqn:E. exists k. cbn [snd]. split.
    + apply in_map_iff. now exists (k, v).
    + unfold getOr0. now rewrite (NoDup_In_get k v m Hnd Hr).
Qed.

Lemma maxOf_le (m1 m2 : jsmap Z) (g : jstring -> jstring) :
  NoDup (keys m1) -> (forall k, getOr0 k m1 <= getOr0 (g k) m2) -> maxOf m1 <= maxOf m2.
Proof.
  intros Hnd Hle. destruct (maxOf_attained m1 Hnd) as [H0 | (k & _ & Hk)].
  - rewrite H0. apply maxOf_nonneg.
  - rewrite <- Hk. etransitivity; [apply Hle | apply maxOf_upper].
Qed.

(** The layout of [toISOString]. *)

Lemma length_pad (w : nat) : forall n, length (pad w n) = w.
Proof.
  induction w as [|w IH]; intros n; cbn [pad]; [reflexivity|].
  rewrite length_app, IH. cbn [length]. lia.
Qed.

Lemma pad_digits (w : nat) : forall n, Forall (fun c => isChar "T" c = false) (pad w n).
Proof.
  induction w as [|w IH]; intros n; cbn [pad]; [constructor|].
  apply Forall_app. split; [apply IH|]. constructor; [|constructor].
  pose proof (Z.mod_pos_bound n 10 ltac:(lia)) as Hd.
  unfold isChar. apply N.eqb_neq. change (N_of_ascii "T") with 84%N. lia.
Qed.

Lemma toISOString_isoDate (t : Z) :
  exists rest, toISOString t = isoDate t ++ ch "T" :: rest.
Proof.
  unfold toISOString, isoDate. destruct (civil_from_days (t / msPerDay)) as [[y m] d].
  eexists. rewrite <- !app_assoc. cbn [u app]. reflexivity.
Qed.

Lemma isoDate_shape (t : Z) :
  Forall (fun c => isChar "T" c = false) (isoDate t)
  /\ (length (isoDate t) = 10 \/ length (isoDate t) = 13)%nat.
Proof.
  unfold isoDate. destruct (civil_from_days (t / msPerDay)) as [[y m] d].
  split.
  - assert (Hdash : Forall (fun c => isChar "T" c = false) (u "-"))
      by (constructor; [reflexivity | constructor]).
    apply Forall_app; split; [|apply Forall_app; split; [exact Hdash|];
      apply Forall_app; split; [apply pad_digits|];
      apply Forall_app; split; [exact Hdash | apply pad_digits]].
    destruct (_ && _); [apply pad_digits|].
    constructor; [destruct (y <? 0); reflexivity | apply pad_digits].
  - destruct (_ && _); cbn [length]; rewrite ?length_app; cbn [length u];
      rewrite ?length_app, ?length_pad; cbn [length]; lia.
Qed.

Lemma split_on_hd (p : char -> bool) (a : jstring) :
  forall (cur rest : jstring) (x : char),
    Forall (fun c => p c = false) a -> p x = true ->
    hd [] (split_on p (a ++ x :: rest) cur) = rev cur ++ a.
Proof.
  induction a as [|c a IH]; intros cur rest x Ha Hx; cbn [app split_on].
  - rewrite Hx. cbn [hd]. now rewrite app_nil_r.
  - inversion Ha as [|? ? Hc Ha']; subst. rewrite Hc, IH by assumption.
    cbn [rev]. now rewrite <- app_assoc.
Qed.

Lemma split_on_hd_whole (p : char -> bool) (a : jstring) :
  forall cur, Forall (fun c => p c = false) a -> hd [] (split_on p a cur) = rev cur ++ a.
Proof.
  induction a as [|c a IH]; intros cur Ha; cbn [split_on].
  - cbn [hd]. now rewrite app_nil_r.
  - inversion Ha as [|? ? Hc Ha']; subst. rewrite Hc, IH by assumption.
    cbn [rev]. now rewrite <- app_assoc.
Qed.

Lemma dateKeyOf_isoDate (t : Z) : dateKeyOf t = isoDate t.
Proof.
  unfold dateKeyOf. destruct (toISOString_isoDate t) as (rest & ->).
  unfold split. now rewrite split_on_hd by (apply isoDate_shape || reflexivity).
Qed.

(** The day key is the part of the hour key before its [T], and the hour
    key the first 13 code units of the minute key. *)
Lemma dateKeyOf_hourKeyOf (t : Z) :
  dateKeyOf t = hd [] (split (isChar "T") (hourKeyOf t)).
Proof.
  rewrite dateKeyOf_isoDate. unfold hourKeyOf.
  destruct (toISOString_isoDate t) as (rest & ->).
  destruct (isoDate_shape t) as (Hno & [Hlen|Hlen]).
  - rewrite firstn_app, Hlen. rewrite firstn_all2 by lia.
    change (13 - 10)%nat with 3%nat. cbn [firstn].
    unfold split. now rewrite split_on_hd by (assumption || reflexivity).
  - rewrite firstn_app, Hlen. rewrite firstn_all2 by lia.
    change (13 - 13)%nat with 0%nat. cbn [firstn]. rewrite app_nil_r.
    unfold split. now rewrite split_on_hd_whole by assumption.
Qed.

Lemma hourKeyOf_minKeyOf (t : Z) : hourKeyOf t = firstn 13 (minKeyOf t).
Proof. unfold hourKeyOf, minKeyOf. now rewrite firstn_firstn. Qed.

Lemma loop_tables (tz : Z) (msgs : list Message) :
  let st := forEachFrom tz 0 msgs initialAcc in
  (NoDup (keys (dailyTotalCounts st))
   /\ forall k, getOr0 k (dailyTotalCounts st) = keyTotal dateKeyOf msgs k)
  /\ (NoDup (keys (msgsPerHourSpecific st))
      /\ forall k, getOr0 k (msgsPerHourSpecific st) = keyTotal hourKeyOf msgs k)
  /\ (NoDup (keys (msgsPerMinute st))
      /\ forall k, getOr0 k (msgsPerMinute st) = keyTotal minKeyOf msgs k).
Proof.
  cbv zeta. repeat split.
  all: try apply (loop_keyed tz dailyTotalCounts dateKeyOf); try reflexivity.
  all: try apply (loop_keyed tz msgsPerHourSpecific hourKeyOf); try reflexivity.
  all: try apply (loop_keyed tz msgsPerMinute minKeyOf); reflexivity.
Qed.

(** X12: [mostActiveDate] names a calendar day (UTC) of the filtered
    messages together with the number of messages of that day, and no day
    has more. *)
Theorem X12_most_active_date (tz : Z) (clock : nat -> Z) (msgs : list Message)
    (yearFilter : option Z) :
  let filtered := filterMessages tz msgs yearFilter in
  let a := mostActiveDate (analyzeMessages tz clock msgs yearFilter) in
  filtered <> [] ->
  In (mostActive_date a) (activeDays filtered)
  /\ 1 <= mostActive_count a
  /\ mostActive_count a = dayTotal filtered (mostActive_date a)
  /\ forall d, dayTotal filtered d <= mostActive_count a.
Proof.
  cbv zeta. unfold analyzeMessages.
  destruct (filterMessages tz msgs yearFilter) as [|first rest] eqn:Hf; [congruence|].
  intros _. cbn [mostActiveDate mostActive_date mostActive_count].
  set (l := first :: rest). set (st := forEachFrom tz 0 l initialAcc).
  destruct (loop_tables tz l) as ((Hnd & Hc) & _). fold st in Hnd, Hc.
  assert (Hfirst : 1 <= getOr0 (dateKeyOf (date first)) (dailyTotalCounts st)).
  { rewrite Hc. apply (countWhere_positive _ l first); [now left | apply str_eqb_refl]. }
  destruct (argMax_spec (dailyTotalCounts st) ([], 0)) as (_ & Hinit & Hall & Hex).
  cbv zeta in *.
  assert (Hin : In (argMax (dailyTotalCounts st) ([], 0)) (dailyTotalCounts st)).
  { apply Hex. unfold getOr0 in Hfirst.
    destruct (get (dateKeyOf (date first)) (dailyTotalCounts st)) as [v|] eqn:E; [|lia].
    apply get_Some_In in E. exists (dateKeyOf (date first), v). split; [exact E | cbn [snd]; lia]. }
  destruct (argMax (dailyTotalCounts st) ([], 0)) as [d c] eqn:Ea. cbn [fst snd] in *.
  assert (Hd : c = dayTotal l d).
  { pose proof (Hc d) as Hcd. unfold getOr0 in Hcd.
    now rewrite (NoDup_In_get d c _ Hnd Hin) in Hcd. }
  assert (Hmax : forall d', dayTotal l d' <= c).
  { intros d'. change (dayTotal l d') with (keyTotal dateKeyOf l d'). rewrite <- Hc.
    unfold getOr0. destruct (get d' (dailyTotalCounts st)) as [v|] eqn:E.
    - apply get_Some_In in E. apply (Hall (d', v) E).
    - exact Hinit. }
  repeat split.
  - apply (Permutation_in _ (activeDays_keys tz l)). fold st.
    apply in_map_iff. now exists (d, c).
  - specialize (Hmax (dateKeyOf (date first))).
    change (dayTotal l (dateKeyOf (date first)))
      with (keyTotal dateKeyOf l (dateKeyOf (date first))) in Hmax.
    rewrite <- Hc in Hmax. lia.
  - exact Hd.
  - exact Hmax.
Qed.

Lemma X12_most_active_date_witness :
  mostActive_count (mostActiveDate (analyzeMessages 0 (fun _ => 0) twoDays None))
  = dayTotal (filterMessages 0 twoDays None)
      (mostActive_date (mostActiveDate (analyzeMessages 0 (fun _ => 0) twoDays None))).
Proof.
  apply (X12_most_active_date 0 (fun _ => 0) twoDays None).
  vm_compute. discriminate.
Defined.

(** The [rapidFire] maxima in terms of the keys of the three tables: each
    bounds the number of messages of every key, is the number of messages
    of some key, and the three are ordered. *)
Lemma rapid_fire_keys (tz : Z) (clock : nat -> Z) (msgs : list Message)
    (yearFilter : option Z) :
  let filtered := filterMessages tz msgs yearFilter in
  let r := analyzeMessages tz clock msgs yearFilter in
  (forall k, keyTotal minKeyOf filtered k <= maxInMinute (rapidFire r))
  /\ (forall k, keyTotal hourKeyOf filtered k <= maxInHour (rapidFire r))
  /\ (forall k, keyTotal dateKeyOf filtered k <= maxInDay (rapidFire r))
  /\ (filtered <> [] ->
      (exists k, keyTotal minKeyOf filtered k = maxInMinute (rapidFire r))
      /\ (exists k, keyTotal hourKeyOf filtered k = maxInHour (rapidFire r))
      /\ (exists k, keyTotal dateKeyOf filtered k = maxInDay (rapidFire r))
      /\ 1 <= maxInMinute (rapidFire r))
  /\ maxInMinute (rapidFire r) <= maxInHour (rapidFire r)
  /\ maxInHour (rapidFire r) <= maxInDay (rapidFire r)
  /\ maxInDay (rapidFire r) <= totalMessages r.
Proof.
  cbv zeta. unfold analyzeMessages.
  destruct (filterMessages tz msgs yearFilter) as [|first rest] eqn:Hf.
  - cbn [rapidFire maxInMinute maxInHour maxInDay totalMessages].
    repeat split; try reflexivity; try lia; congruence.
  - cbn [rapidFire maxInMinute maxInHour maxInDay totalMessages].
    set (l := first :: rest). set (st := forEachFrom tz 0 l initialAcc).
    destruct (loop_tables tz l) as ((Hnd & Hd) & (Hnh & Hh) & (Hnm & Hm)).
    fold st in Hnd, Hd, Hnh, Hh, Hnm, Hm.
    change (snd (argMax (dailyTotalCounts st) ([], 0))) with (maxOf (dailyTotalCounts st)).
    assert (Hupper : forall (m : jsmap Z) key,
               (forall k, getOr0 k m = keyTotal key l k) ->
               forall k, keyTotal key l k <= maxOf m).
    { intros m key H k. rewrite <- H. apply maxOf_upper. }
    assert (Hone : forall (m : jsmap Z) key,
               (forall k, getOr0 k m = keyTotal key l k) -> 1 <= maxOf m).
    { intros m key H. etransitivity; [|apply (Hupper m key H (key (date first)))].
      apply (countWhere_positive _ l first); [now left | apply str_eqb_refl]. }
    assert (Hatt : forall (m : jsmap Z) key,
               NoDup (keys m) -> (forall k, getOr0 k m = keyTotal key l k) ->
               exists k, keyTotal key l k = maxOf m).
    { intros m key Hn H. destruct (maxOf_attained m Hn) as [H0 | (k & _ & Hk)].
      - pose proof (Hone m key H). lia.
      - exists k. now rewrite <- H. }
    split; [now apply Hupper|]. split; [now apply Hupper|]. split; [now apply Hupper|].
    split; [intros _; repeat split; eauto|]. split; [|split].
    + apply (maxOf_le _ _ (firstn 13) Hnm). intros k. rewrite Hm, Hh.
      rewrite (keyTotal_ext hourKeyOf (fun t => firstn 13 (minKeyOf t)))
        by apply hourKeyOf_minKeyOf.
      apply (keyTotal_refines minKeyOf (firstn 13)).
    + apply (maxOf_le _ _ (fun k => hd [] (split (isChar "T") k)) Hnh). intros k.
      rewrite Hh, Hd.
      rewrite (keyTotal_ext dateKeyOf (fun t => hd [] (split (isChar "T") (hourKeyOf t))))
        by apply dateKeyOf_hourKeyOf.
      apply (keyTotal_refines hourKeyOf (fun k => hd [] (split (isChar "T") k))).
    + destruct (Hatt _ _ Hnd Hd) as (k & <-). apply countWhere_bounds.
Qed.

(** *** The years of the selector *)

Lemma str_compare_antisym (a : jstring) :
  forall b, str_compare b a = CompOpp (str_compare a b).
Proof.
  induction a as [|x a IH]; intros [|y b]; cbn [str_compare CompOpp]; try reflexivity.
  rewrite (N.compare_antisym x y). destruct (x ?= y)%N; cbn [CompOpp]; auto.
Qed.

Lemma str_leb_total (a b : jstring) : str_leb a b = false -> str_leb b a = true.
Proof.
  unfold str_leb. rewrite (str_compare_antisym a b).
  destruct (str_compare a b); cbn [CompOpp]; congruence.
Qed.

Lemma str_compare_Eq (a : jstring) : forall b, str_compare a b = Eq -> a = b.
Proof.
  induction a as [|x a IH]; intros [|y b]; cbn [str_compare]; try congruence.
  destruct (N.compare_spec x y) as [Hxy|Hxy|Hxy]; try congruence.
  intros Hab. subst. f_equal. auto.
Qed.

Lemma str_compare_Lt_trans (a : jstring) :
  forall b c, str_compare a b = Lt -> str_compare b c = Lt -> str_compare a c = Lt.
Proof.
  induction a as [|x a IH]; intros [|y b] [|z c]; cbn [str_compare]; try congruence.
  destruct (N.compare_spec x y) as [Hxy|Hxy|Hxy], (N.compare_spec y z) as [Hyz|Hyz|Hyz];
    try congruence; intros H1 H2.
  - subst. rewrite N.compare_refl. eauto.
  - subst. apply N.compare_lt_iff in Hyz. now rewrite Hyz.
  - subst. apply N.compare_lt_iff in Hxy. now rewrite Hxy.
  - assert (Hxz : (x < z)%N) by lia. apply N.compare_lt_iff in Hxz. now rewrite Hxz.
Qed.

Lemma str_leb_trans (a b c : jstring) :
  str_leb a b = true -> str_leb b c = true -> str_leb a c = true.
Proof.
  unfold str_leb. destruct (str_compare a b) eqn:E1; try discriminate;
    destruct (str_compare b c) eqn:E2; try discriminate; intros _ _.
  - apply str_compare_Eq in E1. rewrite E1. now rewrite E2.
  - apply str_compare_Eq in E1. rewrite E1. now rewrite E2.
  - apply str_compare_Eq in E2. rewrite <- E2. now rewrite E1.
  - now rewrite (str_compare_Lt_trans a b c E1 E2).
Qed.

Lemma str_compare_snoc (a : jstring) :
  forall (b : jstring) (x y : char),
    length a = length b ->
    str_compare (a ++ [x]) (b ++ [y])
    = match str_compare a b with Eq => (x ?= y)%N | c => c end.
Proof.
  induction a as [|a0 a IH]; intros [|b0 b] x y Hlen; try discriminate; cbn [app str_compare].
  - destruct (x ?= y)%N; reflexivity.
  - destruct (a0 ?= b0)%N; try reflexivity. apply IH. now injection Hlen.
Qed.

Lemma pad_compare (w : nat) :
  forall a b,
    str_compare (pad w a) (pad w b) = (a mod 10 ^ Z.of_nat w ?= b mod 10 ^ Z.of_nat w).
Proof.
  induction w as [|w IH]; intros a b.
  - cbn [pad str_compare]. change (10 ^ Z.of_nat 0) with 1. now rewrite !Z.mod_1_r.
  - cbn [pad]. rewrite str_compare_snoc by now rewrite !length_pad.
    rewrite IH, Nat2Z.inj_succ, Z.pow_succ_r by lia.
    assert (Hp : 0 < 10 ^ Z.of_nat w) by (apply Z.pow_pos_nonneg; lia).
    rewrite !(Z.rem_mul_r _ 10) by lia.
    pose proof (Z.mod_pos_bound a 10 ltac:(lia)) as Ha.
    pose proof (Z.mod_pos_bound b 10 ltac:(lia)) as Hb.
    set (x := (a / 10) mod 10 ^ Z.of_nat w). set (y := (b / 10) mod 10 ^ Z.of_nat w).
    set (r := a mod 10) in *. set (s := b mod 10) in *.
    destruct (Z.compare_spec x y) as [Hxy|Hxy|Hxy].
    + destruct (N.compare_spec (48 + Z.to_N r) (48 + Z.to_N s)),
        (Z.compare_spec (r + 10 * x) (s + 10 * y)); try reflexivity; lia.
    + symmetry. apply Z.compare_lt_iff. lia.
    + symmetry. apply Z.compare_gt_iff. lia.
Qed.

Lemma toString_four_digits (n : Z) : 1000 <= n <= 9999 -> toString n = pad 4 n.
Proof.
  intros Hn.
  assert (Hall : forallb (fun k => str_eqb (toString (1000 + Z.of_nat k)) (pad 4 (1000 + Z.of_nat k)))
                   (seq 0 (Z.to_nat 9000)) = true) by (vm_compute; reflexivity).
  rewrite forallb_forall in Hall. specialize (Hall (Z.to_nat (n - 1000))).
  rewrite Z2Nat.id in Hall by lia. replace (1000 + (n - 1000)) with n in Hall by lia.
  apply str_eqb_eq, Hall, in_seq. lia.
Qed.

Lemma yearLeb_four_digits (a b : Z) :
  1000 <= a <= 9999 -> 1000 <= b <= 9999 -> yearLeb a b = true -> a <= b.
Proof.
  intros Ha Hb. unfold yearLeb, str_leb.
  rewrite !toString_four_digits, pad_compare by assumption.
  change (10 ^ Z.of_nat 4) with 10000. rewrite !Z.mod_small by lia.
  destruct (Z.compare_spec a b); first [lia | discriminate].
Qed.

Lemma dedupInto_spec (l : list Z) :
  forall seen,
    NoDup seen ->
    NoDup (dedupInto seen l) /\ forall y, In y (dedupInto seen l) <-> In y seen \/ In y l.
Proof.
  induction l as [|x l IH]; intros seen Hnd; cbn [dedupInto].
  - split; [exact Hnd | intros y; cbn [In]; tauto].
  - destruct (existsb (Z.eqb x) seen) eqn:E.
    + destruct (IH seen Hnd) as (H1 & H2). split; [exact H1|].
      intros y. rewrite H2. cbn [In].
      apply existsb_exists in E. destruct E as (x' & Hin & Hx). apply Z.eqb_eq in Hx. subst x'.
      intuition (subst; auto).
    + assert (Hnew : ~ In x seen).
      { intros Hin. assert (Ht : existsb (Z.eqb x) seen = true)
          by (apply existsb_exists; exists x; split; [exact Hin | apply Z.eqb_refl]).
        congruence. }
      destruct (IH (seen ++ [x])) as (H1 & H2).
      { apply NoDup_app; [exact Hnd | repeat constructor; intros [] |].
        intros y Hy [<-|[]]. contradiction. }
      split; [exact H1|]. intros y. rewrite H2, in_app_iff. cbn [In]. tauto.
Qed.

Lemma StronglySorted_snoc {A : Type} (R : A -> A -> Prop) (l : list A) (x : A) :
  StronglySorted R l -> Forall (fun a => R a x) l -> StronglySorted R (l ++ [x]).
Proof.
  induction 1 as [|y l Hs IH Hall]; intros Hx; cbn [app].
  - repeat constructor.
  - inversion Hx; subst. constructor; [now apply IH|].
    apply Forall_app. split; [exact Hall | now repeat constructor].
Qed.

Lemma StronglySorted_rev {A : Type} (R : A -> A -> Prop) (l : list A) :
  StronglySorted R l -> StronglySorted (fun a b => R b a) (rev l).
Proof.
  induction 1 as [|x l Hs IH Hall]; cbn [rev]; [constructor|].
  apply StronglySorted_snoc; [exact IH|].
  apply Forall_forall. intros a Ha. apply in_rev in Ha.
  rewrite Forall_forall in Hall. auto.
Qed.

Lemma StronglySorted_strict {A : Type} (P : A -> Prop) (R R' : A -> A -> Prop) (l : list A) :
  (forall a b, P a -> P b -> R a b -> a <> b -> R' a b) ->
  Forall P l -> NoDup l -> StronglySorted R l -> StronglySorted R' l.
Proof.
  intros H Hp Hnd Hs. induction Hs as [|x l Hs IH Hall]; [constructor|].
  inversion Hp; subst. inversion Hnd; subst. constructor; [now apply IH|].
  rewrite Forall_forall in *. intros y Hy. apply H; auto. intros ->. contradiction.
Qed.

(** X14: for a non-empty filtered list, [yearOptions] lists the calendar
    years (local time) of all the messages, filtered or not, each once, in
    descending order of their decimal strings; when the years have four
    digits that is the descending numeric order. Filtering by a listed
    year never gives an empty list. *)
Theorem X14_year_options (tz : Z) (clock : nat -> Z) (msgs : list Message)
    (yearFilter : option Z) :
  let ys := yearOptions (analyzeMessages tz clock msgs yearFilter) in
  filterMessages tz msgs yearFilter <> [] ->
  NoDup ys
  /\ (forall y, In y ys <-> In y (yearsOf tz msgs))
  /\ StronglySorted (fun a b => yearLeb b a = true) ys
  /\ (Forall (fun y => 1000 <= y <= 9999) (yearsOf tz msgs) ->
      StronglySorted (fun a b => b < a) ys)
  /\ (forall y, In y ys -> filterMessages tz msgs (Some y) <> []).
Proof.
  cbv zeta. unfold analyzeMessages.
  destruct (filterMessages tz msgs yearFilter) as [|first rest] eqn:Hf; [congruence|].
  intros _. cbn [yearOptions]. fold (yearsOf tz msgs). fold yearLeb.
  change (fun a b => str_leb (toString a) (toString b)) with yearLeb.
  destruct (dedupInto_spec (yearsOf tz msgs) [] (NoDup_nil _)) as (Hnd & Hin).
  set (years := dedupInto [] (yearsOf tz msgs)) in *.
  assert (Hperm : Permutation (rev (sort yearLeb years)) years).
  { rewrite <- Permutation_rev. apply sort_Permutation. }
  assert (Hmem : forall y, In y (rev (sort yearLeb years)) <-> In y (yearsOf tz msgs)).
  { intros y. split; intros H.
    - apply (Permutation_in _ Hperm) in H. apply Hin in H. destruct H as [[]|H]. exact H.
    - apply (Permutation_in _ (Permutation_sym Hperm)). apply Hin. now right. }
  assert (Hnd' : NoDup (rev (sort yearLeb years)))
    by (apply (Permutation_NoDup (Permutation_sym Hperm) Hnd)).
  assert (Hsorted : StronglySorted (fun a b => yearLeb b a = true) (rev (sort yearLeb years))).
  { apply StronglySorted_rev. apply sort_StronglySorted.
    - intros x y. apply str_leb_total.
    - intros x y z. apply str_leb_trans. }
  split; [exact Hnd'|]. split; [exact Hmem|]. split; [exact Hsorted|]. split.
  - intros Hrange.
    apply (StronglySorted_strict (fun y => 1000 <= y <= 9999)
             (fun a b => yearLeb b a = true)); auto.
    + intros a b Ha Hb Hle Hne. pose proof (yearLeb_four_digits b a Hb Ha Hle). lia.
    + apply Forall_forall. intros y Hy. rewrite Forall_forall in Hrange.
      now apply Hrange, Hmem.
  - intros y Hy. apply Hmem in Hy. unfold yearsOf in Hy. apply in_map_iff in Hy.
    destruct Hy as (m & Hm & Hin'). cbn [filterMessages].
    destruct (y =? 0); [intros ->; contradiction|].
    intros Hnil. assert (Hin2 : In m (filter (fun m0 => getFullYear tz (date m0) =? y) msgs)).
    { apply filter_In. split; [exact Hin' | now apply Z.eqb_eq]. }
    rewrite Hnil in Hin2. contradiction.
Qed.

Lemma X14_year_options_witness :
  NoDup (yearOptions (analyzeMessages 0 (fun _ => 0) twoDays None)).
Proof.
  refine (proj1 (X14_year_options 0 (fun _ => 0) twoDays None _)).
  vm_compute. discriminate.
Defined.


(* ===================================================================== *)
(** ** Further properties of the parser *)
(* ===================================================================== *)

(** *** Lines and trimming *)

Lemma split_lines_from_cons (x : char) (s cur : jstring) :
  split_lines_from (x :: s) cur
  = match s with
    | y :: s' =>
        if (x =? 13)%N && (y =? 10)%N then rev cur :: split_lines_from s' []
        else if (x =? 10)%N then rev cur :: split_lines_from s []
        else split_lines_from s (x :: cur)
    | [] => if (x =? 10)%N then rev cur :: split_lines_from s []
            else split_lines_from s (x :: cur)
    end.
Proof.
  destruct (N.eqb_spec x 13) as [->|H13].
  - destruct s as [|y s']; [reflexivity|].
    destruct (N.eqb_spec y 10) as [->|H10]; [reflexivity|].
    cbn [andb N.eqb Pos.eqb].
    destruct y as [|p]; [reflexivity|].
    do 4 (try (destruct p as [p|p|]; try reflexivity; try congruence)).
  - destruct (N.eqb_spec x 10) as [->|H10].
    + destruct s; reflexivity.
    + cbn [andb].
      destruct x as [|p]; [destruct s; reflexivity|].
      do 4 (try (destruct p as [p|p|]; try (destruct s; reflexivity); try congruence)).
Qed.

(** Every code unit of a line is a code unit of the text. *)
Lemma split_lines_from_units (P : char -> Prop) (n : nat) :
  forall s cur,
    (length s <= n)%nat -> Forall P s -> Forall P cur ->
    Forall (Forall P) (split_lines_from s cur).
Proof.
  induction n as [|n IH]; intros s cur Hlen Hs Hcur.
  - destruct s; [|cbn [length] in Hlen; lia]. cbn [split_lines_from].
    constructor; [|constructor]. apply Forall_rev. exact Hcur.
  - destruct s as [|x s].
    + cbn [split_lines_from]. constructor; [|constructor]. apply Forall_rev. exact Hcur.
    + rewrite split_lines_from_cons. inversion Hs as [|? ? Hx Hs']; subst.
      cbn [length] in Hlen.
      assert (Hrev : Forall P (rev cur)) by (apply Forall_rev; exact Hcur).
      destruct s as [|y s'].
      * destruct (x =? 10)%N; [constructor; [exact Hrev|] |]; apply IH; auto; cbn [length]; lia.
      * inversion Hs' as [|? ? Hy Hs'']; subst. cbn [length] in Hlen.
        destruct ((x =? 13)%N && (y =? 10)%N).
        -- constructor; [exact Hrev|]. apply IH; auto. lia.
        -- destruct (x =? 10)%N; [constructor; [exact Hrev|] |]; apply IH; auto;
             cbn [length]; lia.
Qed.

Lemma replace_all_removes (p : char -> bool) (s : jstring) :
  Forall (fun c => p c = false) (replace_all p [] s).
Proof.
  unfold replace_all. induction s as [|x s IH]; cbn [flat_map]; [constructor|].
  destruct (p x) eqn:E; cbn [app]; [exact IH | now constructor].
Qed.

Lemma dropWhile_headNot (p : char -> bool) (s : jstring) : headNot p (dropWhile p s).
Proof.
  induction s as [|x s IH]; cbn [dropWhile]; [exact I|].
  destruct (p x) eqn:E; [exact IH | exact E].
Qed.

Lemma dropWhile_suffix (p : char -> bool) (s : jstring) :
  exists pre, s = pre ++ dropWhile p s.
Proof.
  induction s as [|x s (pre & IH)]; cbn [dropWhile]; [now exists []|].
  destruct (p x); [exists (x :: pre); cbn [app]; now f_equal | now exists []].
Qed.

Lemma headNot_prefix (p : char -> bool) (a b : jstring) : headNot p (a ++ b) -> headNot p a.
Proof. destruct a; [intros _; exact I | auto]. Qed.

Lemma trim_trimmed (s : jstring) : trimmed (trim s).
Proof.
  unfold trimmed, trim. split.
  - destruct (dropWhile_suffix isSpace (rev (dropWhile isSpace s))) as (pre & Hpre).
    apply (headNot_prefix _ _ (rev pre)). rewrite <- rev_app_distr, <- Hpre, rev_involutive.
    apply dropWhile_headNot.
  - rewrite rev_involutive. apply dropWhile_headNot.
Qed.

Lemma dropWhile_In (p : char -> bool) (s : jstring) (c : char) :
  In c (dropWhile p s) -> In c s.
Proof.
  destruct (dropWhile_suffix p s) as (pre & Hpre). intros H. rewrite Hpre.
  apply in_or_app. now right.
Qed.

Lemma trim_In (s : jstring) (c : char) : In c (trim s) -> In c s.
Proof.
  unfold trim. intros H. apply in_rev in H. apply dropWhile_In in H.
  apply in_rev in H. now apply dropWhile_In in H.
Qed.

Lemma firstn_In {A : Type} (n : nat) (l : list A) (x : A) : In x (firstn n l) -> In x l.
Proof. intros H. rewrite <- (firstn_skipn n l). apply in_or_app. now left. Qed.

Lemma skipn_In {A : Type} (n : nat) (l : list A) (x : A) : In x (skipn n l) -> In x l.
Proof. intros H. rewrite <- (firstn_skipn n l). apply in_or_app. now right. Qed.

Lemma indexOf_firstn (c : char) (s : jstring) :
  forall i, indexOf c s = Some i -> ~ In c (firstn i s).
Proof.
  induction s as [|x s IH]; intros i; cbn [indexOf]; [discriminate|].
  destruct (N.eqb_spec x c) as [->|Hne].
  - intros H. inversion H. cbn [firstn]. auto.
  - destruct (indexOf c s) as [j|]; [|discriminate]. cbn [option_map].
    intros H. inversion H. cbn [firstn]. intros [Hx|Hin]; [contradiction|].
    now apply (IH j).
Qed.

(** *** The loop over the lines *)

Lemma appendContent_last (front : list Message) (m : Message) (line : jstring) :
  appendContent (length front) line (front ++ [m]) = front ++ [withLine m line].
Proof. induction front as [|x front IH]; cbn [length app appendContent]; [reflexivity | now f_equal]. Qed.


Lemma appendContent_Forall (P : Message -> Prop) (line : jstring) (ms : list Message) :
  (forall m, P m -> P (withLine m line)) ->
  forall i, Forall P ms -> Forall P (appendContent i line ms).
Proof.
  intros HP. induction ms as [|m ms IH]; intros [|i] H; cbn [appendContent]; try exact H;
    inversion H; subst; constructor; auto. now apply (HP m).
Qed.

Lemma parseLine_aliasesLast (tz : Z) (fmt : DateFormat) (st : ParserState) (line : jstring) :
  aliasesLast st -> aliasesLast (parseLine tz fmt st line).
Proof.
  unfold aliasesLast, parseLine. intros H.
  destruct (match_ TIMESTAMP_PATTERN line) as [m|].
  - destruct (parseDate tz (m1 m) (m2 m) fmt); [|exact H].
    destruct (indexOf _ _); cbn [lastMessage parsed]; [|exact I].
    rewrite length_app. cbn [length]. lia.
  - destruct (lastMessage st) as [i|] eqn:E; cbn [lastMessage parsed]; [|now rewrite E].
    rewrite <- H. clear. generalize (parsed st) as ms. revert i.
    intros i ms. revert i. induction ms as [|m ms IH]; intros [|i]; cbn [appendContent length];
      auto.
Qed.

Lemma parseLines_snoc (tz : Z) (fmt : DateFormat) (lines : list jstring) (line : jstring) :
  parseLines tz fmt (lines ++ [line]) = parseLine tz fmt (parseLines tz fmt lines) line.
Proof. unfold parseLines. now rewrite fold_left_app. Qed.

Lemma parseLines_aliasesLast (tz : Z) (fmt : DateFormat) (lines : list jstring) :
  aliasesLast (parseLines tz fmt lines).
Proof.
  induction lines as [|line lines IH] using rev_ind; [exact I|].
  rewrite parseLines_snoc. now apply parseLine_aliasesLast.
Qed.





(** X16: a line that does not start with a timestamp is appended, after a
    line feed, to the text of the most recent message and changes nothing
    else; when the previous line with a timestamp was one without a colon
    (or there was none), the line is dropped. *)
Theorem X16_continuation_line (tz : Z) (fmt : DateFormat) (before : list jstring)
    (line : jstring) :
  match_ TIMESTAMP_PATTERN line = None ->
  let st := parseLines tz fmt before in
  let st' := parseLines tz fmt (before ++ [line]) in
  match lastMessage st with
  | None => st' = st
  | Some _ =>
      exists front m,
        parsed st = front ++ [m]
        /\ parsed st' = front ++ [withLine m line]
        /\ lastMessage st' = lastMessage st
  end.
Proof.
  intros Hno. cbv zeta. rewrite parseLines_snoc.
  pose proof (parseLines_aliasesLast tz fmt before) as Halias.
  set (st := parseLines tz fmt before) in *.
  unfold parseLine. rewrite Hno. unfold aliasesLast in Halias.
  destruct (lastMessage st) as [i|] eqn:E; [|reflexivity].
  assert (Hne : parsed st <> []) by (intros Hnil; rewrite Hnil in Halias; discriminate).
  destruct (exists_last Hne) as (front & m & Hfm).
  exists front, m. cbn [parsed lastMessage]. rewrite Hfm in Halias |- *.
  rewrite length_app in Halias. cbn [length] in Halias.
  assert (Hi : i = length front) by lia. subst i.
  now rewrite appendContent_last.
Qed.

Lemma X16_continuation_line_witness :
  exists front m,
    parsed (parseLines 0 DMY [u "13/05/23, 9:00 - Alice: first line"]) = front ++ [m]
    /\ parsed (parseLines 0 DMY ([u "13/05/23, 9:00 - Alice: first line"] ++ [u "second line"]))
       = front ++ [withLine m (u "second line")]
    /\ lastMessage (parseLines 0 DMY ([u "13/05/23, 9:00 - Alice: first line"] ++ [u "second line"]))
       = lastMessage (parseLines 0 DMY [u "13/05/23, 9:00 - Alice: first line"]).
Proof.
  apply (X16_continuation_line 0 DMY [u "13/05/23, 9:00 - Alice: first line"] (u "second line")).
  vm_compute. reflexivity.
Defined.

Lemma parseLine_Forall (tz : Z) (fmt : DateFormat) (P : Message -> Prop) (st : ParserState)
    (line : jstring) :
  (forall m, P m -> P (withLine m line)) ->
  (forall d i (remainder : jstring),
      (forall c, In c remainder -> In c line) ->
      indexOf (ch ":") remainder = Some i ->
      P {| date := d; sender := trim (firstn i remainder);
           content := trim (skipn (i + 1) remainder) |}) ->
  Forall P (parsed st) -> Forall P (parsed (parseLine tz fmt st line)).
Proof.
  intros Hline Hnew H. unfold parseLine.
  destruct (match_ TIMESTAMP_PATTERN line) as [m|].
  - cbv zeta. destruct (parseDate tz (m1 m) (m2 m) fmt) as [d|]; [|exact H].
    destruct (indexOf _ _) as [i|] eqn:Ei; cbn [parsed]; [|exact H].
    apply Forall_app. split; [exact H|]. constructor; [|constructor].
    apply (Hnew d i _ (fun c => skipn_In _ line c) Ei).
  - destruct (lastMessage st); cbn [parsed]; [|exact H].
    now apply appendContent_Forall.
Qed.

(** X17: the sender of a parsed message contains no colon and has no white
    space at either end, and neither the sender nor the text of a message
    contains a directional mark (U+200E, U+200F). *)
Theorem X17_senders_and_marks (tz : Z) (language text : jstring) (m : Message) :
  In m (messages (parseChatFile tz language text)) ->
  ~ In (ch ":") (sender m)
  /\ trimmed (sender m)
  /\ noDirMark (sender m)
  /\ noDirMark (content m).
Proof.
  unfold parseChatFile. destruct text as [|c0 text]; [intros []|]. cbn [messages].
  set (clean := replace_all isDirMark [] (c0 :: text)).
  set (fmt := detectDateFormat language (split_lines clean)).
  assert (Hlines : Forall noDirMark (split_lines clean)).
  { unfold split_lines.
    apply (split_lines_from_units _ (length clean));
      [lia | apply replace_all_removes | constructor]. }
  assert (Hall : forall lines,
             Forall noDirMark lines ->
             Forall (fun m => ~ In (ch ":") (sender m) /\ trimmed (sender m)
                              /\ noDirMark (sender m) /\ noDirMark (content m))
               (parsed (parseLines tz fmt lines))).
  { induction lines as [|line lines IH] using rev_ind; intros Hl; [constructor|].
    apply Forall_app in Hl. destruct Hl as (Hl & Hline). inversion Hline as [|? ? Hclean _]; subst.
    rewrite parseLines_snoc. apply parseLine_Forall; [| |now apply IH].
    - intros m' (H1 & H2 & H3 & H4). cbn [withLine sender content].
      split; [exact H1|]. split; [exact H2|]. split; [exact H3|].
      apply Forall_app. split; [exact H4|]. constructor; [reflexivity | exact Hclean].
    - intros d i remainder Hsub Hi. cbn [sender content].
      assert (Hrem : forall s, (forall c, In c s -> In c remainder) -> noDirMark s).
      { intros s Hs. apply Forall_forall. intros c Hc.
        unfold noDirMark in Hclean. rewrite Forall_forall in Hclean. auto. }
      split; [|split; [apply trim_trimmed|split]].
      + intros Hin. apply trim_In in Hin. now apply (indexOf_firstn _ _ _ Hi).
      + apply Hrem. intros c Hc. apply trim_In in Hc. now apply firstn_In in Hc.
      + apply Hrem. intros c Hc. apply trim_In in Hc. now apply skipn_In in Hc. }
  intros Hin. specialize (Hall _ Hlines). rewrite Forall_forall in Hall.
  now apply Hall.
Qed.

Lemma X17_senders_and_marks_witness :
  In (msg 1683968400000 (u "Alice") (u "first line" ++ nl ++ u "second line"))
     (messages (parseChatFile 0 (u "en-GB")
                  (u "13/05/23, 9:00 - Alice: first line" ++ nl ++ u "second line")))
  /\ ~ In (ch ":") (u "Alice").
Proof.
  assert (Hin : In (msg 1683968400000 (u "Alice") (u "first line" ++ nl ++ u "second line"))
                  (messages (parseChatFile 0 (u "en-GB")
                     (u "13/05/23, 9:00 - Alice: first line" ++ nl ++ u "second line"))))
    by (vm_compute; now left).
  split; [exact Hin|].
  exact (proj1 (X17_senders_and_marks 0 (u "en-GB") _ _ Hin)).
Defined.


(** *** The detection of the date order *)

Lemma scanFormat_spec (lines : list jstring) :
  forall a b : Z,
    let '(isYMD, a', b') := scanFormat lines a b in
    isYMD = existsb (fun c => gtb_ (fst c) 1000) (dateComponents lines)
    /\ (isYMD = false ->
        (a' >? 12) = ((a >? 12) || existsb (fun c => gtb_ (fst c) 12) (dateComponents lines))
        /\ (b' >? 12) = ((b >? 12) || existsb (fun c => gtb_ (snd c) 12) (dateComponents lines))).
Proof.
  induction lines as [|line lines IH]; intros a b.
  - cbn [scanFormat dateComponents flat_map existsb]. rewrite !orb_false_r. auto.
  - cbn [scanFormat dateComponents flat_map]. fold (dateComponents lines).
    destruct (match_ TIMESTAMP_PATTERN line) as [m|]; [|apply IH].
    cbv zeta. cbn [app existsb fst snd].
    set (p0 := at_ (map Number_ (split isDateSep (m1 m))) 0).
    set (p1 := at_ (map Number_ (split isDateSep (m1 m))) 1).
    destruct (gtb_ p0 1000) eqn:Ey.
    + split; [reflexivity | discriminate].
    + specialize (IH (match p0 with Some p => if p >? a then p else a | None => a end)
                     (match p1 with Some p => if p >? b then p else b | None => b end)).
      destruct (scanFormat lines _ _) as [[y a'] b']. destruct IH as (Hy & Hmax).
      cbn [orb]. split; [exact Hy|]. intros Hf. destruct (Hmax Hf) as (Ha & Hb).
      rewrite Ha, Hb, !orb_assoc. split; f_equal.
      * destruct p0 as [p|]; cbn [gtb_]; [|now rewrite orb_false_r].
        destruct (p >? a) eqn:E1, (p >? 12) eqn:E2, (a >? 12) eqn:E3; try reflexivity;
          rewrite ?Z.gtb_ltb in *; rewrite ?Z.ltb_lt, ?Z.ltb_ge in *; lia.
      * destruct p1 as [p|]; cbn [gtb_]; [|now rewrite orb_false_r].
        destruct (p >? b) eqn:E1, (p >? 12) eqn:E2, (b >? 12) eqn:E3; try reflexivity;
          rewrite ?Z.gtb_ltb in *; rewrite ?Z.ltb_lt, ?Z.ltb_ge in *; lia.
Qed.

(** X18: [detectDateFormat] depends only on the numeric date components of
    the first 50 lines that start with a timestamp, not on their order: a
    first component above 1000 gives [YMD]; failing that a first component
    above 12 gives [DMY]; failing that a second component above 12 gives
    [MDY]; otherwise the locale decides, [MDY] for one that starts with
    [en-US] and [DMY] for every other, an empty one included. *)
Theorem X18_date_order_decision (language : jstring) (lines : list jstring) :
  detectDateFormat language lines
  = formatOfComponents language (dateComponents (firstn 50 lines)).
Proof.
  unfold detectDateFormat, formatOfComponents.
  pose proof (scanFormat_spec (firstn 50 lines) 0 0) as H.
  destruct (scanFormat (firstn 50 lines) 0 0) as [[y a'] b']. destruct H as (Hy & Hmax).
  rewrite <- Hy. destruct y; [reflexivity|].
  destruct (Hmax eq_refl) as (Ha & Hb). rewrite Ha, Hb. reflexivity.
Qed.


(* ===================================================================== *)
(** ** The calendar of the host *)
(* ===================================================================== *)

Lemma In_zrangeFrom (n : nat) :
  forall lo x, lo <= x < lo + Z.of_nat n -> In x (zrangeFrom lo n).
Proof.
  induction n as [|n IH]; intros lo x H; [lia|]. cbn [zrangeFrom].
  destruct (Z.eq_dec lo x) as [->|Hne]; [now left|]. right. apply IH. lia.
Qed.

Lemma In_zrange (lo n x : Z) : lo <= x < lo + n -> In x (zrange lo n).
Proof. intros H. unfold zrange. apply In_zrangeFrom. lia. Qed.

Lemma days_from_civil_era (y m d : Z) :
  days_from_civil y m d
  = (if m <=? 2 then y - 1 else y) / 400 * 146097
    + (yearStart ((if m <=? 2 then y - 1 else y) mod 400) + dayOfYear m d) - 719468.
Proof.
  unfold days_from_civil, yearStart, dayOfYear. cbv zeta.
  set (y' := if m <=? 2 then y - 1 else y).
  rewrite (Z.mod_eq y' 400) by lia.
  replace (y' - 400 * (y' / 400)) with (y' - y' / 400 * 400) by lia. lia.
Qed.

Lemma civil_from_days_era (era doe : Z) :
  0 <= doe < 146097 ->
  civil_from_days (era * 146097 + doe - 719468)
  = let '(m, d) := monthDay (doe - yearStart (yearOfEra doe)) in
    (yearOfEra doe + era * 400 + (if m <=? 2 then 1 else 0), m, d).
Proof.
  intros Hdoe. unfold civil_from_days, monthDay, yearStart, yearOfEra. cbv zeta.
  replace (era * 146097 + doe - 719468 + 719468) with (era * 146097 + doe) by lia.
  assert (Hera : (era * 146097 + doe) / 146097 = era).
  { rewrite Z.div_add_l by lia. rewrite Z.div_small by lia. lia. }
  rewrite Hera. replace (era * 146097 + doe - era * 146097) with doe by lia.
  set (yoe := (doe - doe / 1460 + doe / 36524 - doe / 146096) / 365).
  replace (365 * yoe) with (yoe * 365) by lia. reflexivity.
Qed.

Lemma yearOfEra_mono (x y : Z) :
  0 <= x <= y -> y < 146097 -> yearOfEra x <= yearOfEra y.
Proof.
  intros Hx Hy. unfold yearOfEra. apply Z.div_le_mono; [lia|].
  Z.div_mod_to_equations. lia.
Qed.


Lemma isLeapYear_era (y era : Z) : isLeapYear (y + era * 400) = isLeapYear y.
Proof.
  unfold isLeapYear.
  replace ((y + era * 400) mod 4) with (y mod 4) by (Z.div_mod_to_equations; lia).
  replace ((y + era * 400) mod 100) with (y mod 100) by (Z.div_mod_to_equations; lia).
  replace ((y + era * 400) mod 400) with (y mod 400) by (Z.div_mod_to_equations; lia).
  reflexivity.
Qed.

Lemma daysInMonth_era (y era m : Z) : daysInMonth (y + era * 400) m = daysInMonth y m.
Proof. unfold daysInMonth. now rewrite isLeapYear_era. Qed.

Lemma year_table (yoe : Z) :
  0 <= yoe < 400 ->
  0 <= yearStart yoe
  /\ yearStart yoe + yearLength yoe <= 146097
  /\ yearOfEra (yearStart yoe) = yoe
  /\ yearOfEra (yearStart yoe + yearLength yoe - 1) = yoe
  /\ (yoe < 399 -> yearStart yoe + yearLength yoe = yearStart (yoe + 1)).
Proof.
  intros Hy.
  assert (Hall :
    forallb (fun yoe =>
        (0 <=? yearStart yoe)
        && (yearStart yoe + yearLength yoe <=? 146097)
        && (yearOfEra (yearStart yoe) =? yoe)
        && (yearOfEra (yearStart yoe + yearLength yoe - 1) =? yoe)
        && ((yoe =? 399) || (yearStart yoe + yearLength yoe =? yearStart (yoe + 1))))
      (zrange 0 400) = true) by (vm_compute; reflexivity).
  rewrite forallb_forall in Hall. specialize (Hall yoe (In_zrange 0 400 yoe ltac:(lia))).
  rewrite !andb_true_iff, orb_true_iff, !Z.leb_le, !Z.eqb_eq in Hall.
  destruct Hall as ((((H0 & H1) & H2) & H3) & H4).
  repeat split; auto. intros Hlt. destruct H4 as [H4|H4]; [lia | exact H4].
Qed.

Lemma yearLength_bounds (yoe : Z) : 365 <= yearLength yoe <= 366.
Proof. unfold yearLength. destruct (isLeapYear _); lia. Qed.

Lemma yearOfEra_in_year (yoe doy : Z) :
  0 <= yoe < 400 -> 0 <= doy < yearLength yoe ->
  0 <= yearStart yoe + doy < 146097 /\ yearOfEra (yearStart yoe + doy) = yoe.
Proof.
  intros Hy Hd. destruct (year_table yoe Hy) as (H0 & Hend & Hlo & Hhi & _).
  split; [lia|].
  pose proof (yearOfEra_mono (yearStart yoe) (yearStart yoe + doy) ltac:(lia) ltac:(lia)).
  pose proof (yearOfEra_mono (yearStart yoe + doy) (yearStart yoe + yearLength yoe - 1)
                ltac:(lia) ltac:(lia)).
  lia.
Qed.

Lemma month_table (m d : Z) :
  1 <= m <= 12 -> 1 <= d <= daysInMonth 0 m ->
  monthDay (dayOfYear m d) = (m, d)
  /\ 0 <= dayOfYear m d <= 365
  /\ (dayOfYear m d = 365 -> m = 2 /\ d = 29).
Proof.
  intros Hm Hd.
  assert (Hall :
    forallb (fun m => forallb (fun d =>
        (let '(m', d') := monthDay (dayOfYear m d) in (m' =? m) && (d' =? d))
        && (0 <=? dayOfYear m d) && (dayOfYear m d <=? 365)
        && (negb (dayOfYear m d =? 365) || ((m =? 2) && (d =? 29))))
      (zrange 1 (daysInMonth 0 m))) (zrange 1 12) = true) by (vm_compute; reflexivity).
  rewrite forallb_forall in Hall. specialize (Hall m (In_zrange 1 12 m ltac:(lia))).
  rewrite forallb_forall in Hall.
  specialize (Hall d (In_zrange 1 (daysInMonth 0 m) d ltac:(lia))).
  destruct (monthDay (dayOfYear m d)) as [m' d'].
  rewrite !andb_true_iff, orb_true_iff, negb_true_iff, !andb_true_iff, !Z.leb_le in Hall.
  destruct Hall as ((((Hm' & Hd') & H0) & H1) & H365).
  apply Z.eqb_eq in Hm', Hd'. subst. split; [reflexivity|]. split; [lia|].
  intros E. destruct H365 as [H|(H2 & H29)]; [apply Z.eqb_neq in H; lia|].
  apply Z.eqb_eq in H2, H29. auto.
Qed.

Lemma daysInMonth_le (y m : Z) : daysInMonth y m <= daysInMonth 0 m.
Proof.
  unfold daysInMonth. destruct (m =? 2); [|lia].
  change (isLeapYear 0) with true. destruct (isLeapYear y); lia.
Qed.

(** The date of the day of a calendar date is that date. *)
Lemma civil_round_trip (y m d : Z) :
  validCalendarDate d m y = true -> civil_from_days (days_from_civil y m d) = (y, m, d).
Proof.
  unfold validCalendarDate. rewrite !andb_true_iff, !Z.leb_le.
  intros (((Hm1 & Hm2) & Hd1) & Hd2).
  rewrite days_from_civil_era.
  set (y' := if m <=? 2 then y - 1 else y).
  assert (Hyoe : 0 <= y' mod 400 < 400) by (apply Z.mod_pos_bound; lia).
  assert (Hy : y = y' mod 400 + (if m <=? 2 then 1 else 0) + y' / 400 * 400).
  { subst y'. rewrite Z.mod_eq by lia. destruct (m <=? 2); lia. }
  pose proof (daysInMonth_le y m) as Hle.
  destruct (month_table m d (conj Hm1 Hm2) ltac:(lia)) as (Hmd & Hdoy & H365).
  assert (Hlen : dayOfYear m d < yearLength (y' mod 400)).
  { unfold yearLength. destruct (isLeapYear (y' mod 400 + 1)) eqn:El; [lia|].
    destruct (Z.eq_dec (dayOfYear m d) 365) as [E|]; [|lia].
    destruct (H365 E) as (-> & ->). exfalso.
    change (2 <=? 2) with true in *. cbv iota in *.
    assert (Hd29 : daysInMonth y 2 = 28).
    { unfold daysInMonth. change (2 =? 2) with true. cbv iota.
      rewrite Hy, isLeapYear_era by idtac. now rewrite El. }
    lia. }
  destruct (yearOfEra_in_year (y' mod 400) (dayOfYear m d) Hyoe ltac:(lia)) as (Hdoe & Hyear).
  rewrite civil_from_days_era by exact Hdoe. rewrite Hyear.
  replace (yearStart (y' mod 400) + dayOfYear m d - yearStart (y' mod 400))
    with (dayOfYear m d) by lia.
  rewrite Hmd. f_equal. f_equal. lia.
Qed.

Lemma yearOfEra_spec (doe : Z) :
  0 <= doe < 146097 ->
  0 <= yearOfEra doe < 400
  /\ 0 <= doe - yearStart (yearOfEra doe) < yearLength (yearOfEra doe).
Proof.
  intros Hdoe.
  assert (H0 : yearOfEra 0 = 0) by reflexivity.
  assert (H399 : yearOfEra 146096 = 399) by reflexivity.
  pose proof (yearOfEra_mono 0 doe ltac:(lia) ltac:(lia)) as Hlo.
  pose proof (yearOfEra_mono doe 146096 ltac:(lia) ltac:(lia)) as Hhi.
  set (yoe := yearOfEra doe) in *.
  assert (Hy : 0 <= yoe < 400) by lia. split; [exact Hy|].
  destruct (year_table yoe Hy) as (Hs0 & Hbound & Hstart & Hend & Hnext).
  pose proof (yearLength_bounds yoe) as Hlen.
  split.
  - destruct (Z.eq_dec yoe 0) as [E|Hne]; [rewrite E; change (yearStart 0) with 0; lia|].
    destruct (Z_lt_le_dec doe (yearStart yoe)) as [Hlt|]; [exfalso|lia].
    destruct (year_table (yoe - 1) ltac:(lia)) as (Hp0 & _ & _ & Hpend & Hpnext).
    specialize (Hpnext ltac:(lia)). replace (yoe - 1 + 1) with yoe in Hpnext by lia.
    pose proof (yearLength_bounds (yoe - 1)).
    pose proof (yearOfEra_mono doe (yearStart (yoe - 1) + yearLength (yoe - 1) - 1)
                  ltac:(lia) ltac:(lia)) as Hm.
    fold yoe in Hm. lia.
  - destruct (Z_lt_le_dec doe (yearStart yoe + yearLength yoe)) as [|Hge]; [lia|exfalso].
    assert (Hlt : yoe < 399).
    { destruct (Z.eq_dec yoe 399) as [E|]; [|lia]. rewrite E in Hge.
      change (yearStart 399 + yearLength 399) with 146097 in Hge. lia. }
    specialize (Hnext Hlt).
    destruct (year_table (yoe + 1) ltac:(lia)) as (_ & _ & Hnstart & _).
    pose proof (yearOfEra_mono (yearStart (yoe + 1)) doe ltac:(lia) ltac:(lia)) as Hm.
    fold yoe in Hm. lia.
Qed.

Lemma monthDay_spec (doy : Z) :
  0 <= doy <= 365 ->
  let '(m, d) := monthDay doy in
  1 <= m <= 12 /\ 1 <= d <= 31 /\ dayOfYear m d = doy.
Proof.
  intros Hdoy.
  assert (Hall :
    forallb (fun doy =>
        let '(m, d) := monthDay doy in
        (1 <=? m) && (m <=? 12) && (1 <=? d) && (d <=? 31) && (dayOfYear m d =? doy))
      (zrange 0 366) = true) by (vm_compute; reflexivity).
  rewrite forallb_forall in Hall. specialize (Hall doy (In_zrange 0 366 doy ltac:(lia))).
  destruct (monthDay doy) as [m d].
  rewrite !andb_true_iff, !Z.leb_le, Z.eqb_eq in Hall. lia.
Qed.

(** The day of the date of a day is that day. *)
Lemma days_round_trip (z : Z) :
  let '(y, m, d) := civil_from_days z in
  1 <= m <= 12 /\ 1 <= d <= 31 /\ days_from_civil y m d = z.
Proof.
  set (era := (z + 719468) / 146097). set (doe := (z + 719468) mod 146097).
  assert (Hdoe : 0 <= doe < 146097) by (apply Z.mod_pos_bound; lia).
  assert (Hz : z = era * 146097 + doe - 719468).
  { subst era doe. rewrite Z.mod_eq by lia. lia. }
  pose proof (civil_from_days_era era doe Hdoe) as Hc. rewrite <- Hz in Hc. rewrite Hc.
  destruct (yearOfEra_spec doe Hdoe) as (Hy & Hd).
  pose proof (yearLength_bounds (yearOfEra doe)) as Hlen.
  pose proof (monthDay_spec (doe - yearStart (yearOfEra doe)) ltac:(lia)) as Hmd.
  destruct (monthDay (doe - yearStart (yearOfEra doe))) as [m d].
  destruct Hmd as (Hm & Hd' & Hday).
  split; [exact Hm|]. split; [exact Hd'|].
  rewrite days_from_civil_era.
  assert (Hy' : (if m <=? 2 then yearOfEra doe + era * 400 + (if m <=? 2 then 1 else 0) - 1
                 else yearOfEra doe + era * 400 + (if m <=? 2 then 1 else 0))
                = yearOfEra doe + era * 400)
    by (destruct (m <=? 2); lia).
  rewrite Hy'.
  replace ((yearOfEra doe + era * 400) / 400) with era by (Z.div_mod_to_equations; lia).
  replace ((yearOfEra doe + era * 400) mod 400) with (yearOfEra doe)
    by (Z.div_mod_to_equations; lia).
  rewrite Hday. lia.
Qed.


(* ===================================================================== *)
(** ** Further properties of [parseDate] *)
(* ===================================================================== *)

Lemma parseDate_fields (tz : Z) (dateStr timeStr : jstring) (fmt : DateFormat) :
  parseDate tz dateStr timeStr fmt
  = let '(y, m, d) := dateFields dateStr fmt in
    let '(h, mi) := timeFields timeStr in
    newDate tz y (option_map (fun m => m - 1) m) d h mi.
Proof. unfold parseDate, dateFields, timeFields. destruct fmt; reflexivity. Qed.

(** *** Splitting and searching *)

Lemma split_on_sep (p : char -> bool) (a : jstring) :
  forall (cur rest : jstring) (x : char),
    Forall (fun c => p c = false) a -> p x = true ->
    split_on p (a ++ x :: rest) cur = (rev cur ++ a) :: split_on p rest [].
Proof.
  induction a as [|c a IH]; intros cur rest x Ha Hx; cbn [app split_on].
  - now rewrite Hx, app_nil_r.
  - inversion Ha as [|? ? Hc Ha']; subst. rewrite Hc, IH by assumption.
    cbn [rev]. now rewrite <- app_assoc.
Qed.

Lemma split_on_whole (p : char -> bool) (a : jstring) :
  forall cur, Forall (fun c => p c = false) a -> split_on p a cur = [rev cur ++ a].
Proof.
  induction a as [|c a IH]; intros cur Ha; cbn [split_on].
  - now rewrite app_nil_r.
  - inversion Ha as [|? ? Hc Ha']; subst. rewrite Hc, IH by assumption.
    cbn [rev]. now rewrite <- app_assoc.
Qed.

Lemma replace_all_id (p : char -> bool) (r s : jstring) :
  Forall (fun c => p c = false) s -> replace_all p r s = s.
Proof.
  unfold replace_all. induction 1 as [|c s Hc Hs IH]; cbn [flat_map]; [reflexivity|].
  now rewrite Hc, IH.
Qed.

Lemma replace_first_absent (c : char) (r s : jstring) :
  ~ In c s -> replace_first c r s = s.
Proof.
  induction s as [|x s IH]; cbn [replace_first In]; intros H; [reflexivity|].
  destruct (N.eqb_spec x c); [tauto|]. rewrite IH; tauto.
Qed.

Lemma replace_first_app (c : char) (r a s : jstring) :
  ~ In c a -> replace_first c r (a ++ s) = a ++ replace_first c r s.
Proof.
  induction a as [|x a IH]; cbn [app replace_first In]; intros H; [reflexivity|].
  destruct (N.eqb_spec x c); [tauto|]. rewrite IH; tauto.
Qed.

Lemma includes_absent (c : char) (p s : jstring) : ~ In c s -> includes (c :: p) s = false.
Proof.
  induction s as [|x s IH]; cbn [includes startsWith In]; intros H; [reflexivity|].
  destruct (N.eqb_spec c x); [exfalso; auto|]. cbn [andb orb]. apply IH. tauto.
Qed.

Lemma includes_skip (c : char) (p a s : jstring) :
  ~ In c a -> includes (c :: p) (a ++ s) = includes (c :: p) s.
Proof.
  induction a as [|x a IH]; cbn [app In]; intros H; [reflexivity|].
  cbn [includes startsWith]. destruct (N.eqb_spec c x); [exfalso; auto|].
  cbn [andb orb]. apply IH. tauto.
Qed.

Lemma includes_cons_skip (c : char) (p : jstring) (x : char) (s : jstring) :
  c <> x -> includes (c :: p) (x :: s) = includes (c :: p) s.
Proof. intros H. apply (includes_skip c p [x] s). intros [E|[]]. congruence. Qed.

Lemma toLowerCase_id (s : jstring) :
  Forall (fun c => between 65 90 c = false) s -> toLowerCase s = s.
Proof.
  unfold toLowerCase. induction 1 as [|c s Hc Hs IH]; cbn [map]; [reflexivity|].
  now rewrite Hc, IH.
Qed.

(** *** Numerals *)

Lemma digitsValue_digits (s : jstring) :
  forall acc n, digitsValue s acc = Some n -> Forall (fun c => isDigit c = true) s.
Proof.
  induction s as [|c s IH]; intros acc n; cbn [digitsValue]; [constructor|].
  destruct (isDigit c) eqn:E; [|discriminate]. intros H. constructor; eauto.
Qed.

Lemma digitsValue_nonneg (s : jstring) :
  forall acc n, 0 <= acc -> digitsValue s acc = Some n -> 0 <= n.
Proof.
  induction s as [|c s IH]; intros acc n Hacc; cbn [digitsValue].
  - intros H. inversion H. lia.
  - destruct (isDigit c); [|discriminate]. apply IH. lia.
Qed.

Lemma numeral_digits (s : jstring) (n : Z) :
  numeral s = Some n -> Forall (fun c => isDigit c = true) s /\ 0 <= n.
Proof.
  unfold numeral. destruct s as [|c s]; [discriminate|]. intros H. split.
  - eapply digitsValue_digits, H.
  - eapply digitsValue_nonneg; [|exact H]. lia.
Qed.

Lemma digits_avoid (p : char -> bool) (s : jstring) :
  (forall c, isDigit c = true -> p c = false) ->
  Forall (fun c => isDigit c = true) s -> Forall (fun c => p c = false) s.
Proof. intros Hp H. eapply Forall_impl; [|exact H]. exact Hp. Qed.

Lemma digit_not_char (a : ascii) :
  (N_of_ascii a < 48 \/ 57 < N_of_ascii a)%N ->
  forall c, isDigit c = true -> isChar a c = false.
Proof.
  unfold isChar. generalize (N_of_ascii a). intros k Ha c Hc. apply isDigit_iff in Hc.
  apply N.eqb_neq. lia.
Qed.

Lemma digits_not_In (x : char) (s : jstring) :
  (x < 48 \/ 57 < x)%N -> Forall (fun c => isDigit c = true) s -> ~ In x s.
Proof.
  intros Hx Hs Hin. rewrite Forall_forall in Hs. apply Hs, isDigit_iff in Hin. lia.
Qed.

Lemma numeral_Number (s : jstring) (n : Z) : numeral s = Some n -> Number_ s = Some n.
Proof.
  intros H. destruct (numeral_digits s n H) as (Hd & _).
  unfold numeral in H. unfold Number_. destruct s as [|c s]; [discriminate|].
  unfold split. rewrite split_on_whole.
  - cbn [rev app]. exact H.
  - apply (digits_avoid _ _ (digit_not_char "." ltac:(left; reflexivity)) Hd).
Qed.


(** *** The fields of a written date and time *)

Lemma dateSep_to_slash (x : char) :
  isDateSep x = true ->
  (if isChar "-" x || isChar "." x then u "/" else [x]) = u "/".
Proof. rewrite isDateSep_iff. intros [->|[->| ->]]; reflexivity. Qed.

Lemma dateFields_token (a b c : jstring) (s1 s2 : char) (na nb nc : Z) (fmt : DateFormat) :
  numeral a = Some na -> numeral b = Some nb -> numeral c = Some nc ->
  isDateSep s1 = true -> isDateSep s2 = true ->
  dateFields (a ++ s1 :: b ++ s2 :: c) fmt
  = match fmt with
    | DMY => (Some (fullYear nc), Some nb, Some na)
    | MDY => (Some (fullYear nc), Some na, Some nb)
    | YMD => (Some (fullYear na), Some nb, Some nc)
    end.
Proof.
  intros Ha Hb Hc H1 H2.
  destruct (numeral_digits a na Ha) as (Hda & _).
  destruct (numeral_digits b nb Hb) as (Hdb & _).
  destruct (numeral_digits c nc Hc) as (Hdc & _).
  assert (Hkeep : forall s, Forall (fun x => isDigit x = true) s ->
                            replace_all (fun x => isChar "-" x || isChar "." x) (u "/") s = s).
  { intros s Hs. apply replace_all_id. eapply Forall_impl; [|exact Hs].
    intros x Hx. cbv beta.
    now rewrite (digit_not_char "-" ltac:(left; reflexivity) x Hx),
      (digit_not_char "." ltac:(left; reflexivity) x Hx). }
  assert (Hslash : forall s, Forall (fun x => isDigit x = true) s ->
                             Forall (fun x => isChar "/" x = false) s).
  { intros s Hs. apply (digits_avoid _ _ (digit_not_char "/" ltac:(left; reflexivity)) Hs). }
  assert (Hrep : replace_all (fun x => isChar "-" x || isChar "." x) (u "/")
                   (a ++ s1 :: b ++ s2 :: c)
                 = a ++ ch "/" :: b ++ ch "/" :: c).
  { unfold replace_all. rewrite flat_map_app. cbn [flat_map]. rewrite flat_map_app.
    cbn [flat_map]. fold (replace_all (fun x => isChar "-" x || isChar "." x) (u "/") a).
    fold (replace_all (fun x => isChar "-" x || isChar "." x) (u "/") b).
    fold (replace_all (fun x => isChar "-" x || isChar "." x) (u "/") c).
    rewrite !Hkeep, !dateSep_to_slash by assumption. reflexivity. }
  unfold dateFields. rewrite Hrep. unfold split.
  rewrite split_on_sep by (auto || reflexivity).
  rewrite split_on_sep by (auto || reflexivity).
  rewrite split_on_whole by auto. cbn [rev app map].
  rewrite (numeral_Number a na Ha), (numeral_Number b nb Hb), (numeral_Number c nc Hc).
  unfold fullYear. destruct fmt; cbn [at_ nth_error ltb_ option_map];
    match goal with |- context [?y <? 100] => destruct (y <? 100) end; reflexivity.
Qed.

Lemma digits_no_colonSpace (s : jstring) :
  Forall (fun c => isDigit c = true) s -> Forall (fun c => isColonSpace c = false) s.
Proof.
  apply digits_avoid. intros c Hc. unfold isColonSpace.
  now rewrite (digit_not_char ":" ltac:(right; reflexivity) c Hc), (digit_not_space c Hc).
Qed.

Lemma colonDot_to_colon (t1 : char) (s : jstring) :
  isColonDot t1 = true -> ~ In (ch ".") s ->
  replace_first (ch ".") (u ":") (t1 :: s) = ch ":" :: s.
Proof.
  rewrite isColonDot_iff. intros [->| ->] Hs.
  - cbn [replace_first]. change (58 =? ch ".")%N with false. cbv iota.
    now rewrite replace_first_absent.
  - reflexivity.
Qed.

(** The time string [sh t1 smi suffix]: hours, a colon or a dot, minutes,
    and a suffix that holds no dot and is cut off the minutes by the
    split. *)
Lemma timeFields_core (sh smi suffix : jstring) (t1 : char) (h mi : Z) (pieces : list jstring) :
  numeral sh = Some h -> numeral smi = Some mi -> isColonDot t1 = true ->
  ~ In (ch ".") suffix ->
  split isColonSpace (smi ++ suffix) = smi :: pieces ->
  timeFields (sh ++ t1 :: smi ++ suffix)
  = let lower := toLowerCase suffix in
    let isPM := includes (u "pm") lower || includes (u "p.m") lower in
    let isAM := includes (u "am") lower || includes (u "a.m") lower in
    let hours := if isPM && (h <? 12) then h + 12 else h in
    (Some (if isAM && (hours =? 12) then 0 else hours), Some mi).
Proof.
  intros Hh Hmi Ht Hdot Hsplit.
  destruct (numeral_digits sh h Hh) as (Hdh & _).
  destruct (numeral_digits smi mi Hmi) as (Hdm & _).
  assert (Hnot : forall x, (x < 48 \/ 57 < x)%N -> x <> t1 -> ~ In x (sh ++ t1 :: smi)).
  { intros x Hx Hne Hin. apply in_app_or in Hin. destruct Hin as [Hin|[Hin|Hin]].
    - now apply (digits_not_In x sh Hx Hdh).
    - congruence.
    - now apply (digits_not_In x smi Hx Hdm). }
  assert (Ht' : (t1 = 58 \/ t1 = 46)%N) by now apply isColonDot_iff.
  assert (Hrep : replace_first (ch ".") (u ":") (sh ++ t1 :: smi ++ suffix)
                 = sh ++ ch ":" :: smi ++ suffix).
  { rewrite replace_first_app by (apply digits_not_In; [left; reflexivity | exact Hdh]).
    rewrite colonDot_to_colon; [reflexivity | exact Ht |].
    intros Hin. apply in_app_or in Hin. destruct Hin as [Hin|Hin]; [|auto].
    now apply (digits_not_In (ch ".") smi ltac:(left; reflexivity) Hdm). }
  assert (Hparts : split isColonSpace (sh ++ ch ":" :: smi ++ suffix) = sh :: smi :: pieces).
  { unfold split. rewrite split_on_sep; [|now apply digits_no_colonSpace | reflexivity].
    cbn [rev app]. f_equal. exact Hsplit. }
  assert (Hlower : toLowerCase (sh ++ t1 :: smi ++ suffix)
                   = (sh ++ t1 :: smi) ++ toLowerCase suffix).
  { unfold toLowerCase. rewrite <- app_assoc, <- app_comm_cons, map_app. cbn [map].
    rewrite map_app.
    fold (toLowerCase sh). fold (toLowerCase smi). fold (toLowerCase suffix).
    assert (Hup : forall s, Forall (fun x => isDigit x = true) s -> toLowerCase s = s).
    { intros s Hs. apply toLowerCase_id. eapply Forall_impl; [|exact Hs].
      intros x Hx. apply isDigit_iff in Hx. apply not_true_iff_false.
      rewrite between_iff. lia. }
    rewrite !Hup by assumption.
    assert (Hb : between 65 90 t1 = false)
      by (apply not_true_iff_false; rewrite between_iff; lia).
    now rewrite Hb. }
  unfold timeFields. rewrite Hrep, Hparts, Hlower. cbn [nth_error].
  rewrite (numeral_Number sh h Hh), (numeral_Number smi mi Hmi).
  change (u "pm") with (ch "p" :: u "m"). change (u "p.m") with (ch "p" :: u ".m").
  change (u "am") with (ch "a" :: u "m"). change (u "a.m") with (ch "a" :: u ".m").
  rewrite !includes_skip
    by (apply Hnot; [right; reflexivity
                    | intros E; rewrite <- E in Ht'; destruct Ht' as [Ht'|Ht']; discriminate Ht']).
  change (ch "p" :: u "m") with (u "pm"). change (ch "p" :: u ".m") with (u "p.m").
  change (ch "a" :: u "m") with (u "am"). change (ch "a" :: u ".m") with (u "a.m").
  cbv zeta. cbn [ltb_ eqb_ option_map].
  destruct (includes (u "pm") (toLowerCase suffix) || includes (u "p.m") (toLowerCase suffix));
    cbn [andb]; [destruct (h <? 12)|]; cbn [eqb_ option_map];
    destruct (includes (u "am") (toLowerCase suffix) || includes (u "a.m") (toLowerCase suffix));
    cbn [andb]; try reflexivity;
    match goal with |- context [?x =? 12] => destruct (x =? 12) end; reflexivity.
Qed.

Lemma timeFields_token (sh smi : jstring) (t1 : char) (h mi : Z) :
  numeral sh = Some h -> numeral smi = Some mi -> isColonDot t1 = true ->
  timeFields (sh ++ t1 :: smi) = (Some h, Some mi).
Proof.
  intros Hh Hmi Ht. destruct (numeral_digits smi mi Hmi) as (Hdm & _).
  rewrite <- (app_nil_r smi) at 1.
  rewrite (timeFields_core sh smi [] t1 h mi [] Hh Hmi Ht); [reflexivity | intros [] |].
  rewrite app_nil_r. unfold split. rewrite split_on_whole; [reflexivity|].
  now apply digits_no_colonSpace.
Qed.

Lemma lower_letters (mer : jstring) (pm : bool) :
  toLowerCase mer = (if pm then u "pm" else u "am") ->
  Forall (fun c => isAlpha c = true) mer.
Proof.
  intros H.
  assert (Hl : Forall (fun c => isAlpha c = true) (toLowerCase mer))
    by (rewrite H; destruct pm; repeat constructor).
  unfold toLowerCase in Hl. rewrite Forall_map in Hl.
  eapply Forall_impl; [|exact Hl]. intros c. cbv beta.
  destruct (between 65 90 c) eqn:E; [|auto]. intros _.
  apply between_iff in E. apply isAlpha_iff. lia.
Qed.

Lemma timeFields_meridiem (sh smi mer : jstring) (t1 sp : char) (h mi : Z) (pm : bool) :
  numeral sh = Some h -> numeral smi = Some mi -> isColonDot t1 = true ->
  isSpace sp = true -> toLowerCase mer = (if pm then u "pm" else u "am") ->
  timeFields (sh ++ t1 :: smi ++ sp :: mer) = (Some (hourOfDay pm h), Some mi).
Proof.
  intros Hh Hmi Ht Hsp Hmer. destruct (numeral_digits smi mi Hmi) as (Hdm & _).
  pose proof (lower_letters mer pm Hmer) as Hal.
  pose proof (isSpace_bound sp Hsp) as Hb.
  rewrite (timeFields_core sh smi (sp :: mer) t1 h mi (split isColonSpace mer) Hh Hmi Ht).
  - assert (Hlow : toLowerCase (sp :: mer) = sp :: toLowerCase mer).
    { unfold toLowerCase. cbn [map].
      assert (E : between 65 90 sp = false)
        by (apply not_true_iff_false; rewrite between_iff; lia).
      now rewrite E. }
    rewrite Hlow. cbv zeta.
    change (u "pm") with (ch "p" :: u "m"). change (u "p.m") with (ch "p" :: u ".m").
    change (u "am") with (ch "a" :: u "m"). change (u "a.m") with (ch "a" :: u ".m").
    rewrite !(includes_cons_skip _ _ sp) by (intros E; subst sp; cbn in Hb; lia).
    change (ch "p" :: u "m") with (u "pm"). change (ch "p" :: u ".m") with (u "p.m").
    change (ch "a" :: u "m") with (u "am"). change (ch "a" :: u ".m") with (u "a.m").
    rewrite Hmer. unfold hourOfDay. destruct pm.
    + change (includes (u "pm") (u "pm")) with true.
      change (includes (u "am") (u "pm")) with false.
      change (includes (u "a.m") (u "pm")) with false.
      cbn [orb andb]. destruct (h <? 12); reflexivity.
    + change (includes (u "pm") (u "am")) with false.
      change (includes (u "p.m") (u "am")) with false.
      change (includes (u "am") (u "am")) with true.
      cbn [orb andb]. destruct (h =? 12); reflexivity.
  - intros [E|Hin].
    + subst sp. cbn in Hb. lia.
    + rewrite Forall_forall in Hal. apply Hal, isAlpha_iff in Hin. cbn in Hin. lia.
  - unfold split. rewrite split_on_sep; [reflexivity | | unfold isColonSpace; now rewrite Hsp, orb_true_r].
    now apply digits_no_colonSpace.
Qed.


(** *** From the fields to the date *)

Lemma days_from_civil_day (y m d : Z) : days_from_civil y m d = days_from_civil y m 1 + d - 1.
Proof. unfold days_from_civil. lia. Qed.

Lemma days_from_civil_bounds (y m d : Z) :
  0 <= y <= 9999 -> 1 <= m <= 12 -> 1 <= d <= 31 ->
  -720000 <= days_from_civil y m d <= 3000000.
Proof.
  intros Hy Hm Hd. unfold days_from_civil. cbv zeta.
  destruct (m <=? 2), (m >? 2); Z.div_mod_to_equations; lia.
Qed.

Lemma newDate_civil (tz y m d h mi : Z) :
  100 <= y <= 9999 -> 1 <= m <= 12 -> 1 <= d <= 31 -> 0 <= h < 24 -> 0 <= mi < 60 ->
  Z.abs tz <= 1440 ->
  newDate tz (Some y) (Some (m - 1)) (Some d) (Some h) (Some mi)
  = Some (days_from_civil y m d * msPerDay + h * msPerHour + mi * msPerMinute
          - tz * msPerMinute).
Proof.
  intros Hy Hm Hd Hh Hmi Htz. unfold newDate, MakeDay.
  assert (E : (0 <=? y) && (y <=? 99) = false).
  { apply andb_false_iff. right. apply Z.leb_gt. lia. }
  rewrite E. rewrite Z.div_small, Z.mod_small, Z.add_0_r by lia.
  replace (m - 1 + 1) with m by lia. rewrite <- days_from_civil_day.
  pose proof (days_from_civil_bounds y m d ltac:(lia) Hm Hd) as Hb.
  unfold TimeClip, msPerDay, msPerHour, msPerMinute.
  destruct (Z.leb_spec (Z.abs (days_from_civil y m d * 86400000 + h * 3600000 + mi * 60000
                               - tz * 60000)) 8640000000000000); [reflexivity | lia].
Qed.

Lemma fullYear_bounds (y : Z) : 0 <= y <= 9999 -> 100 <= fullYear y <= 9999.
Proof. unfold fullYear. destruct (Z.ltb_spec y 100); lia. Qed.

Lemma validCalendarDate_bounds (d m y : Z) :
  validCalendarDate d m y = true -> 1 <= m <= 12 /\ 1 <= d <= 31.
Proof.
  unfold validCalendarDate. rewrite !andb_true_iff, !Z.leb_le.
  intros (((Hm1 & Hm2) & Hd1) & Hd2). split; [lia|].
  pose proof (daysInMonth_le y m). assert (daysInMonth 0 m <= 31); [|lia].
  unfold daysInMonth. destruct (m =? 2); [change (isLeapYear 0) with true; lia|].
  destruct (_ || _); lia.
Qed.

(** X19: a timestamp whose date is a date of the calendar is read back as
    written, on a host whose time zone has one fixed offset [tz] from UTC,
    of at most a day, at every date (no daylight-saving or other change):
    whichever of the three orders the date is written in and read with,
    whichever separators it uses and however many leading zeros,
    [parseDate] gives the date whose local year, hour and weekday are the
    written ones; a year below 100 is a year of this century. *)
Theorem X19_written_timestamp_is_read_back (tz : Z) (sd sm sy sh smi : jstring)
    (s1 s2 t1 : char) (d m y h mi : Z) :
  numeral sd = Some d -> numeral sm = Some m -> numeral sy = Some y ->
  numeral sh = Some h -> numeral smi = Some mi ->
  isDateSep s1 = true -> isDateSep s2 = true -> isColonDot t1 = true ->
  validCalendarDate d m (fullYear y) = true -> y <= 9999 -> h < 24 -> mi < 60 ->
  Z.abs tz <= 1440 ->
  exists t,
    parseDate tz (sd ++ s1 :: sm ++ s2 :: sy) (sh ++ t1 :: smi) DMY = Some t
    /\ parseDate tz (sm ++ s1 :: sd ++ s2 :: sy) (sh ++ t1 :: smi) MDY = Some t
    /\ parseDate tz (sy ++ s1 :: sm ++ s2 :: sd) (sh ++ t1 :: smi) YMD = Some t
    /\ localTime tz t
       = days_from_civil (fullYear y) m d * msPerDay + h * msPerHour + mi * msPerMinute
    /\ getFullYear tz t = fullYear y
    /\ getHours tz t = h
    /\ getDay tz t = (days_from_civil (fullYear y) m d + 4) mod 7.
Proof.
  intros Hd Hm Hy Hh Hmi Hs1 Hs2 Ht Hvalid Hy9 Hh24 Hmi60 Htz.
  destruct (numeral_digits sy y Hy) as (_ & Hy0).
  destruct (numeral_digits sh h Hh) as (_ & Hh0).
  destruct (numeral_digits smi mi Hmi) as (_ & Hmi0).
  destruct (validCalendarDate_bounds d m _ Hvalid) as (Hmb & Hdb).
  pose proof (fullYear_bounds y ltac:(lia)) as Hfy.
  set (days := days_from_civil (fullYear y) m d).
  exists (days * msPerDay + h * msPerHour + mi * msPerMinute - tz * msPerMinute).
  assert (Hnew : newDate tz (Some (fullYear y)) (Some (m - 1)) (Some d) (Some h) (Some mi)
                 = Some (days * msPerDay + h * msPerHour + mi * msPerMinute
                         - tz * msPerMinute))
    by (apply newDate_civil; lia).
  assert (Hlocal : localTime tz (days * msPerDay + h * msPerHour + mi * msPerMinute
                                 - tz * msPerMinute)
                   = days * msPerDay + h * msPerHour + mi * msPerMinute)
    by (unfold localTime; lia).
  assert (Hday : (days * msPerDay + h * msPerHour + mi * msPerMinute) / msPerDay = days)
    by (unfold msPerDay, msPerHour, msPerMinute; Z.div_mod_to_equations; lia).
  repeat split.
  - rewrite parseDate_fields,
      (dateFields_token sd sm sy s1 s2 d m y DMY Hd Hm Hy Hs1 Hs2),
      (timeFields_token sh smi t1 h mi Hh Hmi Ht).
    exact Hnew.
  - rewrite parseDate_fields,
      (dateFields_token sm sd sy s1 s2 m d y MDY Hm Hd Hy Hs1 Hs2),
      (timeFields_token sh smi t1 h mi Hh Hmi Ht).
    exact Hnew.
  - rewrite parseDate_fields,
      (dateFields_token sy sm sd s1 s2 y m d YMD Hy Hm Hd Hs1 Hs2),
      (timeFields_token sh smi t1 h mi Hh Hmi Ht).
    exact Hnew.
  - exact Hlocal.
  - unfold getFullYear. rewrite Hlocal, Hday. subst days.
    now rewrite (civil_round_trip _ _ _ Hvalid).
  - unfold getHours. rewrite Hlocal.
    unfold msPerDay, msPerHour, msPerMinute. Z.div_mod_to_equations. lia.
  - unfold getDay. now rewrite Hlocal, Hday.
Qed.

Lemma X19_written_timestamp_witness :
  exists t,
    parseDate 330 (u "12" ++ ch "/" :: u "05" ++ ch "/" :: u "23") (u "9" ++ ch ":" :: u "00") DMY
    = Some t
    /\ getFullYear 330 t = 2023 /\ getHours 330 t = 9.
Proof.
  destruct (X19_written_timestamp_is_read_back 330 (u "12") (u "05") (u "23") (u "9") (u "00")
              (ch "/") (ch "/") (ch ":") 12 5 23 9 0)
    as (t & H1 & _ & _ & _ & H5 & H6 & _);
    try reflexivity; try lia.
  exists t. split; [exact H1|]. split; [exact H5 | exact H6].
Defined.

(** X20: a time with [am] or [pm] after a space, in either case of the
    letters, is read as the hour of the day: [pm] adds 12 to an hour below
    12, [am] makes the hour 12 the hour 0, and the date is that of the
    same time written without the letters and with that hour. *)
Theorem X20_twelve_hour_clock (tz : Z) (dateStr : jstring) (fmt : DateFormat)
    (sh smi mer sh24 : jstring) (t1 sp : char) (h mi : Z) (pm : bool) :
  numeral sh = Some h -> numeral smi = Some mi ->
  isColonDot t1 = true -> isSpace sp = true ->
  toLowerCase mer = (if pm then u "pm" else u "am") ->
  numeral sh24 = Some (hourOfDay pm h) ->
  parseDate tz dateStr (sh ++ t1 :: smi ++ sp :: mer) fmt
  = parseDate tz dateStr (sh24 ++ t1 :: smi) fmt.
Proof.
  intros Hh Hmi Ht Hsp Hmer H24.
  rewrite !parseDate_fields.
  rewrite (timeFields_meridiem sh smi mer t1 sp h mi pm Hh Hmi Ht Hsp Hmer).
  now rewrite (timeFields_token sh24 smi t1 (hourOfDay pm h) mi H24 Hmi Ht).
Qed.

Lemma X20_twelve_hour_clock_witness :
  parseDate 0 (u "12/05/23") (u "9" ++ ch ":" :: u "01" ++ ch " " :: u "PM") DMY
  = parseDate 0 (u "12/05/23") (u "21" ++ ch ":" :: u "01") DMY.
Proof.
  apply (X20_twelve_hour_clock 0 (u "12/05/23") DMY (u "9") (u "01") (u "PM") (u "21")
           (ch ":") (ch " ") 9 1 true); reflexivity.
Defined.


(* ===================================================================== *)
(** ** Days in order *)
(* ===================================================================== *)

Lemma civil_parts (z : Z) :
  exists era doe yoe doy mp,
    z = era * 146097 + doe - 719468
    /\ 0 <= doe < 146097
    /\ yoe = yearOfEra doe /\ 0 <= yoe < 400
    /\ doy = doe - yearStart yoe /\ 0 <= doy <= 365
    /\ mp = (5 * doy + 2) / 153
    /\ civil_from_days z
       = (yoe + era * 400 + (if mp <? 10 then 0 else 1),
          (if mp <? 10 then mp + 3 else mp - 9),
          doy - (153 * mp + 2) / 5 + 1)
    /\ 1 <= doy - (153 * mp + 2) / 5 + 1 <= 31.
Proof.
  set (era := (z + 719468) / 146097). set (doe := (z + 719468) mod 146097).
  assert (Hdoe : 0 <= doe < 146097) by (apply Z.mod_pos_bound; lia).
  assert (Hz : z = era * 146097 + doe - 719468).
  { subst era doe. rewrite Z.mod_eq by lia. lia. }
  destruct (yearOfEra_spec doe Hdoe) as (Hy & Hd).
  pose proof (yearLength_bounds (yearOfEra doe)) as Hlen.
  exists era, doe, (yearOfEra doe), (doe - yearStart (yearOfEra doe)),
    ((5 * (doe - yearStart (yearOfEra doe)) + 2) / 153).
  pose proof (monthDay_spec (doe - yearStart (yearOfEra doe)) ltac:(lia)) as Hmd.
  pose proof (civil_from_days_era era doe Hdoe) as Hc. rewrite <- Hz in Hc.
  unfold monthDay in Hc, Hmd.
  set (mp := (5 * (doe - yearStart (yearOfEra doe)) + 2) / 153) in *.
  destruct Hmd as (Hm & Hd' & _).
  repeat split; try lia. rewrite Hc. f_equal. f_equal. f_equal.
  assert (Hmp : 0 <= mp <= 11) by (subst mp; Z.div_mod_to_equations; lia).
  revert Hm. destruct (Z.ltb_spec mp 10); intros Hm;
    [destruct (Z.leb_spec (mp + 3) 2) | destruct (Z.leb_spec (mp - 9) 2)]; lia.
Qed.

(** Later days have later dates. *)
Lemma dateCode_mono (z1 z2 : Z) :
  z1 < z2 -> dateCode (civil_from_days z1) < dateCode (civil_from_days z2).
Proof.
  intros Hlt.
  destruct (civil_parts z1) as (era1 & doe1 & yoe1 & doy1 & mp1 & Hz1 & Hdoe1 & Hyoe1 & Hy1
                                  & Hdoy1 & Hd1 & Hmp1 & -> & Hday1).
  destruct (civil_parts z2) as (era2 & doe2 & yoe2 & doy2 & mp2 & Hz2 & Hdoe2 & Hyoe2 & Hy2
                                  & Hdoy2 & Hd2 & Hmp2 & -> & Hday2).
  unfold dateCode.
  assert (Hmp1' : 0 <= mp1 <= 11) by (subst mp1; Z.div_mod_to_equations; lia).
  assert (Hmp2' : 0 <= mp2 <= 11) by (subst mp2; Z.div_mod_to_equations; lia).
  destruct (Z.lt_trichotomy era1 era2) as [He|[He|He]]; [| |lia].
  - destruct (Z.ltb_spec mp1 10), (Z.ltb_spec mp2 10); lia.
  - subst era2. assert (Hdoe : doe1 < doe2) by lia.
    pose proof (yearOfEra_mono doe1 doe2 ltac:(lia) ltac:(lia)) as Hmono.
    rewrite <- Hyoe1, <- Hyoe2 in Hmono.
    destruct (Z.eq_dec yoe1 yoe2) as [E|Hne].
    + assert (Hdoy : doy1 < doy2) by (rewrite Hdoy1, Hdoy2, E; lia).
      assert (Hmp : mp1 <= mp2) by (subst mp1 mp2; apply Z.div_le_mono; lia).
      destruct (Z.eq_dec mp1 mp2) as [Em|Hnm].
      * rewrite <- Em. destruct (mp1 <? 10); lia.
      * destruct (Z.ltb_spec mp1 10), (Z.ltb_spec mp2 10); lia.
    + destruct (Z.ltb_spec mp1 10), (Z.ltb_spec mp2 10); lia.
Qed.

Lemma fourDigitDay_year (z : Z) :
  fourDigitDay z ->
  let '(y, m, d) := civil_from_days z in 0 <= y <= 9999 /\ 1 <= m <= 12 /\ 1 <= d <= 31.
Proof.
  intros (Hlo & Hhi).
  pose proof (days_round_trip z) as Hrt.
  assert (H1 : dateCode (civil_from_days (-719528)) <= dateCode (civil_from_days z)).
  { destruct (Z.eq_dec (-719528) z) as [<-|]; [lia|].
    apply Z.lt_le_incl, dateCode_mono. lia. }
  assert (H2 : dateCode (civil_from_days z) <= dateCode (civil_from_days 2932896)).
  { destruct (Z.eq_dec z 2932896) as [->|]; [lia|].
    apply Z.lt_le_incl, dateCode_mono. lia. }
  change (dateCode (civil_from_days (-719528))) with 101 in H1.
  change (dateCode (civil_from_days 2932896)) with 99991231 in H2.
  destruct (civil_from_days z) as [[y m] d]. unfold dateCode in H1, H2.
  destruct Hrt as (Hm & Hd & _). lia.
Qed.


(** *** The keys of the days *)

Lemma pad_isDigit (w : nat) : forall n, Forall (fun c => isDigit c = true) (pad w n).
Proof.
  induction w as [|w IH]; intros n; cbn [pad]; [constructor|].
  apply Forall_app. split; [apply IH|]. constructor; [|constructor].
  pose proof (Z.mod_pos_bound n 10 ltac:(lia)) as Hd.
  apply isDigit_iff. lia.
Qed.

Lemma digitsValue_app (a b : jstring) :
  forall acc,
    digitsValue (a ++ b) acc
    = match digitsValue a acc with Some v => digitsValue b v | None => None end.
Proof.
  induction a as [|c a IH]; intros acc; cbn [app digitsValue]; [reflexivity|].
  destruct (isDigit c); [apply IH | reflexivity].
Qed.

Lemma digitsValue_pad (w : nat) :
  forall n acc, digitsValue (pad w n) acc = Some (acc * 10 ^ Z.of_nat w + n mod 10 ^ Z.of_nat w).
Proof.
  induction w as [|w IH]; intros n acc.
  - cbn [pad digitsValue]. change (10 ^ Z.of_nat 0) with 1. rewrite Z.mod_1_r. f_equal. lia.
  - cbn [pad]. rewrite digitsValue_app, IH. cbn [digitsValue].
    pose proof (Z.mod_pos_bound n 10 ltac:(lia)) as Hd.
    assert (Hdig : isDigit (48 + Z.to_N (n mod 10))%N = true) by (apply isDigit_iff; lia).
    rewrite Hdig. f_equal.
    rewrite Nat2Z.inj_succ, Z.pow_succ_r by lia.
    assert (Hp : 0 < 10 ^ Z.of_nat w) by (apply Z.pow_pos_nonneg; lia).
    rewrite (Z.rem_mul_r n 10) by lia.
    replace (Z.of_N (48 + Z.to_N (n mod 10) - 48)%N) with (n mod 10) by lia. lia.
Qed.

Lemma str_compare_app (a : jstring) :
  forall (b s t : jstring),
    length a = length b ->
    str_compare (a ++ s) (b ++ t)
    = match str_compare a b with Eq => str_compare s t | c => c end.
Proof.
  induction a as [|x a IH]; intros [|y b] s t Hlen; try discriminate; cbn [app str_compare].
  - reflexivity.
  - destruct (x ?= y)%N; try reflexivity. apply IH. now injection Hlen.
Qed.

Lemma str_compare_refl (a : jstring) : str_compare a a = Eq.
Proof. induction a as [|x a IH]; cbn [str_compare]; [reflexivity | now rewrite N.compare_refl]. Qed.

Lemma isoDate_dayKey (t : Z) : isoDate t = dayKey (dayNumber t).
Proof.
  unfold dayKey, dayNumber, isoDate. rewrite Z.div_mul by (unfold msPerDay; lia). reflexivity.
Qed.

Lemma dayKey_four_digits (z : Z) :
  fourDigitDay z ->
  let '(y, m, d) := civil_from_days z in
  dayKey z = pad 4 y ++ ch "-" :: pad 2 m ++ ch "-" :: pad 2 d.
Proof.
  intros Hz. pose proof (fourDigitDay_year z Hz) as Hy.
  unfold dayKey, isoDate. rewrite Z.div_mul by (unfold msPerDay; lia).
  destruct (civil_from_days z) as [[y m] d]. destruct Hy as (Hy & _).
  assert (E : (0 <=? y) && (y <=? 9999) = true)
    by (apply andb_true_iff; split; apply Z.leb_le; lia).
  rewrite E. reflexivity.
Qed.

(** Among the days of the years 0 to 9999 the keys are ordered as the
    days. *)
Lemma dayKey_mono (z1 z2 : Z) :
  fourDigitDay z1 -> fourDigitDay z2 -> z1 < z2 ->
  str_compare (dayKey z1) (dayKey z2) = Lt.
Proof.
  intros H1 H2 Hlt.
  pose proof (dayKey_four_digits z1 H1) as K1. pose proof (dayKey_four_digits z2 H2) as K2.
  pose proof (fourDigitDay_year z1 H1) as R1. pose proof (fourDigitDay_year z2 H2) as R2.
  pose proof (dateCode_mono z1 z2 Hlt) as Hcode.
  destruct (civil_from_days z1) as [[y1 m1] d1]. destruct (civil_from_days z2) as [[y2 m2] d2].
  rewrite K1, K2. unfold dateCode in Hcode.
  rewrite str_compare_app by now rewrite !length_pad.
  rewrite pad_compare. change (10 ^ Z.of_nat 4) with 10000. rewrite !Z.mod_small by lia.
  destruct (Z.compare_spec y1 y2) as [Ey|Hy|Hy]; [|reflexivity|lia].
  cbn [str_compare]. rewrite N.compare_refl.
  rewrite str_compare_app by now rewrite !length_pad.
  rewrite pad_compare. change (10 ^ Z.of_nat 2) with 100. rewrite !Z.mod_small by lia.
  destruct (Z.compare_spec m1 m2) as [Em|Hm|Hm]; [|reflexivity|lia].
  cbn [str_compare]. rewrite N.compare_refl.
  rewrite pad_compare. change (10 ^ Z.of_nat 2) with 100. rewrite !Z.mod_small by lia.
  apply Z.compare_lt_iff. lia.
Qed.

Lemma dayKey_injective (z1 z2 : Z) :
  fourDigitDay z1 -> fourDigitDay z2 -> dayKey z1 = dayKey z2 -> z1 = z2.
Proof.
  intros H1 H2 E. destruct (Z.lt_trichotomy z1 z2) as [Hlt|[Heq|Hgt]]; [|exact Heq|].
  - pose proof (dayKey_mono z1 z2 H1 H2 Hlt) as Hc.
    rewrite E, str_compare_refl in Hc. discriminate.
  - pose proof (dayKey_mono z2 z1 H2 H1 Hgt) as Hc.
    rewrite E, str_compare_refl in Hc. discriminate.
Qed.

Lemma dayKey_nonempty (z : Z) : dayKey z <> [].
Proof.
  unfold dayKey. destruct (isoDate_shape (z * msPerDay)) as (_ & [H|H]);
    intros E; rewrite E in H; discriminate.
Qed.

Lemma parseISODate_four_digits (y1 y2 y3 y4 a1 a2 b1 b2 : char) (y m d : Z) :
  digitsValue [y1; y2; y3; y4] 0 = Some y ->
  digitsValue [a1; a2] 0 = Some m -> digitsValue [b1; b2] 0 = Some d ->
  1 <= m <= 12 -> 1 <= d <= 31 ->
  parseISODate [y1; y2; y3; y4; ch "-"; a1; a2; ch "-"; b1; b2]
  = Some (days_from_civil y m d * msPerDay).
Proof.
  intros Hy Hm Hd Hmr Hdr.
  assert (H1 : isDigit y1 = true).
  { apply digitsValue_digits in Hy. now inversion Hy. }
  unfold parseISODate.
  rewrite (digit_not_char "+" ltac:(left; reflexivity) y1 H1),
    (digit_not_char "-" ltac:(left; reflexivity) y1 H1).
  cbn [firstn skipn length]. rewrite Hy, Hm, Hd.
  change (isChar "-" (ch "-")) with true. cbn [andb Nat.eqb].
  destruct (Z.leb_spec 1 m); [|lia]. destruct (Z.leb_spec m 12); [|lia].
  destruct (Z.leb_spec 1 d); [|lia]. destruct (Z.leb_spec d 31); [|lia].
  cbn [andb negb Z.ltb Z.compare]. rewrite Z.mul_1_l. reflexivity.
Qed.

Lemma parseISODate_dayKey (z : Z) : fourDigitDay z -> parseISODate (dayKey z) = Some (z * msPerDay).
Proof.
  intros Hz. pose proof (dayKey_four_digits z Hz) as K.
  pose proof (fourDigitDay_year z Hz) as R. pose proof (days_round_trip z) as Hrt.
  destruct (civil_from_days z) as [[y m] d]. destruct R as (Hy & Hm & Hd).
  destruct Hrt as (_ & _ & Hdays). rewrite K.
  pose proof (digitsValue_pad 4 y 0) as Vy. pose proof (digitsValue_pad 2 m 0) as Vm.
  pose proof (digitsValue_pad 2 d 0) as Vd.
  change (10 ^ Z.of_nat 4) with 10000 in Vy. change (10 ^ Z.of_nat 2) with 100 in Vm, Vd.
  rewrite Z.mod_small in Vy, Vm, Vd by lia. cbn [Z.mul Z.add] in Vy, Vm, Vd.
  cbn [pad app] in Vy, Vm, Vd.
  rewrite <- Hdays.
  exact (parseISODate_four_digits _ _ _ _ _ _ _ _ y m d Vy Vm Vd Hm Hd).
Qed.

Lemma dayDiff_dayKey (a b : Z) :
  fourDigitDay a -> fourDigitDay b -> dayDiff (dayKey a) (dayKey b) = Some (Z.abs (a - b)).
Proof.
  intros Ha Hb. unfold dayDiff. rewrite !parseISODate_dayKey by assumption. f_equal.
  replace (a * msPerDay - b * msPerDay) with ((a - b) * msPerDay) by lia.
  rewrite Z.abs_mul. change (Z.abs msPerDay) with msPerDay.
  rewrite <- Z.mul_opp_l, Z.div_mul by (unfold msPerDay; lia). lia.
Qed.


(** *** The longest streak *)

Lemma StronglySorted_increasing (l : list Z) : StronglySorted Z.lt l -> increasing l.
Proof.
  induction 1 as [|x l Hs IH Hall]; intros l1 l2 E a b Ha Hb.
  - destruct l1; [contradiction | discriminate].
  - destruct l1 as [|y l1]; [contradiction|]. cbn [app] in E. inversion E; subst.
    rewrite Forall_forall in Hall. destruct Ha as [<-|Ha].
    + apply Hall. apply in_or_app. now right.
    + now apply (IH l1 l2 eq_refl a b).
Qed.

Lemma increasing_front (l : list Z) (z : Z) :
  increasing (l ++ [z]) -> increasing l /\ forall x, In x l -> x < z.
Proof.
  intros H. split.
  - intros l1 l2 E a b Ha Hb. apply (H l1 (l2 ++ [z])).
    + now rewrite E, app_assoc.
    + exact Ha.
    + apply in_or_app. now left.
  - intros x Hx. apply (H l [z] eq_refl x z Hx). now left.
Qed.

Lemma StronglySorted_map_inv {A B : Type} (R : B -> B -> Prop) (f : A -> B) (l : list A) :
  StronglySorted R (map f l) -> StronglySorted (fun a b => R (f a) (f b)) l.
Proof.
  induction l as [|x l IH]; cbn [map]; intros H; [constructor|].
  inversion H as [|? ? Hs Hall]; subst. constructor; [now apply IH|].
  rewrite Forall_map in Hall. exact Hall.
Qed.

Lemma streakStep_later (s : Streak) (p z : Z) :
  fourDigitDay p -> fourDigitDay z -> p < z -> prevDateStr s = dayKey p ->
  streakStep s (dayKey z)
  = {| currentStreak := if z - p <=? 1 then currentStreak s + 1 else 1;
       maxStreak := if (if z - p <=? 1 then currentStreak s + 1 else 1) >? maxStreak s
                    then (if z - p <=? 1 then currentStreak s + 1 else 1)
                    else maxStreak s;
       prevDateStr := dayKey z |}.
Proof.
  intros Hp Hz Hlt Hprev. unfold streakStep. rewrite Hprev.
  rewrite (dayDiff_dayKey z p Hz Hp). rewrite Z.abs_eq by lia.
  pose proof (dayKey_nonempty p) as Hne. destruct (dayKey p); [congruence | reflexivity].
Qed.

Lemma streakInv_first (z : Z) :
  streakInv [z] (streakStep {| currentStreak := 0; maxStreak := 0; prevDateStr := [] |} (dayKey z)).
Proof.
  exists z. cbn [streakStep prevDateStr currentStreak maxStreak Z.gtb Z.compare].
  unfold runIn. repeat split; try lia.
  - now left.
  - intros x [<-|[]]. lia.
  - intros k Hk. left. lia.
  - intros [E|[]]. lia.
  - exists z. intros k Hk. left. lia.
  - intros D H. destruct (H 0 ltac:(lia)) as [E0|[]]. destruct (H 1 ltac:(lia)) as [E1|[]]. lia.
Qed.

Lemma streakInv_step (done : list Z) (s : Streak) (z : Z) :
  Forall fourDigitDay done -> fourDigitDay z -> (forall x, In x done -> x < z) ->
  streakInv done s -> streakInv (done ++ [z]) (streakStep s (dayKey z)).
Proof.
  intros Hfour Hz Hbelow (p & Hp & Hmax & Hprev & Hc & Hrun & Hleft & (D & HD) & Hnone).
  rewrite Forall_forall in Hfour.
  rewrite (streakStep_later s p z (Hfour p Hp) Hz (Hbelow p Hp) Hprev).
  pose proof (Hbelow p Hp) as Hpz.
  set (cur := if z - p <=? 1 then currentStreak s + 1 else 1).
  assert (Hcur : 1 <= cur) by (subst cur; destruct (z - p <=? 1); lia).
  assert (HrunZ : runIn (done ++ [z]) (z - cur + 1) cur).
  { intros k Hk. apply in_or_app. subst cur.
    destruct (Z.leb_spec (z - p) 1) as [Hadj|Hfar].
    - destruct (Z.eq_dec k (currentStreak s)) as [->|Hne].
      + right. left. lia.
      + left. replace (z - (currentStreak s + 1) + 1 + k)
          with (p - currentStreak s + 1 + k) by lia.
        apply Hrun. lia.
    - right. left. lia. }
  assert (HleftZ : ~ In (z - cur) (done ++ [z])).
  { intros Hin. apply in_app_or in Hin. destruct Hin as [Hin|[E|[]]]; [|lia].
    subst cur. destruct (Z.leb_spec (z - p) 1) as [Hadj|Hfar].
    - apply Hleft. replace (p - currentStreak s) with (z - (currentStreak s + 1)) by lia.
      exact Hin.
    - specialize (Hmax _ Hin). lia. }
  exists z. cbn [currentStreak maxStreak prevDateStr]. fold cur.
  split; [apply in_or_app; right; now left|].
  split; [intros x Hx; apply in_app_or in Hx; destruct Hx as [Hx|[<-|[]]];
          [specialize (Hbelow x Hx)|]; lia|].
  split; [reflexivity|].
  destruct (Z.gtb_spec cur (maxStreak s)) as [Hgt|Hle].
  - split; [lia|]. split; [exact HrunZ|]. split; [exact HleftZ|]. split.
    + exists (z - cur + 1). exact HrunZ.
    + intros D' Hrun'.
      pose proof (Hrun' cur ltac:(lia)) as Hlast. apply in_app_or in Hlast.
      assert (Hall : forall k, 0 <= k <= cur -> D' + k <= z).
      { intros k Hk. specialize (Hrun' k ltac:(lia)). apply in_app_or in Hrun'.
        destruct Hrun' as [Hin|[E|[]]]; [specialize (Hbelow _ Hin)|]; lia. }
      destruct Hlast as [Hin|[E|[]]].
      * apply (Hnone D'). intros k Hk. specialize (Hrun' k ltac:(lia)).
        apply in_app_or in Hrun'. destruct Hrun' as [Hin'|[E|[]]]; [exact Hin'|].
        specialize (Hbelow _ Hin). lia.
      * apply HleftZ. specialize (Hrun' 0 ltac:(lia)).
        replace (z - cur) with (D' + 0) by lia. exact Hrun'.
  - split; [lia|]. split; [exact HrunZ|]. split; [exact HleftZ|]. split.
    + exists D. intros k Hk. apply in_or_app. left. now apply HD.
    + intros D' Hrun'.
      assert (Hall : forall k, 0 <= k <= maxStreak s -> D' + k <= z).
      { intros k Hk. specialize (Hrun' k ltac:(lia)). apply in_app_or in Hrun'.
        destruct Hrun' as [Hin|[E|[]]]; [specialize (Hbelow _ Hin)|]; lia. }
      pose proof (Hrun' (maxStreak s) ltac:(lia)) as Hlast. apply in_app_or in Hlast.
      destruct Hlast as [Hin|[E|[]]].
      * apply (Hnone D'). intros k Hk. specialize (Hrun' k ltac:(lia)).
        apply in_app_or in Hrun'. destruct Hrun' as [Hin'|[E|[]]]; [exact Hin'|].
        specialize (Hbelow _ Hin). specialize (Hall (maxStreak s) ltac:(lia)). lia.
      * apply HleftZ. specialize (Hrun' (maxStreak s - cur) ltac:(lia)).
        replace (z - cur) with (D' + (maxStreak s - cur)) by lia. exact Hrun'.
Qed.

Lemma streak_fold (zs : list Z) :
  Forall fourDigitDay zs -> increasing zs -> zs <> [] ->
  streakInv zs (fold_left streakStep (map dayKey zs)
                  {| currentStreak := 0; maxStreak := 0; prevDateStr := [] |}).
Proof.
  induction zs as [|z zs IH] using rev_ind; intros Hfour Hinc Hne; [congruence|].
  apply Forall_app in Hfour. destruct Hfour as (Hfour & Hz). inversion Hz as [|? ? Hz' _]; subst.
  destruct (increasing_front zs z Hinc) as (Hinc' & Hbelow).
  rewrite map_app, fold_left_app. cbn [map fold_left].
  destruct zs as [|z0 zs'].
  - apply streakInv_first.
  - apply streakInv_step; auto. apply IH; auto. discriminate.
Qed.

Lemma keys_are_dayKeys (L : list jstring) (days : list Z) :
  (forall x, In x L -> In x (map dayKey days)) ->
  exists zs, L = map dayKey zs /\ forall z, In z zs -> In z days.
Proof.
  induction L as [|x L IH]; intros H.
  - exists []. split; [reflexivity | intros z []].
  - destruct IH as (zs & -> & Hzs); [intros y Hy; apply H; now right|].
    destruct (proj1 (in_map_iff _ _ _) (H x (or_introl eq_refl))) as (z & <- & Hz).
    exists (z :: zs). split; [reflexivity|]. intros z' [<-|Hin]; auto.
Qed.

(** X21: when the filtered messages lie in the years 0 to 9999 (UTC),
    [longestStreak] is the length of the longest run of consecutive UTC
    days that all have a message: some run of that many days has a message
    on each day, and no run of one day more has. *)
Theorem X21_longest_streak_is_the_longest_run (tz : Z) (clock : nat -> Z)
    (msgs : list Message) (yearFilter : option Z) :
  let days := map (fun m => dayNumber (date m)) (filterMessages tz msgs yearFilter) in
  let streak := longestStreak (analyzeMessages tz clock msgs yearFilter) in
  Forall fourDigitDay days ->
  (exists D, runIn days D streak) /\ (forall D, ~ runIn days D (streak + 1)).
Proof.
  cbv zeta. unfold analyzeMessages.
  destruct (filterMessages tz msgs yearFilter) as [|first rest] eqn:Hf.
  - intros _. cbn [longestStreak map]. split.
    + exists 0. intros k Hk. lia.
    + intros D H. exact (H 0 ltac:(lia)).
  - intros Hfour. cbn [longestStreak]. unfold streakOf.
    set (l := first :: rest) in *. set (st := forEachFrom tz 0 l initialAcc).
    set (days := map (fun m => dayNumber (date m)) l) in *.
    destruct (loop_dailyTotalCounts tz l) as (Hnd & Hk). fold st in Hnd, Hk.
    pose proof (sort_Permutation str_leb (keys (dailyTotalCounts st))) as Hperm.
    set (L := sort str_leb (keys (dailyTotalCounts st))) in *.
    assert (Hkeys : forall x, In x L <-> In x (map dayKey days)).
    { intros x. subst days. rewrite map_map.
      rewrite (map_ext (fun m => dayKey (dayNumber (date m))) (fun m => dateKeyOf (date m)))
        by (intros m; now rewrite dateKeyOf_isoDate, isoDate_dayKey).
      rewrite <- Hk. split; apply Permutation_in; [exact Hperm | now apply Permutation_sym]. }
    destruct (keys_are_dayKeys L days (fun x => proj1 (Hkeys x))) as (zs & HL & Hzs).
    assert (Hfour' : Forall fourDigitDay zs).
    { apply Forall_forall. intros z Hz. rewrite Forall_forall in Hfour. auto. }
    assert (Hndz : NoDup zs).
    { apply (NoDup_map_inv dayKey). rewrite <- HL.
      apply (Permutation_NoDup (Permutation_sym Hperm) Hnd). }
    assert (Hsorted : StronglySorted Z.lt zs).
    { apply (StronglySorted_strict fourDigitDay
               (fun a b => str_leb (dayKey a) (dayKey b) = true)); auto.
      - intros a b Ha Hb Hle Hne. destruct (Z.lt_trichotomy a b) as [|[|Hgt]]; [assumption|lia|].
        pose proof (dayKey_mono b a Hb Ha Hgt) as Hc. unfold str_leb in Hle.
        rewrite (str_compare_antisym (dayKey b) (dayKey a)), Hc in Hle. discriminate.
      - apply (StronglySorted_map_inv (fun a b => str_leb a b = true) dayKey zs).
        rewrite <- HL. apply sort_StronglySorted.
        + intros x y. apply str_leb_total.
        + intros x y z. apply str_leb_trans. }
    assert (Hmem : forall z, In z zs <-> In z days).
    { intros z. split; [apply Hzs|]. intros Hz.
      assert (Hin : In (dayKey z) L) by (apply Hkeys; now apply in_map).
      rewrite HL in Hin. apply in_map_iff in Hin. destruct Hin as (z' & E & Hz').
      rewrite Forall_forall in Hfour, Hfour'.
      now rewrite <- (dayKey_injective z' z (Hfour' z' Hz') (Hfour z Hz) E). }
    assert (Hne : zs <> []).
    { intros E. assert (Hin : In (dayNumber (date first)) days) by now left.
      apply Hmem in Hin. now rewrite E in Hin. }
    destruct (streak_fold zs Hfour' (StronglySorted_increasing zs Hsorted) Hne)
      as (_ & _ & _ & _ & _ & _ & _ & (D & HD) & Hnone).
    rewrite <- HL in HD, Hnone. split.
    + exists D. intros k Hrange. apply Hmem. now apply HD.
    + intros D' H. apply (Hnone D'). intros k Hrange. apply Hmem. now apply H.
Qed.

Lemma X21_longest_streak_witness :
  exists D, runIn (map (fun m => dayNumber (date m)) (filterMessages 0 twoDays None)) D
              (longestStreak (analyzeMessages 0 (fun _ => 0) twoDays None)).
Proof.
  refine (proj1 (X21_longest_streak_is_the_longest_run 0 (fun _ => 0) twoDays None _)).
  repeat constructor; vm_compute; discriminate.
Defined.


(* ===================================================================== *)
(** ** Further properties of the users *)
(* ===================================================================== *)

(** *** Colours *)

Lemma length_indexed {A : Type} (l : list A) : forall i, length (indexed i l) = length l.
Proof. induction l as [|x l IH]; intros i; cbn [indexed length]; [reflexivity | now rewrite IH]. Qed.

Lemma finalizeUsers_nth (um : jsmap UStat) (k : nat) (a : UserStat) :
  nth_error (finalizeUsers um) k = Some a ->
  color a = nth (Z.to_nat (Z.of_nat k mod 12)) COLORS [].
Proof.
  unfold finalizeUsers. intros H.
  assert (Hk : (k < length (sortedUserNames um))%nat).
  { rewrite <- (length_indexed (sortedUserNames um) 0),
      <- (length_map (finalizeUser um)).
    apply nth_error_Some. rewrite H. discriminate. }
  rewrite nth_error_map in H.
  rewrite (nth_error_indexed (sortedUserNames um) 0 k [] Hk) in H. cbn [option_map] in H.
  inversion H. unfold finalizeUser. cbn [color fst]. reflexivity.
Qed.

(** X22: the colour of a user of a result is one of the twelve [COLORS],
    and two users have the same colour exactly when their ranks differ by
    a multiple of 12. *)
Theorem X22_user_colours (tz : Z) (clock : nat -> Z) (msgs : list Message)
    (yearFilter : option Z) (i j : nat) (a b : UserStat) :
  nth_error (users (analyzeMessages tz clock msgs yearFilter)) i = Some a ->
  nth_error (users (analyzeMessages tz clock msgs yearFilter)) j = Some b ->
  In (color a) COLORS
  /\ (color a = color b <-> Z.of_nat i mod 12 = Z.of_nat j mod 12).
Proof.
  destruct (users_of_result tz clock msgs yearFilter) as (um & -> & _).
  intros Ha Hb. rewrite (finalizeUsers_nth um i a Ha), (finalizeUsers_nth um j b Hb).
  pose proof (Z.mod_pos_bound (Z.of_nat i) 12 ltac:(lia)) as Hi.
  pose proof (Z.mod_pos_bound (Z.of_nat j) 12 ltac:(lia)) as Hj.
  assert (Hlen : length COLORS = 12%nat) by reflexivity.
  assert (Hnd : NoDup COLORS).
  { apply (NoDup_count_occ' jstring_eq_dec). intros x Hx.
    repeat (destruct Hx as [<-|Hx]; [vm_compute; reflexivity|]). destruct Hx. }
  split.
  - apply nth_In. lia.
  - split.
    + intros E. apply (proj1 (NoDup_nth COLORS []) Hnd) in E; lia.
    + intros E. now rewrite E.
Qed.

Lemma X22_user_colours_witness :
  In (u "#8b5cf6") COLORS.
Proof.
  exact (proj1 (X22_user_colours 0 (fun _ => 0) twoMessages None 0 1
                  {| name := u "Alice"; messageCount := 1; color := u "#8b5cf6";
                     oneSidedConversationsCount := 0 |}
                  {| name := u "Bob"; messageCount := 1; color := u "#ec4899";
                     oneSidedConversationsCount := 0 |}
                  eq_refl eq_refl)).
Defined.

(** *** One-sided days *)

Lemma share_exclusive (msgs : list Message) (d a b : jstring) :
  a <> b -> dayShare msgs d a + dayShare msgs d b <= dayTotal msgs d.
Proof.
  intros Hab. induction msgs as [|m msgs IH] using rev_ind.
  - cbn. lia.
  - rewrite !dayShare_snoc, dayTotal_snoc.
    destruct (str_eqb (dateKeyOf (date m)) d); cbn [andb]; [|lia].
    destruct (str_eqb (sender m) a) eqn:Ea, (str_eqb (sender m) b) eqn:Eb; try lia.
    apply str_eqb_eq in Ea, Eb. congruence.
Qed.

Lemma filter_at_most_one {A : Type} (P : A -> bool) (l : list A) :
  NoDup l ->
  (forall a b, In a l -> In b l -> P a = true -> P b = true -> a = b) ->
  (length (filter P l) <= 1)%nat.
Proof.
  induction 1 as [|x l Hx Hnd IH]; intros Huniq; cbn [filter length]; [lia|].
  destruct (P x) eqn:E.
  - assert (Hnone : filter P l = []).
    { destruct (filter P l) as [|y l'] eqn:Ef; [reflexivity|]. exfalso.
      assert (Hy : In y (filter P l)) by (rewrite Ef; now left).
      apply filter_In in Hy. destruct Hy as (Hy & Py).
      apply Hx. rewrite (Huniq x y (or_introl eq_refl) (or_intror Hy) E Py). exact Hy. }
    rewrite Hnone. cbn [length]. lia.
  - apply IH. intros a b Ha Hb. apply Huniq; now right.
Qed.

Lemma sum_map_add {A : Type} (f g : A -> Z) (l : list A) :
  sum (map (fun x => f x + g x) l) = sum (map f l) + sum (map g l).
Proof. induction l as [|x l IH]; cbn [map]; rewrite ?sum_nil, ?sum_cons; lia. Qed.

Lemma sum_map_le {A : Type} (f g : A -> Z) (l : list A) :
  (forall x, In x l -> f x <= g x) -> sum (map f l) <= sum (map g l).
Proof.
  induction l as [|x l IH]; intros H; cbn [map]; rewrite ?sum_nil, ?sum_cons; [lia|].
  specialize (H x (or_introl eq_refl)) as Hx.
  assert (sum (map f l) <= sum (map g l)) by (apply IH; intros y Hy; apply H; now right). lia.
Qed.

Lemma double_count {A B : Type} (P : A -> B -> bool) (us : list A) (ds : list B) :
  sum (map (fun a => Z.of_nat (length (filter (P a) ds))) us)
  = sum (map (fun d => Z.of_nat (length (filter (fun a => P a d) us))) ds).
Proof.
  induction us as [|x us IH]; cbn [map filter].
  - rewrite sum_nil. induction ds as [|d ds IHd]; cbn [map length] in *;
      rewrite ?sum_nil, ?sum_cons; lia.
  - rewrite sum_cons, IH, <- sum_indicator, <- sum_map_add. f_equal. apply map_ext.
    intros d. destruct (P x d); cbn [length]; lia.
Qed.

Lemma map_oneSided_finalizeUsers (um : jsmap UStat) :
  map oneSidedConversationsCount (finalizeUsers um) = map (oneSidedOf um) (sortedUserNames um).
Proof.
  unfold finalizeUsers. rewrite map_map.
  rewrite <- (map_indexed_snd (oneSidedOf um) (sortedUserNames um) 0).
  apply map_ext. intros [i n]. unfold finalizeUser, oneSidedOf.
  cbn [snd oneSidedConversationsCount]. destruct (get n um); reflexivity.
Qed.

(** X23: no UTC day is one-sided for two users: the one-sided counters of
    the users of a result add up to at most the number of UTC days (date
    keys of [toISOString]) with more than 10 filtered messages. *)
Theorem X23_one_sided_days_are_exclusive (tz : Z) (clock : nat -> Z) (msgs : list Message)
    (yearFilter : option Z) :
  let filtered := filterMessages tz msgs yearFilter in
  let r := analyzeMessages tz clock msgs yearFilter in
  0 <= sum (map oneSidedConversationsCount (users r))
    <= Z.of_nat (length (filter (fun d => dayTotal filtered d >? 10) (activeDays filtered))).
Proof.
  cbv zeta. unfold analyzeMessages.
  destruct (filterMessages tz msgs yearFilter) as [|first rest] eqn:Hf.
  - cbn [users map]. rewrite sum_nil. lia.
  - cbn [users]. set (l := first :: rest). set (st := forEachFrom tz 0 l initialAcc).
    destruct (loop_userMap tz l) as (Hnd & _). fold st in Hnd.
    rewrite map_oneSided_finalizeUsers. unfold sortedUserNames.
    rewrite (sum_Permutation _ _ (Permutation_map _ (sort_Permutation _ _))).
    rewrite oneSidedDays_keys.
    rewrite (map_ext_in _ (fun who => Z.of_nat (length (filter (oneSidedOn l who) (activeDays l)))))
      by (intros who Hwho; apply (one_sided_counter tz l who Hwho)).
    rewrite (double_count (oneSidedOn l)). rewrite <- sum_indicator. split.
    + clear. induction (activeDays l) as [|d ds IH]; cbn [map]; rewrite ?sum_nil, ?sum_cons; lia.
    + apply sum_map_le. intros d _.
      destruct (dayTotal l d >? 10) eqn:E.
      * assert (H1 : (length (filter (fun who => oneSidedOn l who d) (keys (userMap st))) <= 1)%nat).
        { apply filter_at_most_one; [exact Hnd|]. intros a b _ _ Ha Hb.
          destruct (jstring_eq_dec a b) as [|Hne]; [assumption|exfalso].
          unfold oneSidedOn in Ha, Hb. rewrite E in Ha, Hb. cbn [andb] in Ha, Hb.
          apply Z.gtb_lt in Ha, Hb. pose proof (share_exclusive l d a b Hne).
          apply Z.gtb_lt in E. lia. }
        lia.
      * rewrite (filter_ext _ (fun _ => false)) by (intros who; unfold oneSidedOn; now rewrite E).
        now rewrite filter_false.
Qed.


(* ===================================================================== *)
(** ** Properties of the application *)
(* ===================================================================== *)

Lemma last_In {A : Type} (l : list A) (d : A) : l <> [] -> In (last l d) l.
Proof.
  induction l as [|x l IH]; [congruence|]. intros _. destruct l as [|y l]; [now left|].
  right. apply IH. discriminate.
Qed.

Lemma last_default {A : Type} (l : list A) (d d' : A) : l <> [] -> last l d = last l d'.
Proof.
  induction l as [|x l IH]; [congruence|]. intros _. destruct l as [|y l]; [reflexivity|].
  apply IH. discriminate.
Qed.

Lemma yearOptions_Permutation (tz : Z) (clock : nat -> Z) (msgs : list Message)
    (yearFilter : option Z) :
  filterMessages tz msgs yearFilter <> [] ->
  Permutation (yearOptions (analyzeMessages tz clock msgs yearFilter))
    (dedupInto [] (yearsOf tz msgs)).
Proof.
  intros Hne. unfold analyzeMessages.
  destruct (filterMessages tz msgs yearFilter) as [|first rest]; [congruence|].
  cbn [yearOptions]. rewrite <- Permutation_rev. apply sort_Permutation.
Qed.

(** X24: after the upload of a transcript that parsed to at least one
    message the story is shown with a result that is not the empty one: the
    selected year is the local year of the last message, the last message
    is among the analysed ones, the selected year is one of [yearOptions],
    and a comparison is offered exactly when [yearOptions] has at least two
    years. *)
Theorem X24_story_after_upload (tz : Z) (clock : nat -> Z) (st : AppState)
    (result : ParseResult) (m0 : Message) :
  status result = success -> messages result <> [] ->
  let st' := handleParseResult tz st result in
  let r := analyticsData tz clock st' in
  let lastMsg := last (messages result) m0 in
  viewState st' = viewStory
  /\ selectedYear st' = Some (getFullYear tz (date lastMsg))
  /\ 1 <= totalMessages r
  /\ In lastMsg (result_messages r)
  /\ In (getFullYear tz (date lastMsg)) (yearOptions r)
  /\ (canCompare tz st' = true <-> (2 <= length (yearOptions r))%nat).
Proof.
  intros Hs Hne. cbv zeta. unfold handleParseResult, analyticsData, canCompare. rewrite Hs.
  destruct (messages result) as [|first rest] eqn:Hm; [congruence|].
  cbn [app_messages selectedYear viewState]. rewrite <- Hm in *.
  assert (Hlast : last (messages result) first = last (messages result) m0)
    by (apply last_default; congruence).
  rewrite Hlast. set (lastMsg := last (messages result) m0).
  assert (Hin : In lastMsg (messages result)) by (apply last_In; congruence).
  set (y := getFullYear tz (date lastMsg)).
  assert (Hfil : In lastMsg (filterMessages tz (messages result) (orUndefined (Some y)))).
  { unfold orUndefined, filterMessages. destruct (y =? 0) eqn:E; [exact Hin|]. rewrite E.
    apply filter_In. split; [exact Hin | now apply Z.eqb_eq]. }
  assert (Hnonempty : filterMessages tz (messages result) (orUndefined (Some y)) <> []).
  { intros E. now rewrite E in Hfil. }
  pose proof (yearOptions_Permutation tz clock (messages result) (orUndefined (Some y)) Hnonempty)
    as Hperm.
  destruct (dedupInto_spec (yearsOf tz (messages result)) [] (NoDup_nil _)) as (_ & Hmem).
  split; [reflexivity|]. split; [reflexivity|].
  assert (Hres : result_messages (analyzeMessages tz clock (messages result)
                                    (orUndefined (Some y)))
                 = filterMessages tz (messages result) (orUndefined (Some y))
                 /\ totalMessages (analyzeMessages tz clock (messages result)
                                     (orUndefined (Some y)))
                    = Z.of_nat (length (filterMessages tz (messages result)
                                          (orUndefined (Some y))))).
  { unfold analyzeMessages.
    destruct (filterMessages tz (messages result) (orUndefined (Some y))); split; reflexivity. }
  destruct Hres as (Hrm & Htotal). rewrite Hrm, Htotal.
  split; [destruct (filterMessages tz (messages result) (orUndefined (Some y)));
          [contradiction | cbn [length]; lia]|].
  split; [exact Hfil|]. split.
  - apply (Permutation_in _ (Permutation_sym Hperm)). apply Hmem. right.
    unfold yearsOf. now apply (in_map (fun m => getFullYear tz (date m))).
  - rewrite (Permutation_length Hperm). fold (yearsOf tz (messages result)).
    rewrite andb_true_r, Nat.ltb_lt. lia.
Qed.

Lemma X24_story_after_upload_witness :
  1 <= totalMessages
         (analyticsData 0 (fun _ => 0)
            (handleParseResult 0
               {| app_messages := []; selectedYear := None; viewState := viewUpload |}
               (parseChatFile 0 (u "en-GB") twoLineChat))).
Proof.
  refine (proj1 (proj2 (proj2
            (X24_story_after_upload 0 (fun _ => 0)
               {| app_messages := []; selectedYear := None; viewState := viewUpload |}
               (parseChatFile 0 (u "en-GB") twoLineChat) (msg 0 [] []) _ _)))).
  - reflexivity.
  - vm_compute. discriminate.
Defined.

(** *** The sample of the activity chart *)

Lemma succ_mod (step i : Z) :
  1 <= step -> 0 <= i ->
  (i + 1) mod step = if i mod step + 1 =? step then 0 else i mod step + 1.
Proof.
  intros Hstep Hi. pose proof (Z.mod_pos_bound i step ltac:(lia)) as Hc.
  pose proof (Z.div_mod i step ltac:(lia)) as Hdm.
  destruct (Z.eqb_spec (i mod step + 1) step) as [E|Hne]; symmetry.
  - apply (Z.mod_unique_pos _ _ (i / step + 1)); lia.
  - apply (Z.mod_unique_pos _ _ (i / step)); lia.
Qed.

(** Where the next kept index is, and how many are kept. *)
Lemma everyNth_length {A : Type} (step : Z) (data : list A) :
  1 <= step ->
  forall i, 0 <= i ->
    let r := if i mod step =? 0 then 0 else step - i mod step in
    let len := Z.of_nat (length (everyNth step i data)) in
    let n := Z.of_nat (length data) in
    n <= r + step * len /\ (len = 0 \/ r + step * (len - 1) < n).
Proof.
  intros Hstep. induction data as [|x rest IH]; intros i Hi; cbv zeta.
  - pose proof (Z.mod_pos_bound i step ltac:(lia)) as Hc.
    cbn [everyNth length]. split; [|now left]. destruct (i mod step =? 0); lia.
  - specialize (IH (i + 1) ltac:(lia)). cbv zeta in IH.
    rewrite (succ_mod step i Hstep Hi) in IH.
    pose proof (Z.mod_pos_bound i step ltac:(lia)) as Hc.
    cbn [everyNth]. destruct (Z.eqb_spec (i mod step) 0) as [E0|Hne0].
    + rewrite E0 in IH. cbn [length]. rewrite !Nat2Z.inj_succ.
      set (len' := Z.of_nat (length (everyNth step (i + 1) rest))) in *.
      set (n' := Z.of_nat (length rest)) in *.
      assert (Hlen' : 0 <= len') by (subst len'; lia).
      assert (Hn' : 0 <= n') by (subst n'; lia).
      destruct (Z.eqb_spec (0 + 1) step) as [E1|Hne1].
      * change (0 =? 0) with true in IH. cbv iota in IH. split; [nia|]. right. nia.
      * destruct (Z.eqb_spec (0 + 1) 0); [lia|]. split; [nia|]. right. nia.
    + cbn [length]. rewrite !Nat2Z.inj_succ.
      set (len' := Z.of_nat (length (everyNth step (i + 1) rest))) in *.
      set (n' := Z.of_nat (length rest)) in *.
      destruct (Z.eqb_spec (i mod step + 1) step) as [E1|Hne1].
      * change (0 =? 0) with true in IH. cbv iota in IH. split; [nia|].
        destruct IH as (_ & [Hz|Hlt]); [now left | right; nia].
      * destruct (Z.eqb_spec (i mod step + 1) 0); [lia|]. split; [nia|].
        destruct IH as (_ & [Hz|Hlt]); [now left | right; nia].
Qed.

Lemma everyNth_In {A : Type} (step : Z) (data : list A) (x : A) :
  forall i, In x (everyNth step i data) -> In x data.
Proof.
  induction data as [|y rest IH]; intros i; cbn [everyNth]; [tauto|].
  destruct (i mod step =? 0); [intros [->|H]; [now left | right; eauto] | right; eauto].
Qed.

(** X25: the activity chart draws at most 200 points: data of up to 200
    points is drawn as it is, and of longer data between 101 and 200
    points are drawn, all of them points of the data and the first point
    among them. *)
Theorem X25_chart_sample {A : Type} (data : list A) :
  (length (chartData data) <= 200)%nat
  /\ ((length data <= 200)%nat -> chartData data = data)
  /\ ((200 < length data)%nat -> (101 <= length (chartData data))%nat)
  /\ hd_error (chartData data) = hd_error data
  /\ (forall x, In x (chartData data) -> In x data).
Proof.
  unfold chartData. cbv zeta. set (n := Z.of_nat (length data)).
  destruct (Z.gtb_spec n 200) as [Hbig|Hsmall].
  - set (step := (n + 199) / 200).
    assert (Hstep : 1 <= step /\ n <= 200 * step /\ 200 * step < n + 200)
      by (subst step; Z.div_mod_to_equations; lia).
    destruct Hstep as (Hstep & Hup & Hlow).
    destruct (everyNth_length step data Hstep 0 ltac:(lia)) as (Hcover & Hlast).
    rewrite Z.mod_0_l in Hcover, Hlast by lia. cbn [Z.eqb] in Hcover, Hlast. fold n in Hcover, Hlast.
    set (len := Z.of_nat (length (everyNth step 0 data))) in *.
    assert (Hlen : 0 <= len) by (subst len; lia).
    assert (Hbounds : 101 <= len <= 200).
    { destruct Hlast as [Hz|Hlt]; [nia|]. split; nia. }
    split; [subst len; lia|]. split; [subst n; lia|]. split; [intros _; subst len; lia|]. split.
    + destruct data as [|x rest]; [reflexivity|]. cbn [everyNth].
      rewrite Z.mod_0_l by lia. reflexivity.
    + intros x. apply everyNth_In.
  - split; [subst n; lia|]. split; [reflexivity|]. split; [subst n; lia|].
    split; [reflexivity | auto].
Qed.


Lemma X25_chart_sample_witness :
  (101 <= length (chartData (repeat 0 300)))%nat.
Proof.
  apply (X25_chart_sample (repeat 0 300)). rewrite repeat_length. lia.
Defined.


(** *** Dates that are not dates of the calendar *)

Lemma days_from_civil_wide (y m : Z) :
  0 <= y <= 11000 -> 1 <= m <= 12 -> -720000 <= days_from_civil y m 1 <= 3400000.
Proof.
  intros Hy Hm. unfold days_from_civil. cbv zeta.
  destruct (m <=? 2), (m >? 2); Z.div_mod_to_equations; lia.
Qed.

(** X26: [parseDate] never rejects a date for its numbers: whatever the
    day, month and year up to 9999 and the hour and minute up to 99, on a
    host within a day of UTC it returns a valid date in each of the three
    orders, in which months beyond 12 carry into the year and days beyond
    the month into the following months. *)
Theorem X26_every_numeric_date_is_accepted (tz : Z) (sd sm sy sh smi : jstring)
    (s1 s2 t1 : char) (d m y h mi : Z) :
  numeral sd = Some d -> numeral sm = Some m -> numeral sy = Some y ->
  numeral sh = Some h -> numeral smi = Some mi ->
  isDateSep s1 = true -> isDateSep s2 = true -> isColonDot t1 = true ->
  d <= 9999 -> m <= 9999 -> y <= 9999 -> h <= 99 -> mi <= 99 -> Z.abs tz <= 1440 ->
  exists t,
    parseDate tz (sd ++ s1 :: sm ++ s2 :: sy) (sh ++ t1 :: smi) DMY = Some t
    /\ parseDate tz (sm ++ s1 :: sd ++ s2 :: sy) (sh ++ t1 :: smi) MDY = Some t
    /\ parseDate tz (sy ++ s1 :: sm ++ s2 :: sd) (sh ++ t1 :: smi) YMD = Some t
    /\ localTime tz t
       = (days_from_civil (fullYear y + (m - 1) / 12) ((m - 1) mod 12 + 1) 1 + (d - 1))
         * msPerDay + h * msPerHour + mi * msPerMinute.
Proof.
  intros Hd Hm Hy Hh Hmi Hs1 Hs2 Ht Hd9 Hm9 Hy9 Hh9 Hmi9 Htz.
  destruct (numeral_digits sd d Hd) as (_ & Hd0).
  destruct (numeral_digits sm m Hm) as (_ & Hm0).
  destruct (numeral_digits sy y Hy) as (_ & Hy0).
  destruct (numeral_digits sh h Hh) as (_ & Hh0).
  destruct (numeral_digits smi mi Hmi) as (_ & Hmi0).
  pose proof (fullYear_bounds y ltac:(lia)) as Hfy.
  set (days := days_from_civil (fullYear y + (m - 1) / 12) ((m - 1) mod 12 + 1) 1 + (d - 1)).
  exists (days * msPerDay + h * msPerHour + mi * msPerMinute - tz * msPerMinute).
  assert (Hnew : newDate tz (Some (fullYear y)) (Some (m - 1)) (Some d) (Some h) (Some mi)
                 = Some (days * msPerDay + h * msPerHour + mi * msPerMinute
                         - tz * msPerMinute)).
  { unfold newDate, MakeDay.
    assert (E : (0 <=? fullYear y) && (fullYear y <=? 99) = false)
      by (apply andb_false_iff; right; apply Z.leb_gt; lia).
    rewrite E.
    assert (Hcarry : -1 <= (m - 1) / 12 <= 833) by (Z.div_mod_to_equations; lia).
    pose proof (Z.mod_pos_bound (m - 1) 12 ltac:(lia)) as Hmonth.
    pose proof (days_from_civil_wide (fullYear y + (m - 1) / 12) ((m - 1) mod 12 + 1)
                  ltac:(lia) ltac:(lia)) as Hb.
    replace (days_from_civil (fullYear y + (m - 1) / 12) ((m - 1) mod 12 + 1) 1 + d - 1)
      with days by (subst days; lia).
    assert (Hdays : -730000 <= days <= 3410000) by (subst days; lia).
    unfold TimeClip, msPerDay, msPerHour, msPerMinute.
    destruct (Z.leb_spec (Z.abs (days * 86400000 + h * 3600000 + mi * 60000 - tz * 60000))
                8640000000000000); [reflexivity | lia]. }
  repeat split.
  - rewrite parseDate_fields,
      (dateFields_token sd sm sy s1 s2 d m y DMY Hd Hm Hy Hs1 Hs2),
      (timeFields_token sh smi t1 h mi Hh Hmi Ht).
    exact Hnew.
  - rewrite parseDate_fields,
      (dateFields_token sm sd sy s1 s2 m d y MDY Hm Hd Hy Hs1 Hs2),
      (timeFields_token sh smi t1 h mi Hh Hmi Ht).
    exact Hnew.
  - rewrite parseDate_fields,
      (dateFields_token sy sm sd s1 s2 y m d YMD Hy Hm Hd Hs1 Hs2),
      (timeFields_token sh smi t1 h mi Hh Hmi Ht).
    exact Hnew.
  - unfold localTime. lia.
Qed.

Lemma X26_every_numeric_date_witness :
  exists t,
    parseDate 0 (u "31" ++ ch "/" :: u "02" ++ ch "/" :: u "2023") (u "25" ++ ch ":" :: u "61") DMY
    = Some t.
Proof.
  destruct (X26_every_numeric_date_is_accepted 0 (u "31") (u "02") (u "2023") (u "25") (u "61")
              (ch "/") (ch "/") (ch ":") 31 2 2023 25 61)
    as (t & H1 & _); try reflexivity; try lia.
  exists t. exact H1.
Defined.


(* ===================================================================== *)
(** ** From a line to its message *)
(* ===================================================================== *)

Lemma pattern_tail_exact (st : Stamp) (rest : jstring) (c : captures) :
  str_eqb (dialect st) (u "] ") || str_eqb (dialect st) (u " - ") = true ->
  (dialect st = u "] " -> headNot (isChar "-") rest) ->
  run (opt (Cls (isChar "]")) ·· opt (Cls isSpace ·· Cls (isChar "-") ·· Cls isSpace))%re
      (dialect st ++ rest) c (fun s' c' => Some (s', c'))
  = Some (afterStamp st rest, c).
Proof.
  intros Hdia Hhead. unfold afterStamp. apply dialect_cases in Hdia.
  destruct Hdia as [E|E]; rewrite E in *.
  - specialize (Hhead eq_refl). change (str_eqb [93; 32]%N (u "] ")) with true. cbv iota.
    cbn [run app]. rewrite run_opt, run_cls_cons. change (isChar "]" 93%N) with true. cbv iota.
    rewrite run_opt. cbn [run]. change (isSpace 32%N) with true. cbv iota.
    destruct rest as [|x rest]; [reflexivity|]. cbn [headNot] in Hhead. now rewrite Hhead.
  - change (str_eqb [32; 45; 32]%N (u "] ")) with false. cbv iota.
    cbn [run app]. rewrite run_opt, run_cls_cons. change (isChar "]" 32%N) with false. cbv iota.
    rewrite run_opt. cbn [run]. reflexivity.
Qed.

Lemma lineOf_afterStamp (st : Stamp) (rest : jstring) :
  str_eqb (dialect st) (u "] ") || str_eqb (dialect st) (u " - ") = true ->
  exists prefix, lineOf st rest = prefix ++ afterStamp st rest.
Proof.
  intros Hdia. apply dialect_cases in Hdia. unfold lineOf, afterStamp.
  destruct Hdia as [E|E]; rewrite E.
  - exists ((if bracket st then u "[" else []) ++ dateToken st ++ comma st ++ gap st
            ++ timeToken st ++ [93%N]).
    change (str_eqb [93; 32]%N (u "] ")) with true. cbv iota.
    rewrite <- !app_assoc. reflexivity.
  - exists ((if bracket st then u "[" else []) ++ dateToken st ++ comma st ++ gap st
            ++ timeToken st ++ [32; 45; 32]%N).
    change (str_eqb [32; 45; 32]%N (u "] ")) with false. cbv iota.
    rewrite <- !app_assoc. reflexivity.
Qed.

(** The match of the pattern on a line with a stamp: the two captures and
    what is left of the line. *)
Lemma match_stamped_line (st : Stamp) (rest : jstring) :
  patternStamp st = true ->
  (dialect st = u "] " -> headNot (isChar "-") rest) ->
  exists m,
    match_ TIMESTAMP_PATTERN (lineOf st rest) = Some m
    /\ m1 m = dateToken st /\ m2 m = timeToken st
    /\ skipn (length (m0 m)) (lineOf st rest) = afterStamp st rest.
Proof.
  intros Hst Hhead. unfold patternStamp in Hst. rewrite !andb_true_iff in Hst.
  destruct Hst as (((Hd1 & Hd2) & Hd3) & Hshape).
  pose proof (time_group_eats st rest Hshape) as Htime.
  pose proof Hshape as Hshape'. unfold stampShape in Hshape'. rewrite !andb_true_iff in Hshape'.
  destruct Hshape'
    as ((((((((((Hs1 & Hs2) & Hcomma) & Hgap) & Hgaplen) & Hhh) & _) & _) & _) & _) & Hdia).
  apply Nat.leb_le in Hgaplen.
  destruct (digitsb_inv _ _ _ Hhh) as (Ah & Lh & _).
  destruct (digitsb_inv _ _ _ Hd1) as (A1 & L1 & _).
  pose proof (pattern_tail_exact st rest [(2%nat, timeToken st); (1%nat, dateToken st)]
                Hdia Hhead) as Htail.
  assert (Hrun : run TIMESTAMP_PATTERN (lineOf st rest) [] (fun s' c' => Some (s', c'))
                 = Some (afterStamp st rest, [(2%nat, timeToken st); (1%nat, dateToken st)])).
  { unfold TIMESTAMP_PATTERN, lineOf.
    apply run_cat_eats with (f := fun c => c).
    { destruct (bracket st).
      - apply eats_opt_present. now apply eats_cls.
      - apply eats_opt_absent. apply cls_alone_fails.
        unfold dateToken. rewrite <- app_assoc.
        apply headNot_app with (q := isDigit); auto. apply digit_not_bracket. }
    apply run_cat_eats with (f := fun c => (1%nat, dateToken st) :: c).
    { apply date_group_eats; auto.
      destruct (comma st) as [|x [|? ?]]; try discriminate.
      - cbn [app]. apply headNot_app with (q := isSpace); auto. apply space_not_digit.
      - cbn [app headNot]. now apply commaDot_not_digit. }
    apply run_cat_eats with (f := fun c => c).
    { destruct (comma st) as [|x [|? ?]]; try discriminate.
      - apply eats_opt_absent. apply cls_alone_fails.
        apply headNot_app with (q := isSpace); auto. apply space_not_commaDot.
      - apply eats_opt_present. now apply eats_cls. }
    apply run_cat_eats with (f := fun c => c).
    { apply eats_plus; auto. unfold timeToken. rewrite <- app_assoc.
      apply headNot_app with (q := isDigit); auto. apply digit_not_space. }
    apply run_cat_eats with (f := fun c => (2%nat, timeToken st) :: c); [exact Htime|].
    exact Htail. }
  unfold match_. rewrite Hrun. eexists. split; [reflexivity|]. cbn [m0 m1 m2 capture Nat.eqb orEmpty].
  split; [reflexivity|]. split; [reflexivity|].
  destruct (lineOf_afterStamp st rest Hdia) as (prefix & ->).
  rewrite firstn_token. now rewrite skipn_app, skipn_all, Nat.sub_diag.
Qed.

Lemma indexOf_app (c : char) (a b : jstring) :
  ~ In c a -> indexOf c (a ++ c :: b) = Some (length a).
Proof.
  induction a as [|x a IH]; cbn [app indexOf In length]; intros H.
  - now rewrite N.eqb_refl.
  - destruct (N.eqb_spec x c); [tauto|]. rewrite IH by tauto. reflexivity.
Qed.

Lemma trim_leading_space (x : char) (s : jstring) : isSpace x = true -> trim (x :: s) = trim s.
Proof. intros H. unfold trim. cbn [dropWhile]. now rewrite H. Qed.

(** X27: a line that starts with a timestamp of the Android or the iOS
    dialect whose date [parseDate] reads, followed by a sender without a
    colon, a colon and a text, becomes one new message that is the current
    one: its date is the date read, its sender the trimmed sender and its
    content the trimmed text. *)
Theorem X27_stamped_line_becomes_a_message (tz : Z) (fmt : DateFormat) (s : ParserState)
    (st : Stamp) (who text : jstring) (t : Z) :
  patternStamp st = true ->
  ~ In (ch ":") who ->
  (dialect st = u "] " -> headNot (isChar "-") (who ++ ch ":" :: text)) ->
  parseDate tz (dateToken st) (timeToken st) fmt = Some t ->
  parseLine tz fmt s (lineOf st (who ++ ch ":" :: text))
  = {| parsed := parsed s ++ [{| date := t; sender := trim who; content := trim text |}];
       lastMessage := Some (length (parsed s)) |}.
Proof.
  intros Hst Hcolon Hhead Hdate.
  destruct (match_stamped_line st (who ++ ch ":" :: text) Hst Hhead)
    as (m & Hm & Hm1 & Hm2 & Hrest).
  unfold parseLine. rewrite Hm. cbv zeta. rewrite Hm1, Hm2, Hdate, Hrest.
  unfold afterStamp. destruct (str_eqb (dialect st) (u "] ")).
  - change (ch " " :: who ++ ch ":" :: text) with ((ch " " :: who) ++ ch ":" :: text).
    rewrite indexOf_app by (intros [E|Hin]; [discriminate E | auto]).
    rewrite firstn_app, Nat.sub_diag, firstn_all, app_nil_r.
    rewrite trim_leading_space by reflexivity.
    replace (length (ch " " :: who) + 1)%nat
      with (length ((ch " " :: who) ++ [ch ":"])) by (rewrite length_app; reflexivity).
    change ((ch " " :: who) ++ ch ":" :: text) with ((ch " " :: who) ++ [ch ":"] ++ text).
    rewrite app_assoc, skipn_app, skipn_all, Nat.sub_diag. reflexivity.
  - rewrite indexOf_app by exact Hcolon.
    rewrite firstn_app, Nat.sub_diag, firstn_all, app_nil_r.
    replace (length who + 1)%nat with (length (who ++ [ch ":"]))
      by (rewrite length_app; reflexivity).
    change (who ++ ch ":" :: text) with (who ++ [ch ":"] ++ text).
    rewrite app_assoc, skipn_app, skipn_all, Nat.sub_diag. reflexivity.
Qed.

Lemma X27_stamped_line_witness :
  parseLine 0 DMY emptyParserState (u "12/05/23, 9:00 - Alice: hello")
  = {| parsed := [msg 1683882000000 (u "Alice") (u "hello")]; lastMessage := Some 0%nat |}.
Proof.
  refine (X27_stamped_line_becomes_a_message 0 DMY emptyParserState (androidStamp (u "05"))
            (u "Alice") (u " hello") 1683882000000 eq_refl _ _ eq_refl).
  - vm_compute. intros H. repeat (destruct H as [H|H]; [discriminate H|]). exact H.
  - intros E. discriminate E.
Defined.


(* ===================================================================== *)
(** ** Lines whose date is no date of the calendar *)
(* ===================================================================== *)

Lemma parseChatFile_messages (tz : Z) (language text : jstring) :
  text <> [] ->
  messages (parseChatFile tz language text)
  = let lines := split_lines (replace_all isDirMark [] text) in
    parsed (fold_left (parseLine tz (detectDateFormat language lines)) lines emptyParserState).
Proof. intros H. unfold parseChatFile. destruct text; [now contradiction H | reflexivity]. Qed.

Lemma parseLine_starts (tz : Z) (fmt : DateFormat) (st : ParserState) (line : jstring)
    (m : MatchResult) (t : Z) (i : nat) :
  match_ TIMESTAMP_PATTERN line = Some m ->
  parseDate tz (m1 m) (m2 m) fmt = Some t ->
  indexOf (ch ":") (skipn (length (m0 m)) line) = Some i ->
  parseLine tz fmt st line
  = {| parsed := parsed st
                 ++ [{| date := t;
                        sender := trim (firstn i (skipn (length (m0 m)) line));
                        content := trim (skipn (i + 1) (skipn (length (m0 m)) line)) |}];
       lastMessage := Some (length (parsed st)) |}.
Proof. intros Hm Hd Hi. unfold parseLine. rewrite Hm. cbv zeta. now rewrite Hd, Hi. Qed.

(** The date [parseDate] builds from numbers: the day counts on from the
    first of the month, also beyond the end of the month. *)
Lemma parseDate_numbers (tz : Z) (dateStr timeStr : jstring) (fmt : DateFormat)
    (y m d h mi : Z) :
  dateFields dateStr fmt = (Some y, Some m, Some d) ->
  timeFields timeStr = (Some h, Some mi) ->
  100 <= y <= 9999 -> 1 <= m <= 12 -> 1 <= d <= 99 -> 0 <= h < 24 -> 0 <= mi < 60 ->
  Z.abs tz <= 1440 ->
  parseDate tz dateStr timeStr fmt
  = Some ((days_from_civil y m 1 + (d - 1)) * msPerDay + h * msPerHour + mi * msPerMinute
          - tz * msPerMinute).
Proof.
  intros Hdate Htime Hy Hm Hd Hh Hmi Htz.
  rewrite parseDate_fields, Hdate, Htime. cbn [option_map]. unfold newDate, MakeDay.
  assert (E : (0 <=? y) && (y <=? 99) = false)
    by (apply andb_false_iff; right; apply Z.leb_gt; lia).
  rewrite E. rewrite Z.div_small, Z.mod_small, Z.add_0_r by lia.
  replace (m - 1 + 1) with m by lia.
  pose proof (days_from_civil_wide y m ltac:(lia) Hm) as Hb.
  replace (days_from_civil y m 1 + d - 1) with (days_from_civil y m 1 + (d - 1)) by lia.
  unfold TimeClip, msPerDay, msPerHour, msPerMinute.
  destruct (Z.leb_spec (Z.abs ((days_from_civil y m 1 + (d - 1)) * 86400000 + h * 3600000
                               + mi * 60000 - tz * 60000)) 8640000000000000);
    [reflexivity | lia].
Qed.

(** C2, as the code has it: day 32 is no date of the calendar, yet on every
    host within a day of UTC and in every locale the line
    [32/05/23, 9:01 - Bob: hi there] starts a message of its own, dated
    1 June 2023, 9:01 local time, instead of being appended to Alice's
    message. A line whose date [parseDate] does reject (with the meridiem
    glued to the minutes, the minutes are [NaN]) is not appended to
    Alice's message either: it is dropped. *)
Theorem C2_day_32_line_starts_a_message (tz : Z) (language : jstring) :
  Z.abs tz <= 1440 ->
  let day32 :=
    parseChatFile tz language
      (u "12/05/23, 9:00 - Alice: hello" ++ nl ++ u "32/05/23, 9:01 - Bob: hi there") in
  let glued :=
    parseChatFile tz language
      (u "12/05/23, 9:00 - Alice: hello" ++ nl ++ gluedMeridiemLine) in
  validCalendarDate 32 5 2023 = false
  /\ map (fun m => (localTime tz (date m), sender m, content m)) (messages day32)
     = [(days_from_civil 2023 5 12 * msPerDay + 9 * msPerHour, u "Alice", u "hello");
        (days_from_civil 2023 6 1 * msPerDay + 9 * msPerHour + 1 * msPerMinute,
         u "Bob", u "hi there")]
  /\ map (fun m => (sender m, content m)) (messages glued) = [(u "Alice", u "hello")].
Proof.
  intros Htz. cbv zeta. split; [reflexivity|]. split.
  - rewrite parseChatFile_messages by (vm_compute; discriminate). cbv zeta.
    replace (split_lines _)
      with [u "12/05/23, 9:00 - Alice: hello"; u "32/05/23, 9:01 - Bob: hi there"]
      by (vm_compute; reflexivity).
    replace (detectDateFormat language _) with DMY.
    2:{ unfold detectDateFormat.
        replace (scanFormat _ 0 0) with (false, 32, 5) by (vm_compute; reflexivity).
        reflexivity. }
    cbn [fold_left].
    set (l1 := u "12/05/23, 9:00 - Alice: hello").
    set (l2 := u "32/05/23, 9:01 - Bob: hi there").
    set (t1 := (days_from_civil 2023 5 1 + (12 - 1)) * msPerDay
               + 9 * msPerHour + 0 * msPerMinute - tz * msPerMinute).
    set (t2 := (days_from_civil 2023 5 1 + (32 - 1)) * msPerDay
               + 9 * msPerHour + 1 * msPerMinute - tz * msPerMinute).
    rewrite (parseLine_starts tz DMY emptyParserState l1
               {| m0 := u "12/05/23, 9:00 - "; m1 := u "12/05/23"; m2 := u "9:00" |}
               t1 5%nat);
      [ | vm_compute; reflexivity
        | cbn [m1 m2]; apply parseDate_numbers; try lia; vm_compute; reflexivity
        | vm_compute; reflexivity ].
    rewrite (parseLine_starts tz DMY _ l2
               {| m0 := u "32/05/23, 9:01 - "; m1 := u "32/05/23"; m2 := u "9:01" |}
               t2 3%nat);
      [ | vm_compute; reflexivity
        | cbn [m1 m2]; apply parseDate_numbers; try lia; vm_compute; reflexivity
        | vm_compute; reflexivity ].
    cbn [parsed emptyParserState app map date sender content].
    unfold localTime.
    replace (t1 + tz * msPerMinute) with (days_from_civil 2023 5 12 * msPerDay + 9 * msPerHour)
      by (subst t1; change (days_from_civil 2023 5 1) with 19478;
          change (days_from_civil 2023 5 12) with 19489; lia).
    replace (t2 + tz * msPerMinute)
      with (days_from_civil 2023 6 1 * msPerDay + 9 * msPerHour + 1 * msPerMinute)
      by (subst t2; change (days_from_civil 2023 5 1) with 19478;
          change (days_from_civil 2023 6 1) with 19509; lia).
    reflexivity.
  - rewrite parseChatFile_messages by (vm_compute; discriminate). cbv zeta.
    replace (split_lines _)
      with [u "12/05/23, 9:00 - Alice: hello"; gluedMeridiemLine]
      by (vm_compute; reflexivity).
    set (l1 := u "12/05/23, 9:00 - Alice: hello").
    assert (Hfmt : detectDateFormat language [l1; gluedMeridiemLine] = DMY
                   \/ detectDateFormat language [l1; gluedMeridiemLine] = MDY).
    { unfold detectDateFormat.
      replace (scanFormat _ 0 0) with (false, 12, 5) by (vm_compute; reflexivity).
      cbv iota beta. change (12 >? 12) with false. change (5 >? 12) with false. cbv iota.
      destruct (startsWith _ _); auto. }
    cbn [fold_left].
    assert (Hdrop : forall fmt st, parseLine tz fmt st gluedMeridiemLine = st).
    { intros fmt st.
      apply (parseLine_unparsable tz fmt st gluedMeridiemLine
               {| m0 := u "12/05/23, 9:01pm - "; m1 := u "12/05/23"; m2 := u "9:01pm" |});
        [vm_compute; reflexivity|].
      destruct fmt; vm_compute; reflexivity. }
    rewrite Hdrop.
    destruct Hfmt as [-> | ->].
    + rewrite (parseLine_starts tz DMY emptyParserState l1
                 {| m0 := u "12/05/23, 9:00 - "; m1 := u "12/05/23"; m2 := u "9:00" |}
                 ((days_from_civil 2023 5 1 + (12 - 1)) * msPerDay
                  + 9 * msPerHour + 0 * msPerMinute - tz * msPerMinute) 5%nat);
        [ reflexivity | vm_compute; reflexivity
          | cbn [m1 m2]; apply parseDate_numbers; try lia; vm_compute; reflexivity
          | vm_compute; reflexivity ].
    + rewrite (parseLine_starts tz MDY emptyParserState l1
                 {| m0 := u "12/05/23, 9:00 - "; m1 := u "12/05/23"; m2 := u "9:00" |}
                 ((days_from_civil 2023 12 1 + (5 - 1)) * msPerDay
                  + 9 * msPerHour + 0 * msPerMinute - tz * msPerMinute) 5%nat);
        [ reflexivity | vm_compute; reflexivity
          | cbn [m1 m2]; apply parseDate_numbers; try lia; vm_compute; reflexivity
          | vm_compute; reflexivity ].
Qed.

(** On a host at UTC+05:30 with the locale en-US. *)
Lemma C2_day_32_line_witness :
  map (fun m => (sender m, content m))
    (messages (parseChatFile 330 (u "en-US")
       (u "12/05/23, 9:00 - Alice: hello" ++ nl ++ u "32/05/23, 9:01 - Bob: hi there")))
  = [(u "Alice", u "hello"); (u "Bob", u "hi there")].
Proof.
  pose proof (proj1 (proj2 (C2_day_32_line_starts_a_message 330 (u "en-US") ltac:(lia)))) as H.
  apply (f_equal (map (fun x => (snd (fst x), snd x)))) in H.
  rewrite map_map in H. exact H.
Defined.


(* ===================================================================== *)
(** ** The busiest minute, hour and day *)
(* ===================================================================== *)

Lemma app_inv_length {A : Type} (a a' b b' : list A) :
  length a = length a' -> a ++ b = a' ++ b' -> a = a' /\ b = b'.
Proof.
  revert a'. induction a as [|x a IH]; intros [|y a'] Hlen E; try discriminate.
  - auto.
  - cbn [app] in E. injection E as -> E. destruct (IH a' ltac:(cbn in Hlen; lia) E) as (-> & ->).
    auto.
Qed.

Lemma cons_inv_tail {A : Type} (x y : A) (a b : list A) : x :: a = y :: b -> a = b.
Proof. intros E. now injection E. Qed.

Lemma pad2_injective (a b : Z) : 0 <= a < 100 -> 0 <= b < 100 -> pad 2 a = pad 2 b -> a = b.
Proof.
  intros Ha Hb E. pose proof (digitsValue_pad 2 a 0) as Da. pose proof (digitsValue_pad 2 b 0) as Db.
  rewrite E in Da. rewrite Da in Db. change (10 ^ Z.of_nat 2) with 100 in Db.
  rewrite !Z.mod_small in Db by lia. injection Db as Db. lia.
Qed.

Lemma length_dayKey (z : Z) : fourDigitDay z -> length (dayKey z) = 10%nat.
Proof.
  intros Hz. pose proof (dayKey_four_digits z Hz) as K.
  destruct (civil_from_days z) as [[y m] d]. rewrite K.
  rewrite length_app. cbn [length]. rewrite length_app. cbn [length].
  now rewrite !length_pad.
Qed.

(** The minute key and the hour key of a time of the years 0 to 9999. *)
Lemma minKeyOf_four_digits (t : Z) :
  fourDigitDay (dayNumber t) ->
  minKeyOf t = dayKey (dayNumber t) ++ ch "T" :: pad 2 (t mod msPerDay / msPerHour)
               ++ ch ":" :: pad 2 (t mod msPerDay / msPerMinute mod 60).
Proof.
  intros Hz. pose proof (length_dayKey _ Hz) as Hlen. rewrite <- isoDate_dayKey in *.
  unfold minKeyOf, toISOString. unfold isoDate in *.
  destruct (civil_from_days (t / msPerDay)) as [[y m] d].
  set (datePart := (if (0 <=? y) && (y <=? 9999) then pad 4 y
                    else (if y <? 0 then ch "-" else ch "+") :: pad 6 (Z.abs y))
                   ++ u "-" ++ pad 2 m ++ u "-" ++ pad 2 d) in *.
  replace (_ ++ u "-" ++ pad 2 m ++ u "-" ++ pad 2 d ++ u "T" ++ _)
    with ((datePart ++ ch "T" :: pad 2 (t mod msPerDay / msPerHour)
           ++ ch ":" :: pad 2 (t mod msPerDay / msPerMinute mod 60))
          ++ u ":" ++ pad 2 (t mod msPerDay / 1000 mod 60) ++ u "."
          ++ pad 3 (t mod msPerDay mod 1000) ++ u "Z").
  2:{ subst datePart. rewrite <- !app_assoc. cbn [u app]. rewrite <- !app_assoc.
      cbn [app]. repeat f_equal. }
  rewrite firstn_app. rewrite firstn_all2.
  2:{ rewrite length_app, Hlen. cbn [length]. rewrite length_app, length_pad. cbn [length].
      rewrite length_pad. lia. }
  replace (16 - _)%nat with 0%nat.
  2:{ rewrite length_app, Hlen. cbn [length]. rewrite length_app, length_pad. cbn [length].
      rewrite length_pad. lia. }
  cbn [firstn]. now rewrite app_nil_r.
Qed.

Lemma hourKeyOf_four_digits (t : Z) :
  fourDigitDay (dayNumber t) ->
  hourKeyOf t = dayKey (dayNumber t) ++ ch "T" :: pad 2 (t mod msPerDay / msPerHour).
Proof.
  intros Hz. rewrite hourKeyOf_minKeyOf, minKeyOf_four_digits by exact Hz.
  pose proof (length_dayKey _ Hz) as Hlen.
  replace (dayKey (dayNumber t) ++ ch "T" :: pad 2 (t mod msPerDay / msPerHour)
           ++ ch ":" :: pad 2 (t mod msPerDay / msPerMinute mod 60))
    with ((dayKey (dayNumber t) ++ ch "T" :: pad 2 (t mod msPerDay / msPerHour))
          ++ ch ":" :: pad 2 (t mod msPerDay / msPerMinute mod 60))
    by (rewrite <- app_assoc; reflexivity).
  rewrite firstn_app, firstn_all2
    by (rewrite length_app, Hlen; cbn [length]; rewrite length_pad; lia).
  replace (13 - _)%nat with 0%nat
    by (rewrite length_app, Hlen; cbn [length]; rewrite length_pad; lia).
  cbn [firstn]. now rewrite app_nil_r.
Qed.

Lemma minKeyOf_minuteNumber (t t' : Z) :
  fourDigitDay (dayNumber t) -> fourDigitDay (dayNumber t') ->
  minKeyOf t = minKeyOf t' <-> minuteNumber t = minuteNumber t'.
Proof.
  intros H H'. rewrite !minKeyOf_four_digits by assumption.
  unfold minuteNumber, dayNumber in *. unfold msPerDay, msPerHour, msPerMinute in *.
  pose proof (Z.mod_pos_bound t 86400000 ltac:(lia)) as Hr.
  pose proof (Z.mod_pos_bound t' 86400000 ltac:(lia)) as Hr'.
  split.
  - intros E.
    apply app_inv_length in E; [|now rewrite !length_dayKey].
    destruct E as (Ed & E). apply cons_inv_tail in E.
    apply app_inv_length in E; [|now rewrite !length_pad].
    destruct E as (Eh & Em). apply cons_inv_tail in Em.
    apply dayKey_injective in Ed; [|assumption..].
    apply pad2_injective in Eh; [|Z.div_mod_to_equations; lia..].
    apply pad2_injective in Em; [|Z.div_mod_to_equations; lia..].
    Z.div_mod_to_equations. lia.
  - intros E.
    assert (Ed : t / 86400000 = t' / 86400000) by (Z.div_mod_to_equations; lia).
    assert (Eh : t mod 86400000 / 3600000 = t' mod 86400000 / 3600000)
      by (Z.div_mod_to_equations; lia).
    assert (Em : t mod 86400000 / 60000 mod 60 = t' mod 86400000 / 60000 mod 60)
      by (Z.div_mod_to_equations; lia).
    now rewrite Ed, Eh, Em.
Qed.

Lemma hourKeyOf_hourNumber (t t' : Z) :
  fourDigitDay (dayNumber t) -> fourDigitDay (dayNumber t') ->
  hourKeyOf t = hourKeyOf t' <-> hourNumber t = hourNumber t'.
Proof.
  intros H H'. rewrite !hourKeyOf_four_digits by assumption.
  unfold hourNumber, dayNumber in *. unfold msPerDay, msPerHour in *.
  pose proof (Z.mod_pos_bound t 86400000 ltac:(lia)) as Hr.
  pose proof (Z.mod_pos_bound t' 86400000 ltac:(lia)) as Hr'.
  split.
  - intros E.
    apply app_inv_length in E; [|now rewrite !length_dayKey].
    destruct E as (Ed & Eh). apply cons_inv_tail in Eh.
    apply dayKey_injective in Ed; [|assumption..].
    apply pad2_injective in Eh; [|Z.div_mod_to_equations; lia..].
    Z.div_mod_to_equations. lia.
  - intros E.
    assert (Ed : t / 86400000 = t' / 86400000) by (Z.div_mod_to_equations; lia).
    assert (Eh : t mod 86400000 / 3600000 = t' mod 86400000 / 3600000)
      by (Z.div_mod_to_equations; lia).
    now rewrite Ed, Eh.
Qed.

Lemma dateKeyOf_dayNumber (t t' : Z) :
  fourDigitDay (dayNumber t) -> fourDigitDay (dayNumber t') ->
  dateKeyOf t = dateKeyOf t' <-> dayNumber t = dayNumber t'.
Proof.
  intros H H'. rewrite !dateKeyOf_isoDate, !isoDate_dayKey. split.
  - now apply dayKey_injective.
  - now intros ->.
Qed.

Section UnitsOfTime.

Variable key : Z -> jstring.
Variable unit : Z -> Z.
Hypothesis key_unit :
  forall t t', fourDigitDay (dayNumber t) -> fourDigitDay (dayNumber t') ->
               key t = key t' <-> unit t = unit t'.
Variable msgs : list Message.
Hypothesis Hfour : Forall (fun m => fourDigitDay (dayNumber (date m))) msgs.

Lemma keyTotal_unitTotal (m : Message) :
  In m msgs -> keyTotal key msgs (key (date m)) = unitTotal unit msgs (unit (date m)).
Proof.
  intros Hin. unfold keyTotal, unitTotal, countWhere. do 2 f_equal.
  apply filter_ext_in. intros m' Hin'. rewrite Forall_forall in Hfour.
  pose proof (key_unit (date m') (date m) (Hfour m' Hin') (Hfour m Hin)) as Hiff.
  destruct (str_eqb (key (date m')) (key (date m))) eqn:E.
  - apply str_eqb_eq in E. symmetry. apply Z.eqb_eq. now apply Hiff.
  - symmetry. apply Z.eqb_neq. intros Hu. apply Hiff in Hu.
    rewrite Hu, str_eqb_refl in E. discriminate.
Qed.

Lemma unitTotal_upper (M : Z) :
  (forall k, keyTotal key msgs k <= M) -> forall k, unitTotal unit msgs k <= M.
Proof.
  intros Hup k. unfold unitTotal, countWhere.
  destruct (filter (fun m => unit (date m) =? k) msgs) as [|m l] eqn:E.
  - cbn [length]. specialize (Hup []). unfold keyTotal, countWhere in Hup. lia.
  - assert (Hm : In m (filter (fun m => unit (date m) =? k) msgs)) by (rewrite E; now left).
    apply filter_In in Hm. destruct Hm as (Hin & Hk). apply Z.eqb_eq in Hk.
    rewrite <- E. fold (countWhere (fun m => unit (date m) =? k) msgs).
    fold (unitTotal unit msgs k). rewrite <- Hk, <- keyTotal_unitTotal by exact Hin.
    apply Hup.
Qed.

Lemma unitTotal_attained (M : Z) :
  1 <= M -> (exists k, keyTotal key msgs k = M) -> exists k, unitTotal unit msgs k = M.
Proof.
  intros HM (k & Hk). unfold keyTotal, countWhere in Hk.
  destruct (filter (fun m => str_eqb (key (date m)) k) msgs) as [|m l] eqn:E;
    [cbn [length] in Hk; lia|].
  assert (Hm : In m (filter (fun m => str_eqb (key (date m)) k) msgs)) by (rewrite E; now left).
  apply filter_In in Hm. destruct Hm as (Hin & Hkey). apply str_eqb_eq in Hkey.
  exists (unit (date m)). rewrite <- keyTotal_unitTotal by exact Hin.
  unfold keyTotal, countWhere. now rewrite Hkey, E.
Qed.

End UnitsOfTime.


(** X13: when the filtered messages lie in the years 0 to 9999 (UTC),
    [rapidFire.maxInMinute], [maxInHour] and [maxInDay] are the largest
    numbers of messages of one UTC minute, one UTC hour and one UTC day:
    no minute, hour or day holds more, some minute, hour and day hold as
    many, and the three are ordered, below the number of messages. *)
Theorem X13_rapid_fire_maxima (tz : Z) (clock : nat -> Z) (msgs : list Message)
    (yearFilter : option Z) :
  let filtered := filterMessages tz msgs yearFilter in
  let r := analyzeMessages tz clock msgs yearFilter in
  Forall (fun m => fourDigitDay (dayNumber (date m))) filtered ->
  (forall k, unitTotal minuteNumber filtered k <= maxInMinute (rapidFire r))
  /\ (forall k, unitTotal hourNumber filtered k <= maxInHour (rapidFire r))
  /\ (forall k, unitTotal dayNumber filtered k <= maxInDay (rapidFire r))
  /\ (filtered <> [] ->
      (exists k, unitTotal minuteNumber filtered k = maxInMinute (rapidFire r))
      /\ (exists k, unitTotal hourNumber filtered k = maxInHour (rapidFire r))
      /\ (exists k, unitTotal dayNumber filtered k = maxInDay (rapidFire r))
      /\ 1 <= maxInMinute (rapidFire r))
  /\ maxInMinute (rapidFire r) <= maxInHour (rapidFire r)
  /\ maxInHour (rapidFire r) <= maxInDay (rapidFire r)
  /\ maxInDay (rapidFire r) <= totalMessages r.
Proof.
  cbv zeta. intros Hfour.
  destruct (rapid_fire_keys tz clock msgs yearFilter)
    as (Hm & Hh & Hd & Hatt & Hmh & Hhd & Hdt).
  split; [exact (unitTotal_upper minKeyOf minuteNumber minKeyOf_minuteNumber _ Hfour _ Hm)|].
  split; [exact (unitTotal_upper hourKeyOf hourNumber hourKeyOf_hourNumber _ Hfour _ Hh)|].
  split; [exact (unitTotal_upper dateKeyOf dayNumber dateKeyOf_dayNumber _ Hfour _ Hd)|].
  split; [|auto].
  intros Hne. destruct (Hatt Hne) as (Am & Ah & Ad & Hone).
  split; [|split; [|split; [|exact Hone]]].
  - exact (unitTotal_attained minKeyOf minuteNumber minKeyOf_minuteNumber _ Hfour _ Hone Am).
  - apply (unitTotal_attained hourKeyOf hourNumber hourKeyOf_hourNumber _ Hfour);
      [lia | exact Ah].
  - apply (unitTotal_attained dateKeyOf dayNumber dateKeyOf_dayNumber _ Hfour);
      [lia | exact Ad].
Qed.

Lemma X13_rapid_fire_witness :
  exists k, unitTotal minuteNumber (filterMessages 0 twoDays None) k
            = maxInMinute (rapidFire (analyzeMessages 0 (fun _ => 0) twoDays None)).
Proof.
  refine (proj1 (proj1 (proj2 (proj2 (proj2
            (X13_rapid_fire_maxima 0 (fun _ => 0) twoDays None _)))) _)).
  - repeat constructor; vm_compute; discriminate.
  - vm_compute. discriminate.
Defined.


(* ===================================================================== *)
(** ** The longest message *)
(* ===================================================================== *)

Lemma wordCountOf_nonneg (m : Message) : 0 <= wordCountOf m.
Proof. unfold wordCountOf. cbv zeta. lia. Qed.

Lemma textWords_nonneg (m : Message) : 0 <= textWords m.
Proof. unfold textWords. destruct (isText m); [apply wordCountOf_nonneg | lia]. Qed.

Lemma loop_longest (tz : Z) (msgs : list Message) :
  longestOf msgs (longestMsg (forEachFrom tz 0 msgs initialAcc)).
Proof.
  induction msgs as [|m msgs IH] using rev_ind.
  - split; [intros m []|]. left. split; [reflexivity | intros m []].
  - rewrite forEachFrom_snoc. unfold step. cbn [longestMsg].
    set (st := forEachFrom tz 0 msgs initialAcc) in *.
    destruct IH as (Hup & Hcase).
    assert (H0 : 0 <= longest_wordCount (longestMsg st)).
    { destruct Hcase as [(-> & _) | (l1 & m0 & l2 & _ & _ & _ & H1 & _)];
        [cbn [longest_wordCount noLongest] |]; lia. }
    pose proof (wordCountOf_nonneg m) as Hw.
    unfold longestMessageUpdate.
    assert (Hkeep : (isText m = false \/ wordCountOf m <= longest_wordCount (longestMsg st)) ->
                    longestOf (msgs ++ [m]) (longestMsg st)).
    { intros Hm.
      assert (Hle : textWords m <= longest_wordCount (longestMsg st)).
      { unfold textWords. destruct Hm as [-> | Hm]; [lia|]. destruct (isText m); lia. }
      split.
      - intros m' Hin. apply in_app_iff in Hin. destruct Hin as [Hin | [<- | []]]; auto.
      - destruct Hcase as [(E & Hzero) | (l1 & m0 & l2 & -> & Ht & E & H1 & Hbefore)].
        + left. split; [exact E|]. intros m' Hin. apply in_app_iff in Hin.
          destruct Hin as [Hin | [<- | []]]; auto.
          rewrite E in Hle. cbn [longest_wordCount noLongest] in Hle.
          pose proof (textWords_nonneg m). lia.
        + right. exists l1, m0, (l2 ++ [m]). rewrite <- app_assoc. cbn [app]. auto. }
    destruct (isMedia m) eqn:Emedia.
    { apply Hkeep. left. unfold isText. now rewrite Emedia. }
    destruct (isSystemMsg m) eqn:Esys.
    { apply Hkeep. left. unfold isText. now rewrite Esys, andb_false_r. }
    cbv zeta.
    destruct (Z.gtb_spec (wordCountOf m) (longest_wordCount (longestMsg st))) as [Hgt | Hle].
    + assert (Ht : isText m = true) by (unfold isText; now rewrite Emedia, Esys).
      fold (asLongest m). split.
      * intros m' Hin. cbn [asLongest longest_wordCount].
        apply in_app_iff in Hin. destruct Hin as [Hin | [<- | []]].
        -- specialize (Hup m' Hin). lia.
        -- unfold textWords. rewrite Ht. lia.
      * right. exists msgs, m, []. cbn [asLongest longest_wordCount].
        repeat split; auto; try lia.
        intros m' Hin. specialize (Hup m' Hin). lia.
    + apply Hkeep. now right.
Qed.

(** X29: for a filtered list that is not empty, [longestMessage] is the
    record of the first text message (neither media nor system message)
    with the largest number of words, when some text message has a word:
    it holds the content, sender, date and word count of that message, no
    message has more words and every message before it has fewer. When no
    text message has a word it is the initial record, with the empty
    content and sender, the date [new Date(0)] and 0 words. *)
Theorem X29_longest_message (tz : Z) (clock : nat -> Z) (msgs : list Message)
    (yearFilter : option Z) :
  let filtered := filterMessages tz msgs yearFilter in
  let lm := longestMessage (analyzeMessages tz clock msgs yearFilter) in
  filtered <> [] ->
  (forall m, In m filtered -> textWords m <= longest_wordCount lm)
  /\ ((lm = noLongest /\ forall m, In m filtered -> textWords m = 0)
      \/ exists l1 m l2,
           filtered = l1 ++ m :: l2 /\ isText m = true /\ lm = asLongest m
           /\ 1 <= longest_wordCount lm
           /\ forall m', In m' l1 -> textWords m' < longest_wordCount lm).
Proof.
  cbv zeta. intros Hne. unfold analyzeMessages.
  destruct (filterMessages tz msgs yearFilter) as [|first rest] eqn:Hf; [now contradiction Hne|].
  cbn [longestMessage]. apply loop_longest.
Qed.

(** In the two-line chat Bob's two words are not outdone by Alice's one. *)
Lemma X29_longest_message_witness :
  textWords (msg 1683882000000 (u "Alice") (u "hello"))
  <= longest_wordCount (longestMessage (analyzeMessages 0 (fun _ => 0) twoMessages None)).
Proof.
  refine (proj1 (X29_longest_message 0 (fun _ => 0) twoMessages None _) _ _).
  - vm_compute. discriminate.
  - vm_compute. auto.
Defined.
